(** * RFC-2544 plugin: header engine, validation pipeline and peer resolver

    A shallow embedding of
      - [pluginlib/plugin2544/model/m_protocol_segment.py]
        (ValueRange, SegmentField, Segment, wrap_add_16),
      - [pluginlib/plugin2544/dataset.py]
        (PluginModel2544 validators on the port configurations),
      - [pluginlib/plugin2544/model/m_port_config.py]
        (the attributes of PortConfiguration),
      - [pluginlib/plugin2544/plugin/structure.py] (Properties),
    with the properties of the specification stated and settled on it.

    Python [int] is [Z]; [str] is a list of characters; a [bytearray] is a
    list of integers, each in [0, 256); a [dict] whose iteration order
    matters is an association list in insertion order.  A method that
    mutates its object returns the new object next to its result; a method
    that can raise returns a [result]. *)

From Stdlib Require Import ZArith List String Ascii Bool Lia Permutation.
From Stdlib Require Import DecimalString DecimalPos.
Import ListNotations.
Open Scope Z_scope.

(** ** Exceptions and results *)

Inductive exn : Type :=
| ValueError
| IndexError
| KeyError
| OverflowError
| AttributeError
| PortPeerNeeded
| PortPeerInconsistent
| PortGroupError (group : string).

Inductive result (A : Type) : Type :=
| Return (a : A)
| Raise (e : exn).
Arguments Return {A} a.
Arguments Raise {A} e.

Definition bind {A B : Type} (r : result A) (k : A -> result B) : result B :=
  match r with
  | Return a => k a
  | Raise e => Raise e
  end.

Declare Scope py_scope.
Delimit Scope py_scope with py.
Notation "x <- c ;; k" := (bind c (fun x => k))
  (at level 61, c at next level, right associativity) : py_scope.
Open Scope py_scope.

(** ** Python built-ins used by the sources *)

Module Py.

(** A Python [str]. *)
Definition str : Type := list ascii.

Definition lit (s : string) : str := list_ascii_of_string s.

Definition len {A : Type} (l : list A) : Z := Z.of_nat (List.length l).

(** [s[:stop]]: a negative bound counts from the end, and both are clipped
    to the string. *)
Definition slice_to {A : Type} (s : list A) (stop : Z) : list A :=
  if stop <? 0 then firstn (Z.to_nat (len s + stop)) s
  else firstn (Z.to_nat stop) s.

(** [s[start:]]. *)
Definition slice_from {A : Type} (s : list A) (start : Z) : list A :=
  if start <? 0 then skipn (Z.to_nat (len s + start)) s
  else skipn (Z.to_nat start) s.

(** [s[i]]: a negative index counts from the end; outside the sequence the
    access raises IndexError. *)
Definition getitem {A : Type} (s : list A) (i : Z) : result A :=
  let j := if i <? 0 then len s + i else i in
  if (0 <=? j) && (j <? len s) then
    match nth_error s (Z.to_nat j) with
    | Some c => Return c
    | None => Raise IndexError
    end
  else Raise IndexError.

(** Binary digits of a positive number, most significant first. *)
Fixpoint pos_digits (p : positive) (acc : str) : str :=
  match p with
  | xH => "1"%char :: acc
  | xO q => pos_digits q ("0"%char :: acc)
  | xI q => pos_digits q ("1"%char :: acc)
  end.

(** [bin(n)]: ['0b...'], with a leading ['-'] for a negative number. *)
Definition bin (n : Z) : str :=
  match n with
  | Z0 => lit "0b0"
  | Zpos p => lit "0b" ++ pos_digits p []
  | Zneg p => lit "-0b" ++ pos_digits p []
  end.

(** [s.zfill(width)]: pads with ['0'] on the left up to [width], after a
    leading sign if there is one; a string already that long is returned
    as it is. *)
Definition zfill (s : str) (width : Z) : str :=
  let fill := repeat "0"%char (Z.to_nat (width - len s)) in
  match s with
  | c :: rest =>
      if (Ascii.eqb c "+" || Ascii.eqb c "-")%bool then c :: fill ++ rest
      else fill ++ s
  | [] => fill
  end.

(** The strings matched by [^[01]+$]. *)
Definition is_bit (c : ascii) : bool := (Ascii.eqb c "0" || Ascii.eqb c "1")%bool.

Definition is_binary (s : str) : bool :=
  match s with
  | [] => false
  | _ => forallb is_bit s
  end.

(** The value of a string of binary digits, most significant first. *)
Definition bits_value (s : str) : Z :=
  fold_left (fun acc c => 2 * acc + (if Ascii.eqb c "1" then 1 else 0)) s 0.

(** The white space that [int] skips around a number: tab to carriage
    return, the blank and, among the code points below 256, next-line and
    the no-break space. *)
Definition is_space (c : ascii) : bool :=
  let n := nat_of_ascii c in
  ((9 <=? n) && (n <=? 13) || (n =? 32) || (n =? 133) || (n =? 160))%nat.

Fixpoint lstrip (s : str) : str :=
  match s with
  | c :: rest => if is_space c then lstrip rest else s
  | [] => []
  end.

Definition strip (s : str) : str := rev (lstrip (rev (lstrip s))).

(** Binary digits with single underscores between them, [acc] being the
    value of the digits read so far: an underscore must be followed by a
    digit. *)
Fixpoint scan_digits (s : str) (acc : Z) : option Z :=
  match s with
  | [] => Some acc
  | c :: rest =>
      if is_bit c then
        scan_digits rest (2 * acc + (if Ascii.eqb c "1" then 1 else 0))
      else if Ascii.eqb c "_" then
        match rest with
        | d :: _ => if is_bit d then scan_digits rest acc else None
        | [] => None
        end
      else None
  end.

(** At least one digit, and a digit first. *)
Definition digits2 (s : str) : option Z :=
  match s with
  | c :: _ => if is_bit c then scan_digits s 0 else None
  | [] => None
  end.

(** [int(s, 2)], on text of code points below 256: white space around the
    number, a sign, the prefix [0b] or [0B] with one underscore allowed
    after it, then the digits; anything else raises ValueError. *)
Definition int2 (s : str) : result Z :=
  let s := strip s in
  let '(negative, s) :=
    match s with
    | c :: rest =>
        if Ascii.eqb c "-" then (true, rest)
        else if Ascii.eqb c "+" then (false, rest)
        else (false, s)
    | [] => (false, s)
    end in
  let s :=
    match s with
    | z :: b :: rest =>
        if Ascii.eqb z "0" && (Ascii.eqb b "b" || Ascii.eqb b "B") then
          match rest with
          | u :: rest' => if Ascii.eqb u "_" then rest' else rest
          | [] => rest
          end
        else s
    | _ => s
    end in
  match digits2 s with
  | Some n => Return (if negative then - n else n)
  | None => Raise ValueError
  end.

(** Big-endian bytes of [n], [length] of them. *)
Fixpoint be_bytes (length : nat) (n : Z) : list Z :=
  match length with
  | O => []
  | S k => Z.shiftr n (8 * Z.of_nat k) mod 256 :: be_bytes k n
  end.

(** [n.to_bytes(length, byteorder='big')]: OverflowError for a negative
    number or one that does not fit. *)
Definition to_bytes (n : Z) (length : Z) : result (list Z) :=
  if (n <? 0) || (2 ^ (8 * length) <=? n) then Raise OverflowError
  else Return (be_bytes (Z.to_nat length) n).

(** [b[i] = v] on a bytearray: the index is checked first (IndexError),
    then the value, which must be in range(0, 256) (ValueError). *)
Fixpoint list_set {A : Type} (i : nat) (v : A) (l : list A) : list A :=
  match l, i with
  | [], _ => []
  | _ :: t, O => v :: t
  | h :: t, S j => h :: list_set j v t
  end.

Definition setitem (b : list Z) (i : Z) (v : Z) : result (list Z) :=
  let j := if i <? 0 then len b + i else i in
  if (0 <=? j) && (j <? len b) then
    if (0 <=? v) && (v <? 256) then Return (list_set (Z.to_nat j) v b)
    else Raise ValueError
  else Raise IndexError.

End Py.

(** ** ValueRange (m_protocol_segment.py) *)

(** The two enumerations of the module.  They carry the same three strings
    but are different classes. *)
Inductive ModifierActionOption : Type := INC | DEC | RANDOM.
Inductive EnumActions : Type := INCR | DECR | RAND.

(** A member of either enumeration, as an attribute can hold it.  [==] on
    enumeration members is identity: members of different classes are never
    equal, whatever their values. *)
Inductive ActionMember : Type :=
| OfEnumActions (a : EnumActions)
| OfModifierActionOption (m : ModifierActionOption).

Definition member_eqb (x y : ActionMember) : bool :=
  match x, y with
  | OfEnumActions INCR, OfEnumActions INCR
  | OfEnumActions DECR, OfEnumActions DECR
  | OfEnumActions RAND, OfEnumActions RAND
  | OfModifierActionOption INC, OfModifierActionOption INC
  | OfModifierActionOption DEC, OfModifierActionOption DEC
  | OfModifierActionOption RANDOM, OfModifierActionOption RANDOM => true
  | _, _ => false
  end.

(** The random source: an unbounded supply of raw draws and the number of
    draws consumed so far. *)
Record Random : Type := mkRandom {
  entropy : nat -> Z;
  drawn : nat
}.

(** [randint(a, b)], called here with [a <= b] only: a value of [a..b] and
    the advanced source. *)
Definition randint (rnd : Random) (a b : Z) : Z * Random :=
  (a + entropy rnd (drawn rnd) mod (b - a + 1),
   mkRandom (entropy rnd) (S (drawn rnd))).

Module ValueRange.

Record t : Type := mk {
  start_value : Z;
  step_value : Z;
  stop_value : Z;
  action : ActionMember;
  restart_for_each_port : bool;
  current_count : Z
}.

(** The class declares [action: EnumActions]: a ValueRange built through
    validation (from 'increment', 'decrement' or 'random') stores a member
    of that class. *)
Definition validated (vr : t) : Prop :=
  exists a, action vr = OfEnumActions a.

Definition set_current_count (vr : t) (c : Z) : t :=
  mk (start_value vr) (step_value vr) (stop_value vr)
     (action vr) (restart_for_each_port vr) c.

Definition reset (vr : t) : t := set_current_count vr 0.

Definition get_current_value (vr : t) (rnd : Random) : Z * t * Random :=
  let '(current_value, vr1, rnd1) :=
    if member_eqb (action vr) (OfModifierActionOption INC) then
      let current_value := start_value vr + current_count vr * step_value vr in
      if current_value >? stop_value vr then (start_value vr, reset vr, rnd)
      else (current_value, vr, rnd)
    else if member_eqb (action vr) (OfModifierActionOption DEC) then
      let current_value := start_value vr - current_count vr * step_value vr in
      if current_value <? stop_value vr then (start_value vr, reset vr, rnd)
      else (current_value, vr, rnd)
    else
      let '(current_value, rnd') :=
        randint rnd (Z.min (start_value vr) (stop_value vr))
                    (Z.max (start_value vr) (stop_value vr)) in
      (current_value, vr, rnd')
  in
  (current_value, set_current_count vr1 (current_count vr1 + 1), rnd1).

(** [n] successive calls: the values returned, then the generator and the
    random source as the calls leave them. *)
Fixpoint pull (n : nat) (vr : t) (rnd : Random) : list Z * t * Random :=
  match n with
  | O => ([], vr, rnd)
  | S k =>
      let '(v, vr1, rnd1) := get_current_value vr rnd in
      let '(vs, vr2, rnd2) := pull k vr1 rnd1 in
      (v :: vs, vr2, rnd2)
  end.

End ValueRange.

(** ** SegmentField *)

(** The hardware modifier descriptor: carried along, never interpreted. *)
Record HWModifier : Type := mkHWModifier {
  hw_start_value : Z;
  hw_step_value : Z;
  hw_stop_value : Z;
  hw_repeat : Z;
  hw_action : EnumActions;
  hw_position : Z;
  hw_mask : string
}.

Module SegmentField.

Record t : Type := mk {
  name : string;
  value : Py.str;
  bit_length : Z;
  bit_segment_position : Z;
  hw_modifier : option HWModifier;
  value_range : option ValueRange.t
}.

Definition set_value (f : t) (v : Py.str) : t :=
  mk (name f) v (bit_length f) (bit_segment_position f)
     (hw_modifier f) (value_range f).

Definition set_value_range (f : t) (vr : option ValueRange.t) : t :=
  mk (name f) (value f) (bit_length f) (bit_segment_position f)
     (hw_modifier f) vr.

(** The last operand of the concatenation is the subscription
    [self.value[self.bit_segment_position + self.bit_length]], one
    character, and is evaluated after the generator has been advanced. *)
Definition apply_value_range_if_exists (f : t) (rnd : Random)
  : result Py.str * t * Random :=
  match value_range f with
  | None => (Return (value f), f, rnd)
  | Some vr =>
      let '(v, vr', rnd') := ValueRange.get_current_value vr rnd in
      let value_range_str :=
        Py.zfill (Py.slice_from (Py.bin v) 2) (bit_length f) in
      (c <- Py.getitem (value f) (bit_segment_position f + bit_length f) ;;
       Return (Py.slice_to (value f) (bit_segment_position f)
                 ++ value_range_str ++ [c]),
       set_value_range f (Some vr'), rnd')
  end.

Definition prepare (f : t) (rnd : Random) : result Py.str * t * Random :=
  apply_value_range_if_exists f rnd.

Definition set_field_value (f : t) (new_value : Py.str) : result unit * t :=
  if Py.len new_value =? bit_length f then (Return tt, set_value f new_value)
  else (Raise ValueError, f).

End SegmentField.

(** ** Checksum fix-up *)

Definition bitstring_to_bytes (s : Py.str) : result (list Z) :=
  n <- Py.int2 s ;;
  Py.to_bytes n ((Py.len s + 7) / 8).

(** The [for i in range(0, len(data), 2)] loop of [wrap_add_16], on the part
    of the buffer still to be read: [data[i + 1]] raises IndexError when the
    buffer ends on a single byte. *)
Fixpoint checksum_loop (data : list Z) (checksum : Z) : result Z :=
  match data with
  | [] => Return checksum
  | [_] => Raise IndexError
  | d0 :: d1 :: rest =>
      let w := Z.shiftl d0 8 + d1 in
      let checksum := checksum + w in
      let checksum :=
        if checksum >? 0xFFFF then Z.land (1 + checksum) 0xFFFF
        else checksum in
      checksum_loop rest checksum
  end.

Definition wrap_add_16 (data : list Z) (offset_num : Z) : result (list Z) :=
  data <- Py.setitem data (offset_num + 0) 0 ;;
  data <- Py.setitem data (offset_num + 1) 0 ;;
  checksum <- checksum_loop data 0 ;;
  data <- Py.setitem data (offset_num + 0)
            (0xFF + 1 + Z.lnot (Z.shiftr checksum 8)) ;;
  data <- Py.setitem data (offset_num + 1)
            (0xFF + 1 + Z.lnot (Z.land checksum 0xFF)) ;;
  Return data.

(** ** Segment *)

Inductive SegmentType : Type :=
| ETHERNET | VLAN | ARP | IP | IPV6 | UDP | TCP | LLC | SNAP | GTP | ICMP
| RTP | RTCP | STP | SCTP | MACCTRL | MPLS | PBBTAG | FCOE | FC | FCOETAIL
| IGMPV3L0 | IGMPV3L1 | UDPCHECK | IGMPV2 | GRE_NOCHECK | GRE_CHECK
| TCPCHECK | IGMPV1 | VXLAN | NVGRE
| RAW (i : positive).

Module Segment.

Record t : Type := mk {
  segment_type : SegmentType;
  fields : list SegmentField.t;
  checksum_offset : option Z;
  is_field_src_value_all_zero : option bool;
  is_field_dst_value_all_zero : option bool
}.

Definition set_fields (s : t) (fs : list SegmentField.t) : t :=
  mk (segment_type s) fs (checksum_offset s)
     (is_field_src_value_all_zero s) (is_field_dst_value_all_zero s).

Definition set_checksum_offset (s : t) (k : option Z) : t :=
  mk (segment_type s) (fields s) k
     (is_field_src_value_all_zero s) (is_field_dst_value_all_zero s).

(** Truth value of an [Optional[int]]: [None] and [0] are false. *)
Definition truthy (o : option Z) : bool :=
  match o with
  | None => false
  | Some k => negb (k =? 0)
  end.

(** The validator of [checksum_offset], run on the value already coerced
    to [Optional[int]]: [isinstance(value, int)] holds for every value that
    is not [None], so the value is handed back. *)
Definition is_digit (value : option Z) : result (option Z) :=
  let isinstance_int := true in
  if truthy value && negb isinstance_int then Raise ValueError
  else Return value.

(** [''.join(f.prepare() for f in self.fields)]: the fields are prepared
    from left to right; an exception leaves the later fields untouched. *)
Fixpoint join_prepare (fs : list SegmentField.t) (rnd : Random)
  : result Py.str * list SegmentField.t * Random :=
  match fs with
  | [] => (Return [], [], rnd)
  | f :: rest =>
      let '(r, f', rnd1) := SegmentField.prepare f rnd in
      match r with
      | Raise e => (Raise e, f' :: rest, rnd1)
      | Return s =>
          let '(r2, rest', rnd2) := join_prepare rest rnd1 in
          (s2 <- r2 ;; Return (s ++ s2), f' :: rest', rnd2)
      end
  end.

Definition prepare (s : t) (rnd : Random) : result (list Z) * t * Random :=
  let '(joined, fs', rnd') := join_prepare (fields s) rnd in
  (bits <- joined ;;
   result <- bitstring_to_bytes bits ;;
   if truthy (checksum_offset s) then
     match checksum_offset s with
     | Some offset => wrap_add_16 result offset
     | None => Return result
     end
   else Return result,
   set_fields s fs', rnd').

End Segment.

(** ** Properties (structure.py) *)

Module Properties.

(** A peer port as [register_peer] sees it: the object itself (PortStruct
    defines no [__eq__], so [in] compares identities) and the
    [test_port_index] of its own properties. *)
Record PortStruct : Type := mkPort {
  ident : nat;
  peer_index : Z
}.

(** The address-refresh and ARP/NDP sets of the dataclass are not read or
    written by the two methods below and are left out. *)
Record t : Type := mk {
  num_modifiersL2 : Z;
  dest_port_count : Z;
  test_port_index : Z;
  high_dest_port_count : Z;
  low_dest_port_count : Z;
  lowest_dest_port_index : Z;
  highest_dest_port_index : Z;
  peers : list PortStruct
}.

(** [Properties()] with the dataclass defaults, on the port of index [i]. *)
Definition fresh (i : Z) : t := mk 1 0 i 0 0 (-1) (-1) [].

Definition get_modifier_range (self : t) (stream_id : Z) : Z * Z :=
  if stream_id =? 0 then
    if num_modifiersL2 self =? 2 then
      (lowest_dest_port_index self, test_port_index self - 1)
    else if dest_port_count self >? 0 then
      (lowest_dest_port_index self, highest_dest_port_index self)
    else
      (test_port_index self, test_port_index self)
  else
    (test_port_index self + 1, highest_dest_port_index self).

(** [peer in self.peers]. *)
Definition contains (l : list PortStruct) (peer : PortStruct) : bool :=
  existsb (fun q => Nat.eqb (ident q) (ident peer)) l.

Definition register_peer (self : t) (peer : PortStruct) : t :=
  let peers1 :=
    if negb (contains (peers self) peer) then peers self ++ [peer]
    else peers self in
  if peer_index peer =? test_port_index self then
    mk (num_modifiersL2 self) (dest_port_count self) (test_port_index self)
       (high_dest_port_count self) (low_dest_port_count self)
       (lowest_dest_port_index self) (highest_dest_port_index self) peers1
  else
    let dest := dest_port_count self + 1 in
    let low :=
      if peer_index peer <? test_port_index self
      then low_dest_port_count self + 1 else low_dest_port_count self in
    let high :=
      if peer_index peer <? test_port_index self then high_dest_port_count self
      else if peer_index peer >? test_port_index self
           then high_dest_port_count self + 1 else high_dest_port_count self in
    let num := if (low >? 0) && (high >? 0) then 2 else 1 in
    let lowest :=
      if lowest_dest_port_index self =? -1 then peer_index peer
      else Z.min (lowest_dest_port_index self) (peer_index peer) in
    let highest :=
      if highest_dest_port_index self =? -1 then peer_index peer
      else Z.max (highest_dest_port_index self) (peer_index peer) in
    mk num dest (test_port_index self) high low lowest highest peers1.

(** Registering a list of peers one after the other. *)
Definition register_all (self : t) (l : list PortStruct) : t :=
  fold_left register_peer l self.

(** The numeric outcomes of registration. *)
Record aggregates : Type := mkAgg {
  agg_dest_port_count : Z;
  agg_low_dest_port_count : Z;
  agg_high_dest_port_count : Z;
  agg_lowest_dest_port_index : Z;
  agg_highest_dest_port_index : Z;
  agg_num_modifiersL2 : Z
}.

Definition aggregates_of (self : t) : aggregates :=
  mkAgg (dest_port_count self) (low_dest_port_count self)
        (high_dest_port_count self) (lowest_dest_port_index self)
        (highest_dest_port_index self) (num_modifiersL2 self).

End Properties.

(** ** PluginModel2544 (dataset.py) *)

(** Modelled from the spec: [utils/constants.py] is not among the sources.
    The port group is one of East, West and Undefined; [is_east] and
    [is_west] compare with the member. *)
Inductive PortGroup : Type := EAST | WEST | UNDEFINED.

Definition is_east (g : PortGroup) : bool :=
  match g with EAST => true | _ => false end.
Definition is_west (g : PortGroup) : bool :=
  match g with WEST => true | _ => false end.

(** Modelled from the spec: the traffic direction of [utils/constants.py].
    The validator tests for the two one-way directions and does nothing for
    any other member, which [BIDIRECTION] stands for. *)
Inductive TrafficDirection : Type := EAST_TO_WEST | WEST_TO_EAST | BIDIRECTION.

Definition direction_eqb (a b : TrafficDirection) : bool :=
  match a, b with
  | EAST_TO_WEST, EAST_TO_WEST
  | WEST_TO_EAST, WEST_TO_EAST
  | BIDIRECTION, BIDIRECTION => true
  | _, _ => false
  end.

(** Modelled from the spec: the topology of [utils/constants.py]: mesh,
    pair-based, or another configured pattern. *)
Inductive TestTopology : Type := PAIRS | BLOCKS | MESH.

Definition is_pair_topology (t : TestTopology) : bool :=
  match t with PAIRS => true | _ => false end.
Definition is_mesh_topology (t : TestTopology) : bool :=
  match t with MESH => true | _ => false end.

(** Modelled from the spec: [model/m_test_config.py] is not among the
    sources; these are the two settings of the test configuration that the
    validators below read. *)
Record TestConfiguration : Type := mkTestConfiguration {
  topology : TestTopology;
  direction : TrafficDirection
}.

(** ** PortConfiguration (model/m_port_config.py) *)

Module PortConfiguration.

(** The declared fields that the validators of [dataset.py] read, and the
    three private attributes behind the properties of the class.  The
    private attributes start at [''], [True] and [True]; [set_name],
    [set_tx_port] and [set_rx_port] are the methods that write them.  The
    other declared fields carry values that no function modelled here looks
    into; [other_names] keeps their names. *)
Record t : Type := mk {
  port_slot : string;
  peer_config_slot : string;
  port_group : PortGroup;
  profile_id : string;
  _port_config_slot : string;
  _is_tx : bool;
  _is_rx : bool
}.

(** What an attribute holds: a [str], a [bool], a port group, or a value of
    another type (a number, an address, a nested model, a bound method). *)
Inductive value : Type :=
| Str (s : string)
| Bool (b : bool)
| Group (g : PortGroup)
| Other.

(** The remaining names of the class body: fields, private attribute,
    properties, methods and the validator. *)
Definition other_names : list string :=
  [ "port_speed_mode"; "auto_neg_enabled"; "anlt_enabled"; "mdi_mdix_mode";
    "broadr_reach_mode"; "port_rate_cap_value"; "port_rate_cap_profile";
    "port_rate_cap_unit"; "inter_frame_gap"; "speed_reduction_ppm";
    "pause_mode_enabled"; "latency_offset_ms"; "fec_mode";
    "ip_gateway_mac_address"; "reply_arp_requests"; "reply_ping_requests";
    "remote_loop_mac_address"; "ipv4_properties"; "ipv6_properties";
    "_profile"; "port_rate"; "profile"; "ip_properties";
    "set_ip_gateway_mac_address"; "set_tx_port"; "set_rx_port"; "is_pair";
    "set_name"; "set_profile"; "Config" ]%string.

(** [getattr(self, name)] for a name of the class body, and for a name that
    neither the class nor pydantic's BaseModel gives an instance: the lookup
    of such a name raises AttributeError.  (What BaseModel itself provides,
    [dict], [json], [copy] and the like, is not listed; no code modelled
    here asks for it.)  The class has [port_slot] and [_port_config_slot],
    and no [port_config_slot]. *)
Definition getattr (self : t) (name : string) : result value :=
  if String.eqb name "port_slot" then Return (Str (port_slot self))
  else if String.eqb name "peer_config_slot" then Return (Str (peer_config_slot self))
  else if String.eqb name "port_group" then Return (Group (port_group self))
  else if String.eqb name "profile_id" then Return (Str (profile_id self))
  else if String.eqb name "_port_config_slot" then Return (Str (_port_config_slot self))
  else if String.eqb name "_is_tx" then Return (Bool (_is_tx self))
  else if String.eqb name "_is_rx" then Return (Bool (_is_rx self))
  else if String.eqb name "is_tx_port" then Return (Bool (_is_tx self))
  else if String.eqb name "is_rx_port" then Return (Bool (_is_rx self))
  else if String.eqb name "is_rx_only" then Return (Bool (_is_rx self && negb (_is_tx self)))
  else if String.eqb name "is_loop" then
    Return (Bool (String.eqb (_port_config_slot self) (peer_config_slot self)))
  else if existsb (String.eqb name) other_names then Return Other
  else Raise AttributeError.

(** Truth value: of a [str], that it is not empty; an enumeration member is
    true.  A value of another type is taken as true; none is tested by the
    code modelled here. *)
Definition truthy (v : value) : bool :=
  match v with
  | Str EmptyString => false
  | Str _ => true
  | Bool b => b
  | Group _ => true
  | Other => true
  end.

(** [v == s] for a [str] [s]: a [bool] or an enumeration member is not
    equal to a [str].  A value of another type is taken as different; none
    is compared by the code modelled here. *)
Definition eq_str (v : value) (s : string) : bool :=
  match v with
  | Str x => String.eqb x s
  | _ => false
  end.

End PortConfiguration.

(** [Dict[str, PortConfiguration]], in insertion order. *)
Definition PortConfType : Type := list (string * PortConfiguration.t).

Fixpoint lookup (key : string) (d : PortConfType) : option PortConfiguration.t :=
  match d with
  | [] => None
  | (k, p) :: rest => if String.eqb k key then Some p else lookup key rest
  end.

(** Truth value of a [str]: only the empty string is false. *)
Definition nonempty (s : string) : bool :=
  match s with EmptyString => false | _ => true end.

Module PluginModel2544.

Section RoleAssignment.

(** [port.name = value] is carried out by [BaseModel.__setattr__] of
    pydantic, which is not among the sources: the assignment is a parameter
    of the validator.  It gives the outcome of the assignment and the object
    after it. *)
Variable setattr :
  PortConfiguration.t -> string -> PortConfiguration.value
  -> result unit * PortConfiguration.t.

(** The body of the loop of [set_ports_rx_tx_type] for one entry of the
    dictionary: the outcome, and the port as the iteration leaves it. *)
Definition assign_rx_tx (direction : TrafficDirection) (config_index : string)
  (port : PortConfiguration.t) : result unit * PortConfiguration.t :=
  match PortConfiguration.getattr port "port_config_slot" with
  | Raise e => (Raise e, port)
  | Return slot =>
      let '(named, port) :=
        if negb (PortConfiguration.truthy slot)
        then setattr port "port_config_slot" (PortConfiguration.Str config_index)
        else (Return tt, port) in
      match named with
      | Raise e => (Raise e, port)
      | Return _ =>
          match PortConfiguration.getattr port "port_config_slot" with
          | Raise e => (Raise e, port)
          | Return slot =>
              if PortConfiguration.eq_str slot (PortConfiguration.peer_config_slot port)
              then (Return tt, port)
              else if direction_eqb direction EAST_TO_WEST then
                if is_east (PortConfiguration.port_group port) then
                  setattr port "is_rx_port" (PortConfiguration.Bool false)
                else if is_west (PortConfiguration.port_group port) then
                  setattr port "is_tx_port" (PortConfiguration.Bool false)
                else (Return tt, port)
              else if direction_eqb direction WEST_TO_EAST then
                if is_east (PortConfiguration.port_group port) then
                  setattr port "is_tx_port" (PortConfiguration.Bool false)
                else if is_west (PortConfiguration.port_group port) then
                  setattr port "is_rx_port" (PortConfiguration.Bool false)
                else (Return tt, port)
              else (Return tt, port)
          end
      end
  end.

(** The [for config_index, port in port_configs.items()] loop, on the
    entries still to be visited: an exception leaves the later entries
    unvisited. *)
Fixpoint rx_tx_loop (direction : TrafficDirection) (todo : PortConfType)
  : result unit * PortConfType :=
  match todo with
  | [] => (Return tt, [])
  | (config_index, port) :: rest =>
      let '(r, port') := assign_rx_tx direction config_index port in
      match r with
      | Raise e => (Raise e, (config_index, port') :: rest)
      | Return _ =>
          let '(r', rest') := rx_tx_loop direction rest in
          (r', (config_index, port') :: rest')
      end
  end.

(** [values] holds the test configuration when its own validation went
    through.  The result is what the validator returns or raises, next to
    the dictionary as the call leaves it. *)
Definition set_ports_rx_tx_type (port_configs : PortConfType)
  (values : option TestConfiguration) : result PortConfType * PortConfType :=
  match values with
  | Some test_configuration =>
      let '(r, port_configs') :=
        rx_tx_loop (direction test_configuration) port_configs in
      (_ <- r ;; Return port_configs', port_configs')
  | None => (Return port_configs, port_configs)
  end.

End RoleAssignment.

Definition count_port_group (port_config : PortConfiguration.t)
  (uses_port_peer : bool) (ports_in_east ports_in_west : Z) : result (Z * Z) :=
  slot <- PortConfiguration.getattr port_config "port_config_slot" ;;
  let is_looped :=
    PortConfiguration.eq_str slot (PortConfiguration.peer_config_slot port_config) in
  if is_east (PortConfiguration.port_group port_config) then
    let ports_in_east := ports_in_east + 1 in
    if uses_port_peer && is_looped then Return (ports_in_east, ports_in_west + 1)
    else Return (ports_in_east, ports_in_west)
  else if is_west (PortConfiguration.port_group port_config) then
    let ports_in_west := ports_in_west + 1 in
    if uses_port_peer && is_looped then Return (ports_in_east + 1, ports_in_west)
    else Return (ports_in_east, ports_in_west)
  else Return (ports_in_east, ports_in_west).

(** The second operand of [or], and in it the right-hand side of [!=], are
    evaluated only when the peer slot is a key of the dictionary. *)
Definition check_port_peer (port_config : PortConfiguration.t)
  (ports_configuration : PortConfType) : result unit :=
  let peer_config_slot := PortConfiguration.peer_config_slot port_config in
  if negb (nonempty peer_config_slot) then Raise PortPeerNeeded
  else
    match lookup peer_config_slot ports_configuration with
    | None => Raise PortPeerInconsistent
    | Some peer =>
        slot <- PortConfiguration.getattr port_config "port_config_slot" ;;
        if negb (PortConfiguration.eq_str slot (PortConfiguration.peer_config_slot peer))
        then Raise PortPeerInconsistent
        else Return tt
    end.

(** The [for _, port_config in v.items()] loop of
    [check_port_groups_and_peers], on the entries still to be visited. *)
Fixpoint groups_and_peers_loop (topology : TestTopology)
  (v todo : PortConfType) (ports_in_east ports_in_west : Z) : result (Z * Z) :=
  match todo with
  | [] => Return (ports_in_east, ports_in_west)
  | (_, port_config) :: rest =>
      let uses_port_peer := is_pair_topology topology in
      counts <- (if negb (is_mesh_topology topology) then
                   count_port_group port_config uses_port_peer
                                    ports_in_east ports_in_west
                 else Return (ports_in_east, ports_in_west)) ;;
      let '(ports_in_east, ports_in_west) := counts in
      _ <- (if uses_port_peer then check_port_peer port_config v
            else Return tt) ;;
      groups_and_peers_loop topology v rest ports_in_east ports_in_west
  end.

Definition check_port_groups_and_peers (v : PortConfType)
  (values : option TestConfiguration) : result PortConfType :=
  match values with
  | Some test_configuration =>
      let topology := topology test_configuration in
      counts <- groups_and_peers_loop topology v v 0 0 ;;
      let '(ports_in_east, ports_in_west) := counts in
      if negb (is_mesh_topology topology) then
        if ports_in_east =? 0 then Raise (PortGroupError "East")
        else if ports_in_west =? 0 then Raise (PortGroupError "West")
        else Return v
      else Return v
  | None => Return v
  end.

End PluginModel2544.

(** ** The 16-bit Internet checksum, as the specification words it *)

(** The big-endian 16-bit words of a buffer; a trailing single byte is the
    high byte of a last word. *)
Fixpoint words_be (data : list Z) : list Z :=
  match data with
  | [] => []
  | [d0] => [256 * d0]
  | d0 :: d1 :: rest => (256 * d0 + d1) :: words_be rest
  end.

Definition sum_words (data : list Z) : Z := fold_right Z.add 0 (words_be data).

(** Fold the carry beyond 16 bits back into the low 16 bits, until there is
    none. *)
Fixpoint fold_carry (fuel : nat) (x : Z) : Z :=
  match fuel with
  | O => x
  | S k =>
      if x >? 0xFFFF then fold_carry k (Z.land x 0xFFFF + Z.shiftr x 16)
      else x
  end.

Definition ones_complement_sum (data : list Z) : Z :=
  fold_carry (Z.to_nat (sum_words data)) (sum_words data).

Definition internet_checksum (data : list Z) : Z :=
  Z.land (Z.lnot (ones_complement_sum data)) 0xFFFF.

(** The representative in [0, 0xFFFF] of a non-negative sum modulo 0xFFFF
    that is 0 for the sum 0 only. *)
Definition canon (x : Z) : Z :=
  if x =? 0 then 0 else (x - 1) mod 65535 + 1.

Definition is_byte (b : Z) : Prop := 0 <= b < 256.

(** ** Registration, in closed form *)

(** The running minimum and maximum of [register_peer], seeded by the first
    index that meets the value -1. *)
Definition seeded_min (current i : Z) : Z :=
  if current =? -1 then i else Z.min current i.

Definition seeded_max (current i : Z) : Z :=
  if current =? -1 then i else Z.max current i.

(** Two states with the same numbers, whatever their peer lists. *)
Definition same_numbers (p1 p2 : Properties.t) : Prop :=
  Properties.aggregates_of p1 = Properties.aggregates_of p2 /\
  Properties.test_port_index p1 = Properties.test_port_index p2.

(** What registration from a fresh state maintains. *)
Definition counts_consistent (p : Properties.t) : Prop :=
  0 <= Properties.low_dest_port_count p /\
  0 <= Properties.high_dest_port_count p /\
  Properties.dest_port_count p
    = Properties.low_dest_port_count p + Properties.high_dest_port_count p /\
  Properties.num_modifiersL2 p
    = if (Properties.low_dest_port_count p >? 0)
         && (Properties.high_dest_port_count p >? 0) then 2 else 1.

(** ** Sample data *)

Definition rnd0 : Random := mkRandom (fun _ => 0) 0.

(** A field with a literal value and no generator. *)
Definition literal_field (name : string) (position : Z) (bits : string)
  : SegmentField.t :=
  SegmentField.mk name (Py.lit bits) (Py.len (Py.lit bits)) position None None.

(** An IPv4 header (20 bytes), its checksum field blank, at byte offset 10,
    with the two address fields the constructor of an IPv4 segment looks
    up. *)
Definition ipv4_fields : list SegmentField.t :=
  [ literal_field "Version to Protocol" 0
      "01000101000000000000000001110011000000000000000001000000000000000100000000010001";
    literal_field "Header Checksum" 80 "0000000000000000";
    literal_field "Src IP Addr" 96 "11000000101010000000000000000001";
    literal_field "Dest IP Addr" 128 "11000000101010000000000011000111" ].

Definition ipv4_header : Segment.t :=
  Segment.mk IP ipv4_fields (Some 10) (Some false) (Some false).

Definition ipv4_bits : Py.str :=
  List.concat (map SegmentField.value ipv4_fields).

Definition ipv4_raw : list Z :=
  [69; 0; 0; 115; 0; 0; 64; 0; 64; 17; 0; 0; 192; 168; 0; 1; 192; 168; 0; 199].

(** A four-byte segment whose checksum offset is 0. *)
Definition offset_zero_segment : Segment.t :=
  Segment.mk (RAW 4)
    [ literal_field "Checksum" 0 "0000000100000000";
      literal_field "Payload" 16 "0000000000000000" ]
    (Some 0) (Some false) (Some false).

(** The generator of the specification's example, as validation builds it
    from [action = 'increment']. *)
Definition increment_0_1_2 : ValueRange.t :=
  ValueRange.mk 0 1 2 (OfEnumActions INCR) false 0.

(** A random source whose first raw draws are 2, 0, 2 and 1. *)
Definition rnd_2_0_2_1 : Random := mkRandom (fun n => nth n [2; 0; 2; 1] 0) 0.

(** A 4-bit field holding 0000 at position 0, driven by that generator. *)
Definition counter_field : SegmentField.t :=
  SegmentField.mk "f" (Py.lit "0000") 4 0 None (Some increment_0_1_2).

(** Peers of index 5, 1 and 9, and one of index -1. *)
Definition peer_5 : Properties.PortStruct := Properties.mkPort 1 5.
Definition peer_1 : Properties.PortStruct := Properties.mkPort 2 1.
Definition peer_9 : Properties.PortStruct := Properties.mkPort 3 9.
Definition peer_minus_1 : Properties.PortStruct := Properties.mkPort 4 (-1).

(** The port of index 3 after [peer_5] has been registered once. *)
Definition port_3_with_peer_5 : Properties.t :=
  Properties.register_peer (Properties.fresh 3) peer_5.

(** The buffer with the two bytes at [k] zeroed, and with the 16-bit value
    [c] stored there, high byte first. *)
Definition zeroed_at (k : Z) (data : list Z) : list Z :=
  Py.list_set (Z.to_nat (k + 1)) 0 (Py.list_set (Z.to_nat k) 0 data).

Definition stored_at (k c : Z) (data : list Z) : list Z :=
  Py.list_set (Z.to_nat (k + 1)) (c mod 256)
    (Py.list_set (Z.to_nat k) (c / 256) data).

Definition mesh_east_to_west : TestConfiguration :=
  mkTestConfiguration MESH EAST_TO_WEST.

Definition pairs_east_to_west : TestConfiguration :=
  mkTestConfiguration PAIRS EAST_TO_WEST.

Definition blocks_west_to_east : TestConfiguration :=
  mkTestConfiguration BLOCKS WEST_TO_EAST.

(** Two ports that name each other, one in each group, as validation of
    the port dictionary builds them: the private attributes at their
    defaults. *)
Definition port_A : PortConfiguration.t :=
  PortConfiguration.mk "P-0-0-0" "B" EAST "profile-1" EmptyString true true.
Definition port_B : PortConfiguration.t :=
  PortConfiguration.mk "P-0-0-1" "A" WEST "profile-1" EmptyString true true.
Definition paired_ports : PortConfType := [("A"%string, port_A); ("B"%string, port_B)].

(** The same, with B naming a third port C. *)
Definition port_B_to_C : PortConfiguration.t :=
  PortConfiguration.mk "P-0-0-1" "C" WEST "profile-1" EmptyString true true.
Definition mispaired_ports : PortConfType :=
  [("A"%string, port_A); ("B"%string, port_B_to_C)].

(** ** BinaryString and the conversions of m_protocol_segment.py *)

Definition newline : ascii := "010"%char.

(** The string without the newline that may end it. *)
Definition strip_final_newline (s : Py.str) : Py.str :=
  match rev s with
  | c :: r => if Ascii.eqb c newline then rev r else s
  | [] => s
  end.

(** [re.search("^[...]+$", s)] for a class of characters that does not hold
    the newline: one or more characters of the class, up to the end of the
    string or to a newline that ends it. *)
Definition search_class_plus (cls : ascii -> bool) (s : Py.str) : bool :=
  match strip_final_newline s with
  | [] => false
  | body => forallb cls body
  end.

Definition is_zero_char (c : ascii) : bool := Ascii.eqb c "0".

(** [BinaryString(content)]. *)
Definition BinaryString (content : Py.str) : result Py.str :=
  if negb (search_class_plus Py.is_bit content) then Raise ValueError
  else Return content.

Definition is_all_zero (s : Py.str) : bool := search_class_plus is_zero_char s.

(** [f'{n:0>42b}']: the binary digits of [n], after a minus sign for a
    negative number, right-aligned in 42 columns filled with ['0']. *)
Definition format_0_42b (n : Z) : Py.str :=
  let body :=
    match n with
    | Z0 => ["0"%char]
    | Zpos p => Py.pos_digits p []
    | Zneg p => "-"%char :: Py.pos_digits p []
    end in
  repeat "0"%char (Z.to_nat (42 - Py.len body)) ++ body.

Definition hex_to_bitstring (hex_vlaue : Z) : result Py.str :=
  BinaryString (format_0_42b hex_vlaue).

Module PortProtocolVersion.

Inductive t : Type := ETHERNET | IPV4 | IPV6.

Definition is_ipv4 (self : t) : bool :=
  match self with IPV4 => true | _ => false end.

Definition is_ipv6 (self : t) : bool :=
  match self with IPV6 => true | _ => false end.

Definition is_l3 (self : t) : bool :=
  match self with ETHERNET => false | _ => true end.

End PortProtocolVersion.

(** [==] on the members of SegmentType. *)
Definition SegmentType_eq_dec (a b : SegmentType) : {a = b} + {a <> b}.
Proof. decide equality. apply Pos.eq_dec. Defined.

Definition SegmentType_eqb (a b : SegmentType) : bool :=
  if SegmentType_eq_dec a b then true else false.

Definition is_ethernet (self : SegmentType) : bool := SegmentType_eqb self ETHERNET.
Definition is_ipv4 (self : SegmentType) : bool := SegmentType_eqb self IP.
Definition is_ipv6 (self : SegmentType) : bool := SegmentType_eqb self IPV6.

(** ** Segment: lookup, assignment, construction *)

(** The first field of that name, as the loop of [__getitem__] finds it. *)
Fixpoint find_field (fields : list SegmentField.t) (field_name : string)
  : option SegmentField.t :=
  match fields with
  | [] => None
  | field :: rest =>
      if String.eqb (SegmentField.name field) field_name then Some field
      else find_field rest field_name
  end.

Definition Segment_getitem (self : Segment.t) (field_name : string)
  : result SegmentField.t :=
  match find_field (Segment.fields self) field_name with
  | Some field => Return field
  | None => Raise KeyError
  end.

(** The list of fields after the field object that [__getitem__] returns has
    been mutated into [field']. *)
Fixpoint replace_field (fields : list SegmentField.t) (field_name : string)
  (field' : SegmentField.t) : list SegmentField.t :=
  match fields with
  | [] => []
  | field :: rest =>
      if String.eqb (SegmentField.name field) field_name then field' :: rest
      else field :: replace_field rest field_name field'
  end.

(** [self[field_name].set_field_value(new_value)]. *)
Definition Segment_setitem (self : Segment.t) (field_name : string)
  (new_value : Py.str) : result unit * Segment.t :=
  match Segment_getitem self field_name with
  | Raise e => (Raise e, self)
  | Return field =>
      let '(r, field') := SegmentField.set_field_value field new_value in
      (r, Segment.set_fields self
            (replace_field (Segment.fields self) field_name field'))
  end.

(** [len(segment)]: the segment length in bits. *)
Definition Segment_len (self : Segment.t) : Z :=
  fold_left (fun acc f => acc + SegmentField.bit_length f) (Segment.fields self) 0.

Definition Segment_modifier_count (self : Segment.t) : Z :=
  fold_left (fun acc f =>
               match SegmentField.hw_modifier f with
               | Some _ => acc + 1
               | None => acc
               end)
            (Segment.fields self) 0.

Definition set_zero_flags (s : Segment.t) (src dst : option bool) : Segment.t :=
  Segment.mk (Segment.segment_type s) (Segment.fields s)
             (Segment.checksum_offset s) src dst.

(** The two flags for the address fields named [src_name] and [dst_name]:
    the source flag is stored before the destination field is looked up. *)
Definition save_flags (self : Segment.t) (src_name dst_name : string)
  : result unit * Segment.t :=
  match Segment_getitem self src_name with
  | Raise e => (Raise e, self)
  | Return src =>
      let self1 :=
        set_zero_flags self (Some (is_all_zero (SegmentField.value src)))
                       (Segment.is_field_dst_value_all_zero self) in
      match Segment_getitem self1 dst_name with
      | Raise e => (Raise e, self1)
      | Return dst =>
          (Return tt,
           set_zero_flags self1 (Segment.is_field_src_value_all_zero self1)
                          (Some (is_all_zero (SegmentField.value dst))))
      end
  end.

Definition saving_is_original_value_zero (self : Segment.t)
  : result unit * Segment.t :=
  if is_ethernet (Segment.segment_type self) then
    save_flags self "Src MAC addr" "Dst MAC addr"
  else if is_ipv4 (Segment.segment_type self) then
    save_flags self "Src IP Addr" "Dest IP Addr"
  else if is_ipv6 (Segment.segment_type self) then
    save_flags self "Src IPv6 Addr" "Dest IPv6 Addr"
  else (Return tt, self).

(** The constructor, on the attributes already validated: the object exists
    only when [saving_is_original_value_zero] returns. *)
Definition Segment_init (data : Segment.t) : result Segment.t :=
  let '(r, self) := saving_is_original_value_zero data in
  _ <- r ;; Return self.

(** Truth value of an [Optional[bool]] and of an [Optional[str]]. *)
Definition flag_set (o : option bool) : bool :=
  match o with Some true => true | _ => false end.

Definition str_truthy (o : option Py.str) : bool :=
  match o with Some (_ :: _) => true | _ => false end.

(** [segment[field_name].value = new_value]: the attribute is assigned
    without the length test of [set_field_value]. *)
Definition assign_field_value (segment : Segment.t) (field_name : string)
  (new_value : Py.str) : result unit * Segment.t :=
  match Segment_getitem segment field_name with
  | Raise e => (Raise e, segment)
  | Return field =>
      (Return tt,
       Segment.set_fields segment
         (replace_field (Segment.fields segment) field_name
            (SegmentField.set_value field new_value)))
  end.

Definition setup_segment_ethernet (segment : Segment.t)
  (src_mac dst_mac : Py.str) (arp_mac : option Py.str)
  : result unit * Segment.t :=
  let dst_mac :=
    match arp_mac with
    | Some arp =>
        if negb (str_truthy arp_mac) || is_all_zero arp then dst_mac else arp
    | None => dst_mac
    end in
  let '(r, segment1) :=
    if negb (is_all_zero dst_mac)
       && flag_set (Segment.is_field_dst_value_all_zero segment)
    then assign_field_value segment "Dst MAC addr" dst_mac
    else (Return tt, segment) in
  match r with
  | Raise e => (Raise e, segment1)
  | Return _ =>
      if negb (is_all_zero src_mac)
         && flag_set (Segment.is_field_src_value_all_zero segment1)
      then assign_field_value segment1 "Src MAC addr" src_mac
      else (Return tt, segment1)
  end.

(** The body shared by [setup_segment_ipv4] and [setup_segment_ipv6], which
    differ in the two field names they assign through [__setitem__]. *)
Definition setup_segment_ip (src_name dst_name : string) (segment : Segment.t)
  (src dst : Py.str) : result unit * Segment.t :=
  let '(r, segment1) :=
    if flag_set (Segment.is_field_src_value_all_zero segment)
    then Segment_setitem segment src_name src
    else (Return tt, segment) in
  match r with
  | Raise e => (Raise e, segment1)
  | Return _ =>
      if flag_set (Segment.is_field_dst_value_all_zero segment1)
      then Segment_setitem segment1 dst_name dst
      else (Return tt, segment1)
  end.

Definition setup_segment_ipv4 (segment : Segment.t) (src_ipv4 dst_ipv4 : Py.str)
  : result unit * Segment.t :=
  setup_segment_ip "Src IP addr" "Dst IP addr" segment src_ipv4 dst_ipv4.

Definition setup_segment_ipv6 (segment : Segment.t) (src_ipv6 dst_ipv6 : Py.str)
  : result unit * Segment.t :=
  setup_segment_ip "Src IPv6 addr" "Dst IPv6 addr" segment src_ipv6 dst_ipv6.

(** ** ProtocolSegmentProfileConfig *)

Module ProtocolSegmentProfileConfig.

Record t : Type := mk {
  header_segments : list Segment.t
}.

Definition getitem (self : t) (segment_type : SegmentType) : list Segment.t :=
  filter (fun segment => SegmentType_eqb (Segment.segment_type segment) segment_type)
         (header_segments self).

Definition get_segment (self : t) (segment_type : SegmentType) (index : Z)
  : result Segment.t :=
  Py.getitem (getitem self segment_type) index.

(** The loop of [prepare]: [result += s.prepare()] for each segment in turn;
    an exception leaves the later segments untouched. *)
Fixpoint prepare_segments (segments : list Segment.t) (rnd : Random)
  : result (list Z) * list Segment.t * Random :=
  match segments with
  | [] => (Return [], [], rnd)
  | s :: rest =>
      let '(r, s', rnd1) := Segment.prepare s rnd in
      match r with
      | Raise e => (Raise e, s' :: rest, rnd1)
      | Return bytes =>
          let '(r2, rest', rnd2) := prepare_segments rest rnd1 in
          (bytes2 <- r2 ;; Return (bytes ++ bytes2), s' :: rest', rnd2)
      end
  end.

Definition prepare (self : t) (rnd : Random) : result (list Z) * t * Random :=
  let '(r, segments', rnd') := prepare_segments (header_segments self) rnd in
  (r, mk segments', rnd').

(** The loop of [protocol_version], which stops at the first IPv6 or IPv4
    segment. *)
Fixpoint version_of (segments : list Segment.t) : PortProtocolVersion.t :=
  match segments with
  | [] => PortProtocolVersion.ETHERNET
  | i :: rest =>
      if SegmentType_eqb (Segment.segment_type i) IPV6
      then PortProtocolVersion.IPV6
      else if SegmentType_eqb (Segment.segment_type i) IP
      then PortProtocolVersion.IPV4
      else version_of rest
  end.

Definition protocol_version (self : t) : PortProtocolVersion.t :=
  version_of (header_segments self).

(** [len(profile)]: the header length in bits. *)
Definition len (self : t) : Z :=
  fold_left (fun acc hs => acc + Segment_len hs) (header_segments self) 0.

Definition packet_header_length (self : t) : Z := len self / 8.

Definition modifier_count (self : t) : Z :=
  fold_left (fun acc hs => acc + Segment_modifier_count hs) (header_segments self) 0.

End ProtocolSegmentProfileConfig.

(** The number a buffer spells, most significant byte first. *)
Definition be_value (bytes : list Z) : Z :=
  fold_left (fun acc b => 256 * acc + b) bytes 0.

(** Ethernet segments as the constructor is given them: one with literal
    addresses, one with blank ones. *)
Definition mac_a : Py.str := Py.lit "100101101100101111011110010110001001101000000111".
Definition mac_b : Py.str := Py.lit "110100101111000111000110101011010111101000100101".
Definition mac_zero : Py.str := Py.lit "000000000000000000000000000000000000000000000000".

Definition dst_field (bits : Py.str) : SegmentField.t :=
  SegmentField.mk "Dst MAC addr" bits 48 0 None None.
Definition src_field (bits : Py.str) : SegmentField.t :=
  SegmentField.mk "Src MAC addr" bits 48 48 None None.
Definition ether_type_field : SegmentField.t :=
  SegmentField.mk "EtherType" (Py.lit "1111111111111111") 16 96 None None.

Definition ethernet_data (dst src : Py.str) : Segment.t :=
  Segment.mk ETHERNET [dst_field dst; src_field src; ether_type_field]
             None (Some false) (Some false).

(** An IPv4 segment with the address fields the constructor asks for, the
    source one blank. *)
Definition ip_addr_field (name : string) (bits : string) : SegmentField.t :=
  SegmentField.mk name (Py.lit bits) 32 0 None None.

Definition ipv4_blank_src_data : Segment.t :=
  Segment.mk IP
    [ip_addr_field "Src IP Addr" "00000000000000000000000000000000";
     ip_addr_field "Dest IP Addr" "11000000101010000000000011000111"]
    None (Some false) (Some false).

(** A field without generator that holds binary digits, as many as its
    [bit_length] says; a segment of such fields. *)
Definition plain_field (f : SegmentField.t) : Prop :=
  SegmentField.value_range f = None /\
  forallb Py.is_bit (SegmentField.value f) = true /\
  Py.len (SegmentField.value f) = SegmentField.bit_length f.

Definition plain_segment (s : Segment.t) : Prop :=
  Forall plain_field (Segment.fields s).

(** ** Counting and ranges *)

(** The number of elements of a list that pass a test. *)
Definition how_many {A : Type} (f : A -> bool) (l : list A) : Z :=
  Z.of_nat (List.length (filter f l)).

(** An inclusive range holds a value. *)
Definition within (r : Z * Z) (x : Z) : Prop := fst r <= x <= snd r.

(** ** The aggregates of registration, as the specification words them *)

(** The indices of the registered peers other than the port's own. *)
Definition indices_other_than (i : Z) (l : list Properties.PortStruct) : list Z :=
  filter (fun x => negb (x =? i)) (map Properties.peer_index l).

(** Minimum and maximum of a list of indices, -1 standing for an empty
    list. *)
Definition lowest_of (xs : list Z) : Z :=
  match xs with
  | [] => -1
  | x :: rest => fold_left Z.min rest x
  end.

Definition highest_of (xs : list Z) : Z :=
  match xs with
  | [] => -1
  | x :: rest => fold_left Z.max rest x
  end.

(** Counting, minimum and maximum over the peers of another index: the
    number of them, of those below and of those above the port, the lowest
    and the highest of their indices, and two modifiers exactly when there
    are peers on both sides. *)
Definition expected_aggregates (i : Z) (l : list Properties.PortStruct)
  : Properties.aggregates :=
  let others := indices_other_than i l in
  let low := how_many (fun x => x <? i) others in
  let high := how_many (fun x => x >? i) others in
  Properties.mkAgg (Py.len others) low high (lowest_of others) (highest_of others)
    (if (low >? 0) && (high >? 0) then 2 else 1).

(** ** SegmentType: values, is_raw, raw_length *)

(** The value of each member; the 64 raw members are generated as
    [f"raw_{i}"]. *)
Definition SegmentType_value (self : SegmentType) : string :=
  match self with
  | ETHERNET => "ethernet" | VLAN => "vlan" | ARP => "arp" | IP => "ipv4"
  | IPV6 => "ipv6" | UDP => "udp" | TCP => "tcp" | LLC => "llc"
  | SNAP => "snap" | GTP => "gtp" | ICMP => "icmp" | RTP => "rtp"
  | RTCP => "rtcp" | STP => "stp" | SCTP => "sctp" | MACCTRL => "macctrl"
  | MPLS => "mpls" | PBBTAG => "pbbtag" | FCOE => "fcoe" | FC => "fc"
  | FCOETAIL => "fcoetail" | IGMPV3L0 => "igmpv3l0" | IGMPV3L1 => "igmpv3l1"
  | UDPCHECK => "udpcheck" | IGMPV2 => "igmpv2" | GRE_NOCHECK => "gre_nocheck"
  | GRE_CHECK => "gre_check" | TCPCHECK => "tcp_check" | IGMPV1 => "igmpv1"
  | VXLAN => "vxlan" | NVGRE => "nvgre"
  | RAW i => "raw_" ++ NilEmpty.string_of_uint (Pos.to_uint i)
  end%string.

(** [str.lower()] on ASCII text. *)
Definition lower_char (c : ascii) : ascii :=
  let n := nat_of_ascii c in
  if (65 <=? n)%nat && (n <=? 90)%nat then ascii_of_nat (n + 32) else c.

Fixpoint lower (s : string) : string :=
  match s with
  | EmptyString => EmptyString
  | String c r => String (lower_char c) (lower r)
  end.

(** [s.split(sep)[-1]]: what follows the last separator, [acc] being what
    has been read since the last one. *)
Fixpoint last_component (sep : ascii) (s acc : string) : string :=
  match s with
  | EmptyString => acc
  | String c r =>
      if Ascii.eqb c sep then last_component sep r EmptyString
      else last_component sep r (acc ++ String c EmptyString)
  end.

(** [int(s)] on a string of decimal digits; the empty string and any other
    character raise ValueError (the blanks, sign and underscores CPython
    also accepts do not occur in the values above). *)
Definition int10 (s : string) : result Z :=
  match NilEmpty.uint_of_string s with
  | Some Decimal.Nil => Raise ValueError
  | Some d => Return (Z.of_N (Pos.of_uint d))
  | None => Raise ValueError
  end.

Definition is_raw (self : SegmentType) : bool :=
  String.prefix "raw" (lower (SegmentType_value self)).

Definition raw_length (self : SegmentType) : result Z :=
  if negb (is_raw self) then Return 0
  else int10 (last_component "_" (SegmentType_value self) EmptyString).

(** * Verified statements *)

(** ** Python built-ins *)

Lemma len_nonneg {A : Type} (l : list A) : 0 <= Py.len l.
Proof. unfold Py.len. lia. Qed.

Lemma len_app {A : Type} (l1 l2 : list A) :
  Py.len (l1 ++ l2) = Py.len l1 + Py.len l2.
Proof. unfold Py.len. rewrite length_app. lia. Qed.

Lemma getitem_past_end {A : Type} (s : list A) (i : Z) :
  Py.len s <= i -> Py.getitem s i = Raise IndexError.
Proof.
  intros Hi. unfold Py.getitem.
  pose proof (len_nonneg s) as Hs.
  destruct (i <? 0) eqn:Hneg; [apply Z.ltb_lt in Hneg; lia|].
  replace (i <? Py.len s) with false by (symmetry; apply Z.ltb_ge; lia).
  now rewrite andb_false_r.
Qed.

Lemma randint_in_range (rnd : Random) (a b : Z) :
  a <= b -> a <= fst (randint rnd a b) <= b.
Proof.
  intros Hab. unfold randint. cbn [fst].
  pose proof (Z.mod_pos_bound (entropy rnd (drawn rnd)) (b - a + 1)).
  lia.
Qed.

(** *** int(s, 2) *)

Lemma is_bit_cases (c : ascii) :
  Py.is_bit c = true -> c = "0"%char \/ c = "1"%char.
Proof.
  unfold Py.is_bit. intros H. apply orb_true_iff in H.
  destruct H as [H|H]; apply Ascii.eqb_eq in H; auto.
Qed.

Lemma lstrip_bits (s : Py.str) : forallb Py.is_bit s = true -> Py.lstrip s = s.
Proof.
  destruct s as [|c r]; [reflexivity|].
  cbn [forallb Py.lstrip]. intros H. apply andb_true_iff in H.
  destruct H as [Hc _].
  destruct (is_bit_cases c Hc) as [-> | ->]; reflexivity.
Qed.

Lemma strip_bits (s : Py.str) : forallb Py.is_bit s = true -> Py.strip s = s.
Proof.
  intros H. unfold Py.strip. rewrite (lstrip_bits s H).
  rewrite lstrip_bits; [apply rev_involutive|].
  apply forallb_forall. intros c Hin. apply in_rev in Hin.
  now apply (proj1 (forallb_forall _ _) H).
Qed.

Lemma scan_digits_bits (s : Py.str) (acc : Z) :
  forallb Py.is_bit s = true ->
  Py.scan_digits s acc
  = Some (fold_left (fun acc c => 2 * acc + (if Ascii.eqb c "1" then 1 else 0)) s acc).
Proof.
  revert acc. induction s as [|c r IH]; intros acc H; [reflexivity|].
  cbn [forallb] in H. apply andb_true_iff in H. destruct H as [Hc Hr].
  cbn [Py.scan_digits fold_left]. rewrite Hc. now apply IH.
Qed.

(** On a string of binary digits [int(s, 2)] is its binary value. *)
Lemma int2_binary (s : Py.str) :
  Py.is_binary s = true -> Py.int2 s = Return (Py.bits_value s).
Proof.
  destruct s as [|c r]; [discriminate|].
  unfold Py.is_binary. intros H. unfold Py.int2.
  rewrite (strip_bits _ H).
  pose proof (scan_digits_bits (c :: r) 0 H) as Hscan.
  cbn [forallb] in H. apply andb_true_iff in H. destruct H as [Hc Hr].
  assert (Hd : Py.digits2 (c :: r) = Some (Py.bits_value (c :: r))).
  { unfold Py.digits2. rewrite Hc. exact Hscan. }
  destruct (is_bit_cases c Hc) as [-> | ->].
  - cbn [Ascii.eqb Bool.eqb].
    destruct r as [|b rest].
    + rewrite Hd. reflexivity.
    + cbn [forallb] in Hr. apply andb_true_iff in Hr. destruct Hr as [Hb _].
      destruct (is_bit_cases b Hb) as [-> | ->]; cbn [Ascii.eqb Bool.eqb andb orb];
        rewrite Hd; reflexivity.
  - cbn [Ascii.eqb Bool.eqb].
    destruct r as [|b rest]; cbn [andb]; rewrite Hd; reflexivity.
Qed.

(** What [int(s, 2)] accepts besides plain digits, and what it refuses. *)
Example int2_examples :
  Py.int2 (Py.lit "0b1") = Return 1 /\
  Py.int2 (Py.lit "-0B11") = Return (-3) /\
  Py.int2 (Py.lit "0b_1") = Return 1 /\
  Py.int2 (Py.lit "1_0") = Return 2 /\
  Py.int2 (Py.lit " -1 ") = Return (-1) /\
  Py.int2 (Py.lit "101" ++ ["010"%char]) = Return 5 /\
  Py.int2 (Py.lit "+ 1") = Raise ValueError /\
  Py.int2 (Py.lit "1__0") = Raise ValueError /\
  Py.int2 (Py.lit "1_") = Raise ValueError /\
  Py.int2 (Py.lit "_1") = Raise ValueError /\
  Py.int2 (Py.lit "0b") = Raise ValueError /\
  Py.int2 (Py.lit "1 1") = Raise ValueError /\
  Py.int2 [] = Raise ValueError.
Proof. repeat split. Qed.

(** ** ValueRange.get_current_value *)

(** A validated generator never enters the increment or the decrement
    branch: whatever its action, the call draws at random between the two
    bounds and adds one to the counter, which is never reset. *)
Lemma get_current_value_validated (vr : ValueRange.t) (rnd : Random) :
  ValueRange.validated vr ->
  ValueRange.get_current_value vr rnd =
    (fst (randint rnd (Z.min (ValueRange.start_value vr) (ValueRange.stop_value vr))
                      (Z.max (ValueRange.start_value vr) (ValueRange.stop_value vr))),
     ValueRange.set_current_count vr (ValueRange.current_count vr + 1),
     mkRandom (entropy rnd) (S (drawn rnd))).
Proof.
  intros [a Ha]. unfold ValueRange.get_current_value. rewrite Ha.
  destruct a; reflexivity.
Qed.

(** The increment branch itself, entered when the attribute holds the member
    of [ModifierActionOption]: the arithmetic progression with wrap-around. *)
Lemma get_current_value_INC (vr : ValueRange.t) (rnd : Random) :
  ValueRange.action vr = OfModifierActionOption INC ->
  let v := ValueRange.start_value vr
           + ValueRange.current_count vr * ValueRange.step_value vr in
  ValueRange.get_current_value vr rnd =
    if v >? ValueRange.stop_value vr
    then (ValueRange.start_value vr, ValueRange.set_current_count vr 1, rnd)
    else (v, ValueRange.set_current_count vr (ValueRange.current_count vr + 1), rnd).
Proof.
  intros Ha v. unfold ValueRange.get_current_value. rewrite Ha. cbn [member_eqb].
  fold v. destruct (v >? ValueRange.stop_value vr); reflexivity.
Qed.

Example INC_period_three (rnd : Random) :
  fst (fst (ValueRange.pull 7
              (ValueRange.mk 0 1 2 (OfModifierActionOption INC) false 0) rnd))
  = [0; 1; 2; 0; 1; 2; 0].
Proof. reflexivity. Qed.

(** C1.  The generator built from [action = 'increment'], start 0, step 1,
    stop 2 does not yield 0, 1, 2, 0: each call returns the draw of the
    random source (here 2, then 0, then 2, then 1) and the counter runs on
    to 4 without a reset. *)
Theorem get_current_value_increment_is_random :
  ValueRange.validated increment_0_1_2 /\
  fst (fst (ValueRange.pull 4 increment_0_1_2 rnd_2_0_2_1)) = [2; 0; 2; 1] /\
  fst (fst (ValueRange.pull 4 increment_0_1_2 rnd_2_0_2_1)) <> [0; 1; 2; 0] /\
  ValueRange.current_count (snd (fst (ValueRange.pull 4 increment_0_1_2 rnd_2_0_2_1)))
  = 4.
Proof.
  split; [eexists; reflexivity|].
  split; [reflexivity|]. split; [discriminate|reflexivity].
Qed.

(** ** SegmentField *)

Lemma prepare_without_value_range (f : SegmentField.t) (rnd : Random) :
  SegmentField.value_range f = None ->
  SegmentField.prepare f rnd = (Return (SegmentField.value f), f, rnd).
Proof.
  intros H. unfold SegmentField.prepare, SegmentField.apply_value_range_if_exists.
  now rewrite H.
Qed.

(** With a generator bound, a field whose value is [bit_length] long and
    whose position is not negative reads one character past its value. *)
Lemma prepare_with_value_range_raises (f : SegmentField.t) (vr : ValueRange.t)
  (rnd : Random) :
  SegmentField.value_range f = Some vr ->
  Py.len (SegmentField.value f) = SegmentField.bit_length f ->
  0 <= SegmentField.bit_segment_position f ->
  fst (fst (SegmentField.prepare f rnd)) = Raise IndexError.
Proof.
  intros Hvr Hlen Hpos.
  unfold SegmentField.prepare, SegmentField.apply_value_range_if_exists.
  rewrite Hvr.
  destruct (ValueRange.get_current_value vr rnd) as [[v vr'] rnd'].
  cbn [fst]. rewrite getitem_past_end by lia. reflexivity.
Qed.

(** C2.  A 4-bit field holding 0000 at position 0 with a generator bound:
    [prepare()] raises IndexError where a 4-bit string is expected; the
    generator has been advanced all the same. *)
Theorem prepare_bound_field_raises (rnd : Random) :
  Py.len (SegmentField.value counter_field) = SegmentField.bit_length counter_field /\
  fst (fst (SegmentField.prepare counter_field rnd)) = Raise IndexError /\
  SegmentField.value_range (snd (fst (SegmentField.prepare counter_field rnd)))
  = Some (ValueRange.set_current_count increment_0_1_2 1).
Proof. repeat split. Qed.

(** C9.  [set_field_value(v)] succeeds exactly when [len(v)] is the field's
    [bit_length]; it then stores [v] and changes nothing else.  Otherwise it
    raises ValueError and the field is as it was.  Nothing but the length of
    [v] is looked at. *)
Theorem set_field_value_spec (f : SegmentField.t) (v : Py.str) :
  (fst (SegmentField.set_field_value f v) = Return tt
   <-> Py.len v = SegmentField.bit_length f) /\
  (fst (SegmentField.set_field_value f v) = Raise ValueError
   <-> Py.len v <> SegmentField.bit_length f) /\
  (Py.len v = SegmentField.bit_length f ->
   snd (SegmentField.set_field_value f v) = SegmentField.set_value f v /\
   SegmentField.value (snd (SegmentField.set_field_value f v)) = v) /\
  (Py.len v <> SegmentField.bit_length f ->
   snd (SegmentField.set_field_value f v) = f).
Proof.
  unfold SegmentField.set_field_value.
  destruct (Z.eqb_spec (Py.len v) (SegmentField.bit_length f)) as [E|E]; cbn;
    repeat split; intros; try reflexivity; try discriminate; congruence.
Qed.

(** ** The checksum *)

Lemma canon_range (x : Z) : 0 <= x -> 0 <= canon x <= 65535.
Proof.
  intros Hx. unfold canon. destruct (Z.eqb_spec x 0); [lia|].
  pose proof (Z.mod_pos_bound (x - 1) 65535). lia.
Qed.

Lemma canon_small (x : Z) : 0 <= x <= 65535 -> canon x = x.
Proof.
  intros Hx. unfold canon. destruct (Z.eqb_spec x 0); [lia|].
  rewrite Z.mod_small; lia.
Qed.

Lemma canon_zero (x : Z) : 0 <= x -> canon x = 0 -> x = 0.
Proof.
  unfold canon. intros Hx. destruct (Z.eqb_spec x 0); [lia|].
  pose proof (Z.mod_pos_bound (x - 1) 65535). lia.
Qed.

Lemma canon_add (a b : Z) : 0 <= a -> 0 <= b -> canon (canon a + b) = canon (a + b).
Proof.
  intros Ha Hb. unfold canon at 2. destruct (Z.eqb_spec a 0) as [->|Ha0].
  - reflexivity.
  - pose proof (Z.mod_pos_bound (a - 1) 65535) as Hm.
    unfold canon.
    destruct (Z.eqb_spec ((a - 1) mod 65535 + 1 + b) 0); [lia|].
    destruct (Z.eqb_spec (a + b) 0); [lia|].
    f_equal.
    replace ((a - 1) mod 65535 + 1 + b - 1) with ((a - 1) mod 65535 + b) by lia.
    rewrite Z.add_mod_idemp_l by lia. f_equal. lia.
Qed.

(** One step of the loop: adding a word and folding the carry once. *)
Lemma carry_step (c : Z) :
  0 <= c <= 131070 ->
  (if c >? 0xFFFF then Z.land (1 + c) 0xFFFF else c) = canon c.
Proof.
  intros Hc. destruct (Z.gtb_spec c 65535) as [Hgt|Hle].
  - change 65535 with (Z.ones 16). rewrite Z.land_ones by lia.
    unfold canon. destruct (Z.eqb_spec c 0); [lia|].
    change (2 ^ 16) with 65536.
    replace (1 + c) with ((c - 65535) + 1 * 65536) by lia.
    rewrite Z.mod_add by lia. rewrite Z.mod_small by lia.
    replace (c - 1) with ((c - 65536) + 1 * 65535) by lia.
    rewrite Z.mod_add by lia. rewrite Z.mod_small by lia. lia.
  - symmetry. apply canon_small. lia.
Qed.

(** Induction on a buffer two bytes at a time. *)
Lemma pairs_ind {A : Type} (P : list A -> Prop) :
  P [] -> (forall a, P [a]) ->
  (forall a b l, P l -> P (a :: b :: l)) ->
  forall l, P l.
Proof.
  intros H0 H1 H2.
  assert (H : forall l, P l /\ forall a, P (a :: l)).
  { induction l as [|b l [IHl IHl']]; split; auto. }
  intros l. apply H.
Qed.

Lemma sum_words_cons2 (a b : Z) (l : list Z) :
  sum_words (a :: b :: l) = 256 * a + b + sum_words l.
Proof. reflexivity. Qed.

Lemma words_be_nonneg (data : list Z) :
  Forall is_byte data -> 0 <= sum_words data.
Proof.
  induction data as [|a|a b l IH] using pairs_ind; intros H.
  - unfold sum_words; cbn; lia.
  - inversion H as [|? ? Ha _]; subst. unfold is_byte in Ha.
    unfold sum_words; cbn [words_be fold_right]. lia.
  - inversion H as [|? ? Ha H']; subst. inversion H' as [|? ? Hb H'']; subst.
    specialize (IH H''). unfold is_byte in *. rewrite sum_words_cons2. lia.
Qed.

Lemma even_len_cons2 {A : Type} (a b : A) (l : list A) :
  Z.even (Py.len (a :: b :: l)) = Z.even (Py.len l).
Proof.
  unfold Py.len. cbn [List.length].
  replace (Z.of_nat (S (S (List.length l)))) with (Z.of_nat (List.length l) + 2) by lia.
  rewrite Z.even_add. cbn. now destruct (Z.even (Z.of_nat (List.length l))).
Qed.

(** The loop of [wrap_add_16] computes the one's-complement sum of the
    words: on a buffer of bytes of even length it finishes, with the
    canonical representative of the accumulated sum. *)
Lemma checksum_loop_canon (data : list Z) :
  Forall is_byte data -> Z.even (Py.len data) = true ->
  forall acc, 0 <= acc <= 65535 ->
  checksum_loop data acc = Return (canon (acc + sum_words data)).
Proof.
  induction data as [|a|a b l IH] using pairs_ind; intros Hb Hev acc Hacc.
  - cbn. rewrite Z.add_0_r. now rewrite canon_small.
  - discriminate Hev.
  - inversion Hb as [|? ? Ha Hb']; subst. inversion Hb' as [|? ? Hbb Hl]; subst.
    rewrite even_len_cons2 in Hev. unfold is_byte in Ha, Hbb.
    cbn [checksum_loop]. rewrite Z.shiftl_mul_pow2 by lia.
    change (2 ^ 8) with 256.
    rewrite carry_step by lia.
    rewrite IH; auto.
    + f_equal. rewrite canon_add.
      * f_equal. rewrite sum_words_cons2. lia.
      * lia.
      * apply words_be_nonneg; assumption.
    + apply canon_range. lia.
Qed.

Lemma fold_carry_canon (fuel : nat) :
  forall x, 0 <= x -> x <= Z.of_nat fuel -> fold_carry fuel x = canon x.
Proof.
  induction fuel as [|k IH]; intros x Hx Hf.
  - cbn. assert (x = 0) by lia. now subst.
  - cbn [fold_carry]. destruct (Z.gtb_spec x 65535) as [Hgt|Hle].
    + change 65535 with (Z.ones 16). rewrite Z.land_ones by lia.
      rewrite Z.shiftr_div_pow2 by lia. change (2 ^ 16) with 65536.
      pose proof (Z.div_mod x 65536 ltac:(lia)) as Hdm.
      pose proof (Z.mod_pos_bound x 65536 ltac:(lia)) as Hm.
      assert (Hq : 1 <= x / 65536) by (apply Z.div_le_lower_bound; lia).
      rewrite IH by lia.
      unfold canon.
      destruct (Z.eqb_spec (x mod 65536 + x / 65536) 0); [lia|].
      destruct (Z.eqb_spec x 0); [lia|].
      f_equal.
      replace (x - 1) with ((x mod 65536 + x / 65536 - 1) + (x / 65536) * 65535) by lia.
      now rewrite Z.mod_add by lia.
    + symmetry. apply canon_small. lia.
Qed.

(** The loop of the source and the sum of the specification agree. *)
Lemma checksum_loop_ones_complement_sum (data : list Z) :
  Forall is_byte data -> Z.even (Py.len data) = true ->
  checksum_loop data 0 = Return (ones_complement_sum data).
Proof.
  intros Hb Hev. rewrite checksum_loop_canon by (auto; lia).
  unfold ones_complement_sum. rewrite fold_carry_canon.
  - reflexivity.
  - now apply words_be_nonneg.
  - pose proof (words_be_nonneg data Hb). lia.
Qed.

Lemma lnot16 (c : Z) : 0 <= c <= 65535 -> Z.land (Z.lnot c) 0xFFFF = 65535 - c.
Proof.
  intros Hc. change 65535 with (Z.ones 16) at 1. rewrite Z.land_ones by lia.
  unfold Z.lnot. change (2 ^ 16) with 65536.
  replace (Z.pred (- c)) with ((65535 - c) + (-1) * 65536) by lia.
  rewrite Z.mod_add by lia. apply Z.mod_small. lia.
Qed.

Lemma internet_checksum_canon (data : list Z) :
  Forall is_byte data ->
  internet_checksum data = 65535 - canon (sum_words data).
Proof.
  intros Hb. unfold internet_checksum, ones_complement_sum.
  pose proof (words_be_nonneg data Hb) as Hs.
  rewrite fold_carry_canon by lia.
  apply lnot16. now apply canon_range.
Qed.

Lemma canon_complement (t : Z) : 0 <= t -> canon (t + (65535 - canon t)) = 65535.
Proof.
  intros Ht. unfold canon at 2. destruct (Z.eqb_spec t 0) as [->|Hne].
  - reflexivity.
  - pose proof (Z.mod_pos_bound (t - 1) 65535 ltac:(lia)) as Hm.
    pose proof (Z.div_mod (t - 1) 65535 ltac:(lia)) as Hdm.
    unfold canon.
    destruct (Z.eqb_spec (t + (65535 - ((t - 1) mod 65535 + 1))) 0); [lia|].
    replace (t + (65535 - ((t - 1) mod 65535 + 1)) - 1)
      with (65534 + ((t - 1) / 65535) * 65535) by lia.
    rewrite Z.mod_add by lia. reflexivity.
Qed.

(** *** Stores into a buffer *)

Lemma list_set_length {A : Type} (i : nat) (v : A) (l : list A) :
  List.length (Py.list_set i v l) = List.length l.
Proof.
  revert i; induction l as [|h t IH]; intros [|i]; cbn; auto.
Qed.

Lemma len_list_set {A : Type} (i : nat) (v : A) (l : list A) :
  Py.len (Py.list_set i v l) = Py.len l.
Proof. unfold Py.len. now rewrite list_set_length. Qed.

Lemma Forall_list_set {A : Type} (P : A -> Prop) (i : nat) (v : A) (l : list A) :
  Forall P l -> P v -> Forall P (Py.list_set i v l).
Proof.
  intros Hl Hv. revert i; induction Hl as [|h t Hh Ht IH]; intros [|i]; cbn;
    constructor; auto.
Qed.

Lemma is_byte_0 : is_byte 0.
Proof. unfold is_byte. lia. Qed.

Create HintDb bytes.
#[local] Hint Resolve Forall_list_set is_byte_0 : bytes.

Lemma list_set_twice {A : Type} (i : nat) (u v : A) (l : list A) :
  Py.list_set i v (Py.list_set i u l) = Py.list_set i v l.
Proof.
  revert i; induction l as [|h t IH]; intros [|i]; cbn; auto.
  now rewrite IH.
Qed.

Lemma list_set_comm {A : Type} (i j : nat) (u v : A) (l : list A) :
  i <> j ->
  Py.list_set i u (Py.list_set j v l) = Py.list_set j v (Py.list_set i u l).
Proof.
  revert i j; induction l as [|h t IH]; intros [|i] [|j] Hij; cbn; auto.
  - congruence.
  - rewrite IH; auto.
Qed.

Lemma setitem_ok (b : list Z) (i v : Z) :
  0 <= i < Py.len b -> is_byte v ->
  Py.setitem b i v = Return (Py.list_set (Z.to_nat i) v b).
Proof.
  intros Hi Hv. unfold Py.setitem, is_byte in *.
  replace (i <? 0) with false by (symmetry; apply Z.ltb_ge; lia).
  replace (0 <=? i) with true by (symmetry; apply Z.leb_le; lia).
  replace (i <? Py.len b) with true by (symmetry; apply Z.ltb_lt; lia).
  replace (0 <=? v) with true by (symmetry; apply Z.leb_le; lia).
  replace (v <? 256) with true by (symmetry; apply Z.ltb_lt; lia).
  reflexivity.
Qed.

(** Storing the word [(a, b)] at an even offset adds [256 * a + b] to the sum
    of the buffer with that word zeroed. *)
Lemma sum_words_set_pair (j : nat) :
  forall (data : list Z) (a b : Z),
  (2 * j + 1 < List.length data)%nat ->
  sum_words (Py.list_set (2 * j + 1) b (Py.list_set (2 * j) a data))
  = sum_words (Py.list_set (2 * j + 1) 0 (Py.list_set (2 * j) 0 data))
    + (256 * a + b).
Proof.
  induction j as [|j IH]; intros data a b Hlen.
  - destruct data as [|x [|y l]]; cbn [List.length] in Hlen; try lia.
    cbn [Nat.mul Nat.add Py.list_set]. rewrite !sum_words_cons2. lia.
  - destruct data as [|x [|y l]]; cbn [List.length] in Hlen; try lia.
    replace (2 * S j + 1)%nat with (S (S (2 * j + 1))) by lia.
    replace (2 * S j)%nat with (S (S (2 * j))) by lia.
    cbn [Py.list_set]. rewrite !sum_words_cons2.
    rewrite (IH l a b) by lia. lia.
Qed.

(** The two bytes the source writes: [0xFF + 1 + ~x] is [255 - x]. *)
Lemma complement_bytes (r : Z) :
  0 <= r <= 65535 ->
  0xFF + 1 + Z.lnot (Z.shiftr r 8) = (65535 - r) / 256 /\
  0xFF + 1 + Z.lnot (Z.land r 0xFF) = (65535 - r) mod 256 /\
  is_byte ((65535 - r) / 256) /\ is_byte ((65535 - r) mod 256).
Proof.
  intros Hr. rewrite Z.shiftr_div_pow2 by lia. change (2 ^ 8) with 256.
  assert (Hland : Z.land r 0xFF = r mod 256).
  { change 255 with (Z.ones 8). now rewrite Z.land_ones by lia. }
  rewrite Hland. unfold Z.lnot, is_byte.
  pose proof (Z.div_mod r 256 ltac:(lia)) as Hdm.
  pose proof (Z.mod_pos_bound r 256 ltac:(lia)) as Hm.
  assert (Hq : 0 <= r / 256 <= 255).
  { split; [apply Z.div_pos; lia|].
    enough (r / 256 < 256) by lia. apply Z.div_lt_upper_bound; lia. }
  assert (Hd : (65535 - r) / 256 = 255 - r / 256).
  { symmetry. apply (Z.div_unique _ _ _ (255 - r mod 256)); lia. }
  assert (Hmo : (65535 - r) mod 256 = 255 - r mod 256).
  { symmetry. apply (Z.mod_unique _ _ (255 - r / 256)); lia. }
  rewrite Hd, Hmo. lia.
Qed.

(** [wrap_add_16] on a buffer of bytes of even length, at an offset whose two
    bytes are inside the buffer: the result is the buffer with the two bytes
    of the Internet checksum of the zeroed buffer stored at the offset, high
    byte first. *)
Lemma wrap_add_16_spec (data : list Z) (k : Z) :
  Forall is_byte data -> Z.even (Py.len data) = true ->
  0 <= k -> k + 1 < Py.len data ->
  let zeroed := Py.list_set (Z.to_nat (k + 1)) 0 (Py.list_set (Z.to_nat k) 0 data) in
  let c := internet_checksum zeroed in
  wrap_add_16 data k
  = Return (Py.list_set (Z.to_nat (k + 1)) (c mod 256)
              (Py.list_set (Z.to_nat k) (c / 256) data)).
Proof.
  intros Hb Hev Hk Hk1 zeroed c.
  assert (Hz : is_byte 0) by apply is_byte_0.
  assert (Hbz : Forall is_byte zeroed) by (unfold zeroed; auto with bytes).
  assert (Hne : Z.to_nat k <> Z.to_nat (k + 1)) by lia.
  unfold wrap_add_16. rewrite Z.add_0_r.
  rewrite setitem_ok by (auto; lia). cbn [bind].
  rewrite setitem_ok by (auto; rewrite len_list_set; lia). cbn [bind].
  fold zeroed.
  rewrite checksum_loop_canon
    by (auto; unfold zeroed; rewrite ?len_list_set; auto; lia).
  cbn [bind]. rewrite Z.add_0_l.
  pose proof (words_be_nonneg zeroed Hbz) as Hs.
  pose proof (canon_range _ Hs) as Hr.
  destruct (complement_bytes _ Hr) as (Hhi & Hlo & Bhi & Blo).
  rewrite Hhi, Hlo.
  assert (Hc : c = 65535 - canon (sum_words zeroed))
    by (unfold c; now apply internet_checksum_canon).
  rewrite <- Hc in *.
  rewrite setitem_ok by (auto; unfold zeroed; rewrite ?len_list_set; lia).
  cbn [bind].
  rewrite setitem_ok by (auto; unfold zeroed; rewrite ?len_list_set; lia).
  cbn [bind]. f_equal. unfold zeroed.
  rewrite (list_set_comm (Z.to_nat k) (Z.to_nat (k + 1))) by assumption.
  now rewrite !list_set_twice.
Qed.

(** The self-verification law: once the checksum of the zeroed buffer is
    stored at an even offset, the checksum of the whole buffer is 0. *)
Lemma checksum_round_trip (data : list Z) (k : Z) :
  Forall is_byte data -> 0 <= k -> k + 1 < Py.len data -> Z.even k = true ->
  let zeroed := Py.list_set (Z.to_nat (k + 1)) 0 (Py.list_set (Z.to_nat k) 0 data) in
  let c := internet_checksum zeroed in
  internet_checksum (Py.list_set (Z.to_nat (k + 1)) (c mod 256)
                       (Py.list_set (Z.to_nat k) (c / 256) data)) = 0.
Proof.
  intros Hb Hk Hk1 Hev zeroed c.
  assert (Hz : is_byte 0) by apply is_byte_0.
  assert (Hbz : Forall is_byte zeroed) by (unfold zeroed; auto with bytes).
  pose proof (words_be_nonneg zeroed Hbz) as Hs.
  pose proof (canon_range _ Hs) as Hr.
  assert (Hc : c = 65535 - canon (sum_words zeroed))
    by (unfold c; now apply internet_checksum_canon).
  assert (Hcr : 0 <= c <= 65535) by lia.
  assert (Bhi : is_byte (c / 256)).
  { unfold is_byte. split; [apply Z.div_pos; lia|].
    apply Z.div_lt_upper_bound; lia. }
  assert (Blo : is_byte (c mod 256)) by (apply Z.mod_pos_bound; lia).
  rewrite internet_checksum_canon by auto with bytes.
  apply Z.even_spec in Hev. destruct Hev as [q Hq].
  assert (Ek : Z.to_nat k = (2 * Z.to_nat q)%nat) by lia.
  assert (Ek1 : Z.to_nat (k + 1) = (2 * Z.to_nat q + 1)%nat) by lia.
  unfold zeroed in *. rewrite Ek, Ek1 in *.
  rewrite sum_words_set_pair by (unfold Py.len in Hk1; lia).
  pose proof (Z.div_mod c 256 ltac:(lia)) as Hdm.
  replace (256 * (c / 256) + c mod 256) with c by lia.
  rewrite Hc at 1. rewrite canon_complement by assumption. reflexivity.
Qed.

(** ** Segment.prepare *)

Lemma be_bytes_are_bytes (n : nat) (x : Z) : Forall is_byte (Py.be_bytes n x).
Proof.
  induction n as [|n IH]; cbn [Py.be_bytes]; constructor; auto.
  apply Z.mod_pos_bound. lia.
Qed.

Lemma bitstring_to_bytes_are_bytes (s : Py.str) (raw : list Z) :
  bitstring_to_bytes s = Return raw -> Forall is_byte raw.
Proof.
  unfold bitstring_to_bytes, Py.to_bytes.
  destruct (Py.int2 s) as [n|e]; cbn [bind]; [|discriminate].
  destruct (_ || _); [discriminate|].
  intros H. injection H as <-. apply be_bytes_are_bytes.
Qed.

(** The sample IPv4 header is a segment the constructor accepts as it is. *)
Example ipv4_header_constructed : Segment_init ipv4_header = Return ipv4_header.
Proof. reflexivity. Qed.

(** A final newline passes BinaryString and is skipped by [int]: the bytes
    are those of the digits, counted with the newline in the length. *)
Example bitstring_to_bytes_final_newline :
  BinaryString (Py.lit "1010101" ++ [newline]) = Return (Py.lit "1010101" ++ [newline]) /\
  bitstring_to_bytes (Py.lit "1010101" ++ [newline]) = Return [85] /\
  bitstring_to_bytes (Py.lit "101010101" ++ [newline]) = Return [1; 85].
Proof. repeat split. Qed.

(** C3.  For a segment whose checksum offset is a positive [k], when the
    fields serialise to a buffer of even length that holds the two bytes at
    [k]: [prepare()] returns the buffer with the 16-bit Internet checksum of
    the buffer zeroed at [k] and [k + 1] stored there, high byte first; the
    loop of the source computes the folded sum of the big-endian words; and
    for an even [k] the checksum of the returned buffer is 0. *)
Theorem prepare_checksum_fixup (s : Segment.t) (rnd : Random) (k : Z)
  (bits : Py.str) (raw : list Z) :
  Segment.checksum_offset s = Some k -> 0 < k ->
  fst (fst (Segment.join_prepare (Segment.fields s) rnd)) = Return bits ->
  bitstring_to_bytes bits = Return raw ->
  Z.even (Py.len raw) = true -> k + 1 < Py.len raw ->
  fst (fst (Segment.prepare s rnd))
  = Return (stored_at k (internet_checksum (zeroed_at k raw)) raw) /\
  checksum_loop (zeroed_at k raw) 0
  = Return (ones_complement_sum (zeroed_at k raw)) /\
  Py.len (stored_at k (internet_checksum (zeroed_at k raw)) raw) = Py.len raw /\
  (Z.even k = true ->
   internet_checksum (stored_at k (internet_checksum (zeroed_at k raw)) raw) = 0).
Proof.
  intros Hk Hpos Hjoin Hraw Hev Hin.
  set (zeroed := zeroed_at k raw).
  set (buf := stored_at k (internet_checksum zeroed) raw).
  unfold zeroed_at in zeroed. unfold stored_at in buf.
  pose proof (bitstring_to_bytes_are_bytes _ _ Hraw) as Hb.
  assert (Hz : is_byte 0) by apply is_byte_0.
  split; [|split; [|split]].
  - unfold Segment.prepare.
    destruct (Segment.join_prepare (Segment.fields s) rnd) as [[joined fs'] rnd'].
    cbn [fst] in Hjoin |- *. subst joined. cbn [bind]. rewrite Hraw. cbn [bind].
    rewrite Hk. unfold Segment.truthy.
    replace (k =? 0) with false by (symmetry; apply Z.eqb_neq; lia).
    cbn [negb]. apply wrap_add_16_spec; auto; lia.
  - apply checksum_loop_ones_complement_sum.
    + unfold zeroed. auto with bytes.
    + unfold zeroed. now rewrite !len_list_set.
  - unfold buf. now rewrite !len_list_set.
  - intros Hke. apply checksum_round_trip; auto; lia.
Qed.

Lemma prepare_checksum_fixup_witness :
  fst (fst (Segment.prepare ipv4_header rnd0))
  = Return [69; 0; 0; 115; 0; 0; 64; 0; 64; 17; 184; 97;
            192; 168; 0; 1; 192; 168; 0; 199] /\
  internet_checksum [69; 0; 0; 115; 0; 0; 64; 0; 64; 17; 184; 97;
                     192; 168; 0; 1; 192; 168; 0; 199] = 0.
Proof.
  assert (H1 : Segment.checksum_offset ipv4_header = Some 10) by reflexivity.
  assert (H2 : 0 < 10) by lia.
  assert (H3 : fst (fst (Segment.join_prepare (Segment.fields ipv4_header) rnd0))
               = Return ipv4_bits) by reflexivity.
  assert (H4 : bitstring_to_bytes ipv4_bits = Return ipv4_raw)
    by (vm_compute; reflexivity).
  assert (H5 : Z.even (Py.len ipv4_raw) = true) by reflexivity.
  assert (H6 : 10 + 1 < Py.len ipv4_raw) by (vm_compute; reflexivity).
  pose proof (prepare_checksum_fixup ipv4_header rnd0 10 ipv4_bits ipv4_raw
                H1 H2 H3 H4 H5 H6) as (Hbuf & _ & _ & Hsum).
  split.
  - rewrite Hbuf. vm_compute. reflexivity.
  - specialize (Hsum eq_refl). vm_compute in Hsum. vm_compute. exact Hsum.
Defined.

(** Outside these conditions: a buffer of odd length makes the loop read past
    its end, and a checksum stored at an odd offset straddles two words and
    does not verify. *)
Example wrap_add_16_odd_length : wrap_add_16 [1; 2; 3] 1 = Raise IndexError.
Proof. reflexivity. Qed.

Example wrap_add_16_odd_offset :
  wrap_add_16 [1; 0; 0; 0] 1 = Return [1; 254; 255; 0] /\
  internet_checksum [1; 254; 255; 0] = 65280.
Proof. split; vm_compute; reflexivity. Qed.

(** Without the condition on the offset the statement of C3 fails: at
    offset 0 the buffer is returned as the fields give it, and its checksum
    is not 0. *)
Lemma prepare_offset_zero_not_verified :
  Segment.checksum_offset offset_zero_segment = Some 0 /\
  fst (fst (Segment.prepare offset_zero_segment rnd0)) = Return [1; 0; 0; 0] /\
  internet_checksum [1; 0; 0; 0] <> 0.
Proof.
  split; [reflexivity|]. split; [vm_compute; reflexivity|].
  vm_compute. discriminate.
Qed.

(** C10.  A checksum offset of 0 passes the validator and is then taken for
    an absent one: [prepare()] returns the bytes of the concatenated fields
    with no fix-up, exactly as the same segment without an offset does. *)
Theorem prepare_checksum_offset_zero (s : Segment.t) (rnd : Random) :
  Segment.checksum_offset s = Some 0 ->
  Segment.is_digit (Segment.checksum_offset s) = Return (Some 0) /\
  fst (fst (Segment.prepare s rnd))
  = (bits <- fst (fst (Segment.join_prepare (Segment.fields s) rnd)) ;;
     bitstring_to_bytes bits) /\
  fst (fst (Segment.prepare s rnd))
  = fst (fst (Segment.prepare (Segment.set_checksum_offset s None) rnd)) /\
  snd (Segment.prepare s rnd)
  = snd (Segment.prepare (Segment.set_checksum_offset s None) rnd).
Proof.
  intros Hk. unfold Segment.prepare, Segment.is_digit.
  cbn [Segment.set_checksum_offset Segment.fields Segment.checksum_offset].
  rewrite Hk. cbn [Segment.truthy Z.eqb negb].
  destruct (Segment.join_prepare (Segment.fields s) rnd) as [[joined fs'] rnd'].
  cbn [fst snd]. repeat split.
  - destruct joined as [bits|e]; cbn [bind]; [|reflexivity].
    destruct (bitstring_to_bytes bits); reflexivity.
Qed.

(** Offset 0 is a span [wrap_add_16] accepts: applied there, it would have
    changed the buffer of the sample segment. *)
Lemma prepare_checksum_offset_zero_witness :
  fst (fst (Segment.prepare offset_zero_segment rnd0)) = Return [1; 0; 0; 0] /\
  wrap_add_16 [1; 0; 0; 0] 0 = Return [255; 255; 0; 0].
Proof.
  split.
  - destruct (prepare_checksum_offset_zero offset_zero_segment rnd0 eq_refl)
      as (_ & H & _). rewrite H. vm_compute. reflexivity.
  - vm_compute. reflexivity.
Defined.

(** ** Properties.get_modifier_range *)

(** C6.  The four cases of [get_modifier_range]; the case of a port without
    destinations is the last of the three for stream 0, reached only when
    [num_modifiersL2] is not 2. *)
Theorem get_modifier_range_cases (self : Properties.t) (stream_id : Z) :
  (stream_id = 0 /\ Properties.num_modifiersL2 self = 2 ->
   Properties.get_modifier_range self stream_id
   = (Properties.lowest_dest_port_index self,
      Properties.test_port_index self - 1)) /\
  (stream_id = 0 /\ Properties.num_modifiersL2 self <> 2
   /\ Properties.dest_port_count self > 0 ->
   Properties.get_modifier_range self stream_id
   = (Properties.lowest_dest_port_index self,
      Properties.highest_dest_port_index self)) /\
  (stream_id = 0 /\ Properties.num_modifiersL2 self <> 2
   /\ Properties.dest_port_count self = 0 ->
   Properties.get_modifier_range self stream_id
   = (Properties.test_port_index self, Properties.test_port_index self)) /\
  (stream_id <> 0 ->
   Properties.get_modifier_range self stream_id
   = (Properties.test_port_index self + 1,
      Properties.highest_dest_port_index self)) /\
  Properties.get_modifier_range (Properties.mk 2 3 3 2 1 1 9 []) 0 = (1, 2) /\
  Properties.get_modifier_range (Properties.mk 2 3 3 2 1 1 9 []) 1 = (4, 9).
Proof.
  unfold Properties.get_modifier_range.
  repeat split.
  - intros [-> ->]. reflexivity.
  - intros (-> & Hn & Hd). cbn [Z.eqb].
    destruct (Z.eqb_spec (Properties.num_modifiersL2 self) 2); [contradiction|].
    destruct (Z.gtb_spec (Properties.dest_port_count self) 0); [reflexivity|lia].
  - intros (-> & Hn & Hd). cbn [Z.eqb].
    destruct (Z.eqb_spec (Properties.num_modifiersL2 self) 2); [contradiction|].
    rewrite Hd. reflexivity.
  - intros Hs. destruct (Z.eqb_spec stream_id 0); [contradiction|reflexivity].
Qed.

(** ** Properties.register_peer *)

Lemma register_peer_test_port_index (p : Properties.t) (q : Properties.PortStruct) :
  Properties.test_port_index (Properties.register_peer p q)
  = Properties.test_port_index p.
Proof.
  unfold Properties.register_peer.
  destruct (Properties.peer_index q =? Properties.test_port_index p); reflexivity.
Qed.

Lemma register_peer_peers (p : Properties.t) (q : Properties.PortStruct) :
  Properties.peers (Properties.register_peer p q)
  = if Properties.contains (Properties.peers p) q then Properties.peers p
    else Properties.peers p ++ [q].
Proof.
  unfold Properties.register_peer.
  destruct (Properties.peer_index q =? Properties.test_port_index p);
    cbn [Properties.peers];
    destruct (Properties.contains (Properties.peers p) q); reflexivity.
Qed.

(** The two cases of a registration: the peer has the port's own index, or
    another one. *)
Ltac own_or_other p q :=
  let E := fresh "E" in
  destruct (Z.eq_dec (Properties.peer_index q) (Properties.test_port_index p))
    as [E|E].

Lemma register_peer_self (p : Properties.t) (q : Properties.PortStruct) :
  Properties.peer_index q = Properties.test_port_index p ->
  Properties.aggregates_of (Properties.register_peer p q)
  = Properties.aggregates_of p.
Proof.
  intros H. unfold Properties.register_peer.
  rewrite H, Z.eqb_refl. reflexivity.
Qed.

Lemma register_peer_other (p : Properties.t) (q : Properties.PortStruct) :
  Properties.peer_index q <> Properties.test_port_index p ->
  let low := Properties.low_dest_port_count p
             + Z.b2z (Properties.peer_index q <? Properties.test_port_index p) in
  let high := Properties.high_dest_port_count p
              + Z.b2z (Properties.peer_index q >? Properties.test_port_index p) in
  Properties.aggregates_of (Properties.register_peer p q)
  = Properties.mkAgg (Properties.dest_port_count p + 1) low high
      (seeded_min (Properties.lowest_dest_port_index p) (Properties.peer_index q))
      (seeded_max (Properties.highest_dest_port_index p) (Properties.peer_index q))
      (if (low >? 0) && (high >? 0) then 2 else 1).
Proof.
  intros H low high. unfold Properties.register_peer.
  destruct (Z.eqb_spec (Properties.peer_index q) (Properties.test_port_index p));
    [contradiction|].
  unfold Properties.aggregates_of, low, high, seeded_min, seeded_max.
  cbn [Properties.dest_port_count Properties.low_dest_port_count
       Properties.high_dest_port_count Properties.lowest_dest_port_index
       Properties.highest_dest_port_index Properties.num_modifiersL2].
  destruct (Z.ltb_spec (Properties.peer_index q) (Properties.test_port_index p));
    destruct (Z.gtb_spec (Properties.peer_index q) (Properties.test_port_index p));
    try lia; cbn [Z.b2z]; rewrite ?Z.add_0_r; reflexivity.
Qed.

(** C4.  A peer already in the list is not appended again; a peer with the
    port's own index is recorded (once) and leaves every aggregate as it
    was; and the call changes nothing at all when both hold. *)
Theorem register_peer_duplicate_and_self (p : Properties.t)
  (q : Properties.PortStruct) :
  (Properties.contains (Properties.peers p) q = true ->
   Properties.peers (Properties.register_peer p q) = Properties.peers p) /\
  (Properties.peer_index q = Properties.test_port_index p ->
   Properties.aggregates_of (Properties.register_peer p q)
   = Properties.aggregates_of p /\
   Properties.peers (Properties.register_peer p q)
   = if Properties.contains (Properties.peers p) q then Properties.peers p
     else Properties.peers p ++ [q]) /\
  (Properties.contains (Properties.peers p) q = true /\
   Properties.peer_index q = Properties.test_port_index p ->
   Properties.register_peer p q = p).
Proof.
  split; [|split].
  - intros H. rewrite register_peer_peers, H. reflexivity.
  - intros H. split; [now apply register_peer_self|apply register_peer_peers].
  - intros [Hc Hi]. unfold Properties.register_peer.
    rewrite Hc, Hi, Z.eqb_refl. cbn [negb]. destruct p; reflexivity.
Qed.

(** A second registration of the same peer is not a no-op when its index
    differs from the port's: the peer list stays, the counts go up again. *)
Lemma register_peer_twice_counts_twice :
  Properties.contains (Properties.peers port_3_with_peer_5) peer_5 = true /\
  Properties.dest_port_count port_3_with_peer_5 = 1 /\
  Properties.dest_port_count (Properties.register_peer port_3_with_peer_5 peer_5) = 2 /\
  Properties.high_dest_port_count (Properties.register_peer port_3_with_peer_5 peer_5)
  = 2 /\
  Properties.register_peer port_3_with_peer_5 peer_5 <> port_3_with_peer_5.
Proof. repeat split. discriminate. Qed.

(** *** Order of registration *)

Lemma seeded_min_swap (c a b : Z) :
  a <> -1 -> b <> -1 ->
  seeded_min (seeded_min c a) b = seeded_min (seeded_min c b) a.
Proof.
  intros Ha Hb. unfold seeded_min.
  destruct (Z.eqb_spec c (-1)) as [->|Hc].
  - destruct (Z.eqb_spec a (-1)); [contradiction|].
    destruct (Z.eqb_spec b (-1)); [contradiction|]. lia.
  - destruct (Z.eqb_spec (Z.min c a) (-1)); [lia|].
    destruct (Z.eqb_spec (Z.min c b) (-1)); lia.
Qed.

Lemma seeded_max_swap (c a b : Z) :
  a <> -1 -> b <> -1 ->
  seeded_max (seeded_max c a) b = seeded_max (seeded_max c b) a.
Proof.
  intros Ha Hb. unfold seeded_max.
  destruct (Z.eqb_spec c (-1)) as [->|Hc].
  - destruct (Z.eqb_spec a (-1)); [contradiction|].
    destruct (Z.eqb_spec b (-1)); [contradiction|]. lia.
  - destruct (Z.eqb_spec (Z.max c a) (-1)); [lia|].
    destruct (Z.eqb_spec (Z.max c b) (-1)); lia.
Qed.

(** The numbers after a registration depend on the numbers before it only. *)
Lemma register_peer_same_numbers (p1 p2 : Properties.t) (q : Properties.PortStruct) :
  same_numbers p1 p2 ->
  same_numbers (Properties.register_peer p1 q) (Properties.register_peer p2 q).
Proof.
  intros [Hagg Hidx]. split; [|now rewrite !register_peer_test_port_index].
  unfold Properties.aggregates_of in Hagg. injection Hagg as Hd Hl Hh Hlo Hhi Hn.
  own_or_other p1 q.
  - rewrite !register_peer_self by congruence.
    unfold Properties.aggregates_of. congruence.
  - rewrite !register_peer_other by congruence.
    cbv zeta. now rewrite Hd, Hl, Hh, Hlo, Hhi, Hidx.
Qed.

Lemma register_all_same_numbers (l : list Properties.PortStruct) :
  forall p1 p2, same_numbers p1 p2 ->
  same_numbers (Properties.register_all p1 l) (Properties.register_all p2 l).
Proof.
  unfold Properties.register_all.
  induction l as [|q l IH]; intros p1 p2 H; cbn [fold_left]; auto.
  apply IH. now apply register_peer_same_numbers.
Qed.

Lemma aggregates_fields (p : Properties.t) :
  Properties.dest_port_count p
  = Properties.agg_dest_port_count (Properties.aggregates_of p) /\
  Properties.low_dest_port_count p
  = Properties.agg_low_dest_port_count (Properties.aggregates_of p) /\
  Properties.high_dest_port_count p
  = Properties.agg_high_dest_port_count (Properties.aggregates_of p) /\
  Properties.lowest_dest_port_index p
  = Properties.agg_lowest_dest_port_index (Properties.aggregates_of p) /\
  Properties.highest_dest_port_index p
  = Properties.agg_highest_dest_port_index (Properties.aggregates_of p).
Proof. repeat split. Qed.

(** Two registrations one after the other, of peers whose index is not -1,
    give the same numbers in either order. *)
Lemma register_peer_swap (p : Properties.t) (a b : Properties.PortStruct) :
  Properties.peer_index a <> -1 -> Properties.peer_index b <> -1 ->
  same_numbers
    (Properties.register_peer (Properties.register_peer p a) b)
    (Properties.register_peer (Properties.register_peer p b) a).
Proof.
  intros Ha Hb. split; [|now rewrite !register_peer_test_port_index].
  destruct (Z.eq_dec (Properties.peer_index a) (Properties.test_port_index p)) as [Ea|Ea];
  destruct (Z.eq_dec (Properties.peer_index b) (Properties.test_port_index p)) as [Eb|Eb].
  - rewrite !register_peer_self by (rewrite ?register_peer_test_port_index; auto).
    reflexivity.
  - rewrite (register_peer_self (Properties.register_peer p b) a)
      by (rewrite register_peer_test_port_index; auto).
    apply register_peer_same_numbers.
    split; [now apply register_peer_self|apply register_peer_test_port_index].
  - rewrite (register_peer_self (Properties.register_peer p a) b)
      by (rewrite register_peer_test_port_index; auto).
    symmetry. apply register_peer_same_numbers.
    split; [now apply register_peer_self|apply register_peer_test_port_index].
  - rewrite (register_peer_other (Properties.register_peer p a) b)
      by (rewrite register_peer_test_port_index; auto).
    rewrite (register_peer_other (Properties.register_peer p b) a)
      by (rewrite register_peer_test_port_index; auto).
    cbv zeta. rewrite !register_peer_test_port_index.
    destruct (aggregates_fields (Properties.register_peer p a))
      as (-> & -> & -> & -> & ->).
    destruct (aggregates_fields (Properties.register_peer p b))
      as (-> & -> & -> & -> & ->).
    rewrite !register_peer_other by assumption.
    cbv zeta. cbn [Properties.agg_dest_port_count Properties.agg_low_dest_port_count
      Properties.agg_high_dest_port_count Properties.agg_lowest_dest_port_index
      Properties.agg_highest_dest_port_index].
    rewrite (seeded_min_swap _ _ _ Ha Hb), (seeded_max_swap _ _ _ Ha Hb).
    set (la := Z.b2z (Properties.peer_index a <? Properties.test_port_index p)).
    set (lb := Z.b2z (Properties.peer_index b <? Properties.test_port_index p)).
    set (ha := Z.b2z (Properties.peer_index a >? Properties.test_port_index p)).
    set (hb := Z.b2z (Properties.peer_index b >? Properties.test_port_index p)).
    replace (Properties.low_dest_port_count p + lb + la)
      with (Properties.low_dest_port_count p + la + lb) by lia.
    replace (Properties.high_dest_port_count p + hb + ha)
      with (Properties.high_dest_port_count p + ha + hb) by lia.
    reflexivity.
Qed.

Lemma same_numbers_trans (p1 p2 p3 : Properties.t) :
  same_numbers p1 p2 -> same_numbers p2 p3 -> same_numbers p1 p3.
Proof. unfold same_numbers. intros [? ?] [? ?]. split; congruence. Qed.

Lemma register_all_permutation (l1 l2 : list Properties.PortStruct) :
  Permutation l1 l2 ->
  Forall (fun q => Properties.peer_index q <> -1) l1 ->
  forall p1 p2, same_numbers p1 p2 ->
  same_numbers (Properties.register_all p1 l1) (Properties.register_all p2 l2).
Proof.
  induction 1 as [|x l l' Hp IH|x y l|l l' l'' Hp1 IH1 Hp2 IH2];
    intros Hok p1 p2 Hsame.
  - assumption.
  - inversion Hok; subst. unfold Properties.register_all in *. cbn [fold_left].
    apply IH; auto. now apply register_peer_same_numbers.
  - inversion Hok as [|? ? Hy Hok']; subst. inversion Hok' as [|? ? Hx Hl]; subst.
    unfold Properties.register_all. cbn [fold_left].
    apply register_all_same_numbers.
    eapply same_numbers_trans; [apply register_peer_swap; assumption|].
    now do 2 apply register_peer_same_numbers.
  - eapply same_numbers_trans.
    + apply IH1; [assumption|]. split; reflexivity.
    + apply IH2; [|assumption].
      eapply Permutation_Forall; eassumption.
Qed.

Lemma register_all_snoc (p : Properties.t) (l : list Properties.PortStruct)
  (q : Properties.PortStruct) :
  Properties.register_all p (l ++ [q])
  = Properties.register_peer (Properties.register_all p l) q.
Proof. unfold Properties.register_all. now rewrite fold_left_app. Qed.

Lemma register_all_test_port_index (p : Properties.t) (l : list Properties.PortStruct) :
  Properties.test_port_index (Properties.register_all p l)
  = Properties.test_port_index p.
Proof.
  induction l as [|q l IH] using rev_ind; [reflexivity|].
  now rewrite register_all_snoc, register_peer_test_port_index.
Qed.

Lemma how_many_snoc {A : Type} (f : A -> bool) (l : list A) (x : A) :
  how_many f (l ++ [x]) = how_many f l + Z.b2z (f x).
Proof.
  unfold how_many. rewrite filter_app, length_app. cbn [filter].
  destruct (f x); cbn [List.length Z.b2z]; lia.
Qed.

(** *** The aggregates in closed form *)

Lemma fold_min_In (r : list Z) (y : Z) : In (fold_left Z.min r y) (y :: r).
Proof.
  revert y. induction r as [|a r IH]; intros y; [now left|].
  cbn [fold_left]. destruct (IH (Z.min y a)) as [H|H].
  - rewrite <- H. destruct (Z.min_spec y a) as [[_ ->]|[_ ->]];
      [now left|right; now left].
  - right. now right.
Qed.

Lemma fold_max_In (r : list Z) (y : Z) : In (fold_left Z.max r y) (y :: r).
Proof.
  revert y. induction r as [|a r IH]; intros y; [now left|].
  cbn [fold_left]. destruct (IH (Z.max y a)) as [H|H].
  - rewrite <- H. destruct (Z.max_spec y a) as [[_ ->]|[_ ->]];
      [right; now left|now left].
  - right. now right.
Qed.

Lemma lowest_of_snoc (xs : list Z) (x : Z) :
  Forall (fun y => y <> -1) xs ->
  lowest_of (xs ++ [x]) = seeded_min (lowest_of xs) x.
Proof.
  intros Hok. destruct xs as [|y r]; [reflexivity|].
  cbn [app lowest_of]. rewrite fold_left_app. cbn [fold_left].
  unfold seeded_min.
  destruct (Z.eqb_spec (fold_left Z.min r y) (-1)) as [E|_]; [|reflexivity].
  pose proof (fold_min_In r y) as Hin. rewrite E in Hin.
  exfalso. exact (proj1 (Forall_forall _ _) Hok _ Hin eq_refl).
Qed.

Lemma highest_of_snoc (xs : list Z) (x : Z) :
  Forall (fun y => y <> -1) xs ->
  highest_of (xs ++ [x]) = seeded_max (highest_of xs) x.
Proof.
  intros Hok. destruct xs as [|y r]; [reflexivity|].
  cbn [app highest_of]. rewrite fold_left_app. cbn [fold_left].
  unfold seeded_max.
  destruct (Z.eqb_spec (fold_left Z.max r y) (-1)) as [E|_]; [|reflexivity].
  pose proof (fold_max_In r y) as Hin. rewrite E in Hin.
  exfalso. exact (proj1 (Forall_forall _ _) Hok _ Hin eq_refl).
Qed.

Lemma indices_other_than_snoc (i : Z) (l : list Properties.PortStruct)
  (q : Properties.PortStruct) :
  indices_other_than i (l ++ [q])
  = indices_other_than i l
    ++ (if Properties.peer_index q =? i then [] else [Properties.peer_index q]).
Proof.
  unfold indices_other_than. rewrite map_app, filter_app. cbn [map filter].
  now destruct (Properties.peer_index q =? i).
Qed.

Lemma indices_other_than_ok (i : Z) (l : list Properties.PortStruct) :
  Forall (fun q => Properties.peer_index q <> -1) l ->
  Forall (fun y => y <> -1) (indices_other_than i l).
Proof.
  intros Hok. apply Forall_forall. intros y Hin.
  unfold indices_other_than in Hin. apply filter_In in Hin.
  destruct Hin as [Hin _]. apply in_map_iff in Hin.
  destruct Hin as (q & <- & Hq).
  exact (proj1 (Forall_forall _ _) Hok q Hq).
Qed.

(** Registration on a fresh instance computes the numbers of
    [expected_aggregates], when no peer carries the index -1. *)
Lemma registered_aggregates (i : Z) (l : list Properties.PortStruct) :
  Forall (fun q => Properties.peer_index q <> -1) l ->
  Properties.aggregates_of (Properties.register_all (Properties.fresh i) l)
  = expected_aggregates i l.
Proof.
  induction l as [|q l IH] using rev_ind; intros Hok; [reflexivity|].
  apply Forall_app in Hok. destruct Hok as [Hl Hq].
  specialize (IH Hl). rewrite register_all_snoc.
  set (p := Properties.register_all (Properties.fresh i) l) in *.
  assert (Hi : Properties.test_port_index p = i)
    by (unfold p; now rewrite register_all_test_port_index).
  unfold expected_aggregates in *. rewrite indices_other_than_snoc.
  pose proof (indices_other_than_ok i l Hl) as Hothers.
  set (others := indices_other_than i l) in *.
  own_or_other p q.
  - rewrite register_peer_self by assumption.
    rewrite Hi in E. rewrite E, Z.eqb_refl, app_nil_r. exact IH.
  - rewrite register_peer_other by assumption.
    rewrite Hi in *. destruct (Z.eqb_spec (Properties.peer_index q) i); [contradiction|].
    unfold Properties.aggregates_of in IH.
    injection IH as Hd Hlow Hhigh Hlo Hhi _.
    rewrite Hd, Hlow, Hhigh, Hlo, Hhi.
    rewrite len_app, !how_many_snoc, lowest_of_snoc, highest_of_snoc by assumption.
    reflexivity.
Qed.

(** C7.  Registering the same peers in two different orders on the same
    [Properties] gives the same counts, extremes and [num_modifiersL2],
    provided no peer carries the index -1, the value that marks "no peer
    yet" in the two extremes.  On a fresh instance these numbers are the
    ones counting, minimum and maximum give over the peers of another index
    than the port's own: for the peers of index 5, 1 and 9 on the port of
    index 3, three destinations, one below and two above, lowest 1,
    highest 9, two modifiers. *)
Theorem register_all_order_independent (p : Properties.t)
  (l1 l2 : list Properties.PortStruct) :
  Permutation l1 l2 ->
  Forall (fun q => Properties.peer_index q <> -1) l1 ->
  Properties.aggregates_of (Properties.register_all p l1)
  = Properties.aggregates_of (Properties.register_all p l2) /\
  (forall i, p = Properties.fresh i ->
     Properties.aggregates_of (Properties.register_all p l2)
     = expected_aggregates i l1).
Proof.
  intros Hp Hok.
  assert (Hsame : Properties.aggregates_of (Properties.register_all p l1)
                  = Properties.aggregates_of (Properties.register_all p l2)).
  { apply (register_all_permutation l1 l2 Hp Hok p p). split; reflexivity. }
  split; [exact Hsame|].
  intros i ->. rewrite <- Hsame. now apply registered_aggregates.
Qed.

Lemma register_all_order_independent_witness :
  Properties.aggregates_of
    (Properties.register_all (Properties.fresh 3) [peer_5; peer_1; peer_9])
  = Properties.aggregates_of
      (Properties.register_all (Properties.fresh 3) [peer_9; peer_5; peer_1]) /\
  Properties.aggregates_of
    (Properties.register_all (Properties.fresh 3) [peer_9; peer_5; peer_1])
  = Properties.mkAgg 3 1 2 1 9 2.
Proof.
  destruct (register_all_order_independent (Properties.fresh 3)
              [peer_5; peer_1; peer_9] [peer_9; peer_5; peer_1]) as [Hsame Hvalue].
  - exact (Permutation_app_comm [peer_5; peer_1] [peer_9]).
  - repeat constructor; cbn; lia.
  - split; [exact Hsame|]. exact (Hvalue 3 eq_refl).
Defined.

(** The six orders of the peers of index 5, 1 and 9 on the port of index 3:
    three destinations, one below and two above, extremes 1 and 9, two
    modifiers. *)
Example register_5_1_9_on_3 :
  Forall (fun l =>
            Properties.aggregates_of (Properties.register_all (Properties.fresh 3) l)
            = Properties.mkAgg 3 1 2 1 9 2)
         [[peer_5; peer_1; peer_9]; [peer_5; peer_9; peer_1];
          [peer_1; peer_5; peer_9]; [peer_1; peer_9; peer_5];
          [peer_9; peer_5; peer_1]; [peer_9; peer_1; peer_5]].
Proof. repeat constructor. Qed.

(** With a peer of index -1 the order shows: registered first, it leaves the
    extremes at -1 and the next peer seeds them; registered second, it
    becomes the lowest index. *)
Lemma register_peer_order_shows_at_minus_one :
  Properties.ident peer_minus_1 <> Properties.ident peer_5 /\
  Properties.aggregates_of
    (Properties.register_all (Properties.fresh 3) [peer_minus_1; peer_5])
  = Properties.mkAgg 2 1 1 5 5 2 /\
  Properties.aggregates_of
    (Properties.register_all (Properties.fresh 3) [peer_5; peer_minus_1])
  = Properties.mkAgg 2 1 1 (-1) 5 2 /\
  Properties.aggregates_of
    (Properties.register_all (Properties.fresh 3) [peer_minus_1; peer_5])
  <> Properties.aggregates_of
       (Properties.register_all (Properties.fresh 3) [peer_5; peer_minus_1]).
Proof. repeat split; discriminate. Qed.

(** Registration from a fresh state keeps the counts consistent, so a state
    built that way has destinations whenever it has two modifiers. *)
Lemma register_peer_counts_consistent (p : Properties.t) (q : Properties.PortStruct) :
  counts_consistent p -> counts_consistent (Properties.register_peer p q).
Proof.
  unfold counts_consistent. intros (Hl & Hh & Hd & Hn).
  own_or_other p q.
  - destruct (aggregates_fields (Properties.register_peer p q)) as (-> & -> & -> & _).
    rewrite register_peer_self by assumption.
    unfold Properties.register_peer. rewrite E, Z.eqb_refl. cbn. auto.
  - destruct (aggregates_fields (Properties.register_peer p q)) as (-> & -> & -> & _).
    rewrite register_peer_other by assumption. cbv zeta.
    unfold Properties.register_peer.
    destruct (Z.eqb_spec (Properties.peer_index q) (Properties.test_port_index p));
      [contradiction|].
    cbn.
    destruct (Z.ltb_spec (Properties.peer_index q) (Properties.test_port_index p));
      destruct (Z.gtb_spec (Properties.peer_index q) (Properties.test_port_index p));
      cbn [Z.b2z]; rewrite ?Z.add_0_r; repeat split; try lia.
Qed.

Lemma registered_no_destination_one_modifier (i : Z) (l : list Properties.PortStruct) :
  let p := Properties.register_all (Properties.fresh i) l in
  counts_consistent p /\
  (Properties.dest_port_count p = 0 -> Properties.num_modifiersL2 p <> 2).
Proof.
  cbv zeta.
  assert (H : forall p, counts_consistent p ->
                        counts_consistent (Properties.register_all p l)).
  { unfold Properties.register_all. induction l as [|q l IH]; intros p Hp; auto.
    cbn [fold_left]. apply IH. now apply register_peer_counts_consistent. }
  assert (H0 : counts_consistent (Properties.fresh i)).
  { unfold counts_consistent. cbn. lia. }
  specialize (H _ H0). split; [assumption|].
  destruct H as (Hl & Hh & Hd & Hn). intros Hz. rewrite Hn.
  destruct (Z.gtb_spec (Properties.low_dest_port_count
                          (Properties.register_all (Properties.fresh i) l)) 0);
    destruct (Z.gtb_spec (Properties.high_dest_port_count
                          (Properties.register_all (Properties.fresh i) l)) 0);
    cbn; lia.
Qed.

(** On the states that registration builds from a fresh instance, the range
    of stream 0 for a port without destinations is its own index, with no
    condition on [num_modifiersL2]. *)
Lemma get_modifier_range_no_destination_registered (i : Z)
  (l : list Properties.PortStruct) :
  Properties.dest_port_count (Properties.register_all (Properties.fresh i) l) = 0 ->
  Properties.get_modifier_range (Properties.register_all (Properties.fresh i) l) 0
  = (i, i).
Proof.
  intros Hd.
  destruct (registered_no_destination_one_modifier i l) as [_ Hn].
  specialize (Hn Hd). unfold Properties.get_modifier_range. cbn [Z.eqb].
  destruct (Z.eqb_spec (Properties.num_modifiersL2
                          (Properties.register_all (Properties.fresh i) l)) 2);
    [contradiction|].
  rewrite Hd, register_all_test_port_index. reflexivity.
Qed.

(** ** PortConfiguration: the attribute the validators ask for *)

(** [port.port_config_slot]: the class has no attribute of that name. *)
Lemma getattr_port_config_slot (port : PortConfiguration.t) :
  PortConfiguration.getattr port "port_config_slot" = Raise AttributeError.
Proof. reflexivity. Qed.

(** The attributes behind the intended one are there. *)
Lemma getattr_declared (port : PortConfiguration.t) :
  PortConfiguration.getattr port "port_slot"
  = Return (PortConfiguration.Str (PortConfiguration.port_slot port)) /\
  PortConfiguration.getattr port "_port_config_slot"
  = Return (PortConfiguration.Str (PortConfiguration._port_config_slot port)) /\
  PortConfiguration.getattr port "is_rx_port"
  = Return (PortConfiguration.Bool (PortConfiguration._is_rx port)) /\
  PortConfiguration.getattr port "is_tx_port"
  = Return (PortConfiguration.Bool (PortConfiguration._is_tx port)).
Proof. repeat split. Qed.

(** ** PluginModel2544.set_ports_rx_tx_type *)

Section RoleAssignmentFacts.

Variable setattr :
  PortConfiguration.t -> string -> PortConfiguration.value
  -> result unit * PortConfiguration.t.

(** The first statement of the loop body raises, so no assignment is
    reached, whatever an assignment would do. *)
Lemma assign_rx_tx_raises (d : TrafficDirection) (config_index : string)
  (port : PortConfiguration.t) :
  PluginModel2544.assign_rx_tx setattr d config_index port
  = (Raise AttributeError, port).
Proof.
  unfold PluginModel2544.assign_rx_tx.
  now rewrite getattr_port_config_slot.
Qed.

Lemma rx_tx_loop_raises (d : TrafficDirection) (config_index : string)
  (port : PortConfiguration.t) (rest : PortConfType) :
  PluginModel2544.rx_tx_loop setattr d ((config_index, port) :: rest)
  = (Raise AttributeError, (config_index, port) :: rest).
Proof.
  cbn [PluginModel2544.rx_tx_loop]. now rewrite assign_rx_tx_raises.
Qed.

End RoleAssignmentFacts.

(** C5.  On the PortConfiguration of [m_port_config.py] the role assignment
    assigns nothing.  With a test configuration and at least one port it
    raises AttributeError at the first port, on reading
    [port.port_config_slot], before any flag is touched and whatever an
    assignment to a port would do; it returns, with the dictionary as it
    was, only when there is no port or no test configuration.  So for the
    pair topology, direction EAST_TO_WEST and two ports that name each other
    it raises where an East port should lose rx. *)
Theorem set_ports_rx_tx_type_attribute_error :
  (forall setattr test_configuration config_index port rest,
     PluginModel2544.set_ports_rx_tx_type setattr ((config_index, port) :: rest)
       (Some test_configuration)
     = (Raise AttributeError, (config_index, port) :: rest)) /\
  (forall setattr test_configuration,
     PluginModel2544.set_ports_rx_tx_type setattr [] (Some test_configuration)
     = (Return [], [])) /\
  (forall setattr port_configs,
     PluginModel2544.set_ports_rx_tx_type setattr port_configs None
     = (Return port_configs, port_configs)) /\
  (forall setattr,
     PluginModel2544.set_ports_rx_tx_type setattr paired_ports
       (Some pairs_east_to_west)
     = (Raise AttributeError, paired_ports)).
Proof.
  assert (H : forall setattr test_configuration config_index port rest,
             PluginModel2544.set_ports_rx_tx_type setattr
               ((config_index, port) :: rest) (Some test_configuration)
             = (Raise AttributeError, (config_index, port) :: rest)).
  { intros setattr tc k p rest. unfold PluginModel2544.set_ports_rx_tx_type.
    now rewrite rx_tx_loop_raises. }
  split; [exact H|]. split; [reflexivity|]. split; [reflexivity|].
  intros setattr. apply H.
Qed.

(** ** PluginModel2544.check_port_peer and check_port_groups_and_peers *)

Lemma count_port_group_raises (port_config : PortConfiguration.t)
  (uses_port_peer : bool) (e w : Z) :
  PluginModel2544.count_port_group port_config uses_port_peer e w
  = Raise AttributeError.
Proof. reflexivity. Qed.

(** Outside the mesh topology the loop stops at its first port, in
    [count_port_group], before the peer check of that port. *)
Lemma loop_not_mesh (t : TestTopology) (v : PortConfType) (k : string)
  (p : PortConfiguration.t) (rest : PortConfType) (e w : Z) :
  is_mesh_topology t = false ->
  PluginModel2544.groups_and_peers_loop t v ((k, p) :: rest) e w
  = Raise AttributeError.
Proof.
  intros Hmesh. cbn [PluginModel2544.groups_and_peers_loop].
  rewrite Hmesh. cbn [negb]. now rewrite count_port_group_raises.
Qed.

Lemma loop_mesh (v todo : PortConfType) (e w : Z) :
  PluginModel2544.groups_and_peers_loop MESH v todo e w = Return (e, w).
Proof.
  revert e w. induction todo as [|[k p] todo IH]; intros e w; [reflexivity|].
  cbn [PluginModel2544.groups_and_peers_loop is_pair_topology is_mesh_topology negb bind].
  apply IH.
Qed.

(** C8.  On the PortConfiguration of [m_port_config.py] the peer checks are
    never reached under the pair topology: with at least one port the
    validator raises AttributeError at the first port, in
    [count_port_group], so two ports that name each other do not pass, and a
    port B that names a third port C gets AttributeError, not
    PortPeerInconsistent.  [check_port_peer] called on its own raises
    PortPeerNeeded for an empty peer slot and PortPeerInconsistent for a
    peer slot that is no key of the dictionary, and AttributeError as soon as
    the peer exists: it never returns. *)
Theorem pair_topology_attribute_error :
  (forall test_configuration config_index port rest,
     is_pair_topology (topology test_configuration) = true ->
     PluginModel2544.check_port_groups_and_peers ((config_index, port) :: rest)
       (Some test_configuration)
     = Raise AttributeError) /\
  (forall port_config ports_configuration,
     PluginModel2544.check_port_peer port_config ports_configuration
     = if negb (nonempty (PortConfiguration.peer_config_slot port_config))
       then Raise PortPeerNeeded
       else match lookup (PortConfiguration.peer_config_slot port_config)
                         ports_configuration with
            | None => Raise PortPeerInconsistent
            | Some _ => Raise AttributeError
            end) /\
  PluginModel2544.check_port_groups_and_peers paired_ports (Some pairs_east_to_west)
  = Raise AttributeError /\
  PluginModel2544.check_port_groups_and_peers mispaired_ports (Some pairs_east_to_west)
  = Raise AttributeError /\
  PluginModel2544.check_port_peer port_A paired_ports = Raise AttributeError.
Proof.
  assert (H : forall test_configuration config_index port rest,
             is_pair_topology (topology test_configuration) = true ->
             PluginModel2544.check_port_groups_and_peers
               ((config_index, port) :: rest) (Some test_configuration)
             = Raise AttributeError).
  { intros tc k p rest Hpair.
    unfold PluginModel2544.check_port_groups_and_peers.
    rewrite loop_not_mesh; [reflexivity|].
    destruct (topology tc); [reflexivity|discriminate|discriminate]. }
  split; [exact H|]. split.
  - intros p v. unfold PluginModel2544.check_port_peer.
    destruct (negb (nonempty (PortConfiguration.peer_config_slot p))); [reflexivity|].
    destruct (lookup (PortConfiguration.peer_config_slot p) v); [|reflexivity].
    now rewrite getattr_port_config_slot.
  - split; [exact (H pairs_east_to_west _ _ _ eq_refl)|].
    split; [exact (H pairs_east_to_west _ _ _ eq_refl)|].
    reflexivity.
Qed.

(** * Further properties of the header engine *)

(** ** bitstring_to_bytes *)

Lemma bits_fold_bound (s : Py.str) :
  forall acc, 0 <= acc ->
  0 <= fold_left (fun a c => 2 * a + (if Ascii.eqb c "1" then 1 else 0)) s acc
    < (acc + 1) * 2 ^ Py.len s.
Proof.
  induction s as [|c s IH]; intros acc Hacc.
  - cbn. lia.
  - cbn [fold_left].
    assert (Hb : 0 <= (if Ascii.eqb c "1" then 1 else 0) <= 1)
      by (destruct (Ascii.eqb c "1"); lia).
    specialize (IH (2 * acc + (if Ascii.eqb c "1" then 1 else 0)) ltac:(lia)).
    replace (Py.len (c :: s)) with (Py.len s + 1)
      by (unfold Py.len; cbn [List.length]; lia).
    pose proof (len_nonneg s). rewrite Z.pow_add_r by lia.
    assert (0 < 2 ^ Py.len s) by (apply Z.pow_pos_nonneg; lia).
    nia.
Qed.

Lemma bits_value_bound (s : Py.str) : 0 <= Py.bits_value s < 2 ^ Py.len s.
Proof.
  pose proof (bits_fold_bound s 0 ltac:(lia)) as H. unfold Py.bits_value. lia.
Qed.

Lemma be_bytes_length (n : nat) (x : Z) : List.length (Py.be_bytes n x) = n.
Proof. induction n; cbn [Py.be_bytes List.length]; congruence. Qed.

Lemma be_value_fold (k : nat) (n : Z) :
  forall acc,
  fold_left (fun a b => 256 * a + b) (Py.be_bytes k n) acc
  = acc * 256 ^ Z.of_nat k + n mod 256 ^ Z.of_nat k.
Proof.
  induction k as [|k IH]; intros acc.
  - cbn. rewrite Z.mod_1_r. lia.
  - cbn [Py.be_bytes fold_left]. rewrite IH.
    rewrite Z.shiftr_div_pow2 by lia.
    replace (2 ^ (8 * Z.of_nat k)) with (256 ^ Z.of_nat k)
      by (change 256 with (2 ^ 8); rewrite <- Z.pow_mul_r by lia; reflexivity).
    replace (Z.of_nat (S k)) with (Z.of_nat k + 1) by lia.
    rewrite Z.pow_add_r by lia. change (256 ^ 1) with 256.
    assert (Hp : 0 < 256 ^ Z.of_nat k) by (apply Z.pow_pos_nonneg; lia).
    rewrite (Z.rem_mul_r n (256 ^ Z.of_nat k) 256) by lia.
    lia.
Qed.

Lemma be_value_be_bytes (k : nat) (n : Z) :
  0 <= n < 256 ^ Z.of_nat k -> be_value (Py.be_bytes k n) = n.
Proof.
  intros Hn. unfold be_value. rewrite be_value_fold.
  rewrite Z.mod_small by lia. lia.
Qed.

Lemma ceil8_covers (l : Z) : 0 <= l -> l <= 8 * ((l + 7) / 8) /\ 0 <= (l + 7) / 8.
Proof.
  intros Hl. pose proof (Z.div_mod (l + 7) 8 ltac:(lia)).
  pose proof (Z.mod_pos_bound (l + 7) 8 ltac:(lia)). lia.
Qed.

Lemma bitstring_to_bytes_binary (s : Py.str) :
  Py.is_binary s = true ->
  exists raw,
    bitstring_to_bytes s = Return raw /\
    Py.len raw = (Py.len s + 7) / 8 /\
    Forall is_byte raw /\
    be_value raw = Py.bits_value s.
Proof.
  intros Hs. unfold bitstring_to_bytes. rewrite (int2_binary s Hs). cbn [bind].
  pose proof (bits_value_bound s) as [Hlo Hhi].
  pose proof (len_nonneg s) as Hl.
  destruct (ceil8_covers (Py.len s) Hl) as [Hc Hq].
  assert (Hpow : 2 ^ Py.len s <= 2 ^ (8 * ((Py.len s + 7) / 8)))
    by (apply Z.pow_le_mono_r; lia).
  unfold Py.to_bytes.
  replace (Py.bits_value s <? 0) with false by (symmetry; apply Z.ltb_ge; lia).
  replace (2 ^ (8 * ((Py.len s + 7) / 8)) <=? Py.bits_value s) with false
    by (symmetry; apply Z.leb_gt; lia).
  cbn [orb]. eexists. split; [reflexivity|].
  split; [|split].
  - unfold Py.len at 1. rewrite be_bytes_length. lia.
  - apply be_bytes_are_bytes.
  - apply be_value_be_bytes. split; [lia|].
    rewrite Z2Nat.id by lia.
    replace (256 ^ ((Py.len s + 7) / 8)) with (2 ^ (8 * ((Py.len s + 7) / 8)))
      by (change 256 with (2 ^ 8); rewrite <- Z.pow_mul_r by lia; reflexivity).
    lia.
Qed.

(** X1.  On a string of binary digits [bitstring_to_bytes] never raises: it
    returns ceil(len/8) bytes, each in range(256), that spell the binary
    value of the string in big-endian order (a string whose length is not a
    multiple of 8 is padded with zero bits on the left). *)
Theorem bitstring_to_bytes_value (s : Py.str) :
  Py.is_binary s = true ->
  exists raw,
    bitstring_to_bytes s = Return raw /\
    Py.len raw = (Py.len s + 7) / 8 /\
    Forall is_byte raw /\
    be_value raw = Py.bits_value s.
Proof. exact (bitstring_to_bytes_binary s). Qed.

Lemma bitstring_to_bytes_value_witness :
  exists raw,
    bitstring_to_bytes (Py.lit "101100001") = Return raw /\
    Py.len raw = 2 /\ Forall is_byte raw /\ be_value raw = 353.
Proof. exact (bitstring_to_bytes_value (Py.lit "101100001") eq_refl). Defined.

(** ** hex_to_bitstring *)

Lemma pos_digits_acc (p : positive) :
  forall acc, Py.pos_digits p acc = Py.pos_digits p [] ++ acc.
Proof.
  induction p as [p IH|p IH|]; intros acc; cbn [Py.pos_digits].
  - rewrite (IH ("1"%char :: acc)), (IH ["1"%char]), <- app_assoc. reflexivity.
  - rewrite (IH ("0"%char :: acc)), (IH ["0"%char]), <- app_assoc. reflexivity.
  - reflexivity.
Qed.

Lemma bits_value_app (s1 s2 : Py.str) :
  Py.bits_value (s1 ++ s2) = Py.bits_value s1 * 2 ^ Py.len s2 + Py.bits_value s2.
Proof.
  unfold Py.bits_value. rewrite fold_left_app.
  generalize (fold_left (fun acc c => 2 * acc + (if Ascii.eqb c "1" then 1 else 0)) s1 0).
  induction s2 as [|c s2 IH] using rev_ind; intros v.
  - cbn. lia.
  - rewrite !fold_left_app. cbn [fold_left]. rewrite IH.
    rewrite len_app. pose proof (len_nonneg s2).
    replace (Py.len [c]) with 1 by reflexivity.
    rewrite Z.pow_add_r by lia. change (2 ^ 1) with 2. lia.
Qed.

Lemma pos_digits_value (p : positive) : Py.bits_value (Py.pos_digits p []) = Zpos p.
Proof.
  induction p as [p IH|p IH|]; cbn [Py.pos_digits].
  - rewrite pos_digits_acc, bits_value_app, IH.
    change (Py.len ["1"%char]) with 1. change (Py.bits_value ["1"%char]) with 1. lia.
  - rewrite pos_digits_acc, bits_value_app, IH.
    change (Py.len ["0"%char]) with 1. change (Py.bits_value ["0"%char]) with 0. lia.
  - reflexivity.
Qed.

Lemma pos_digits_bits (p : positive) : forallb Py.is_bit (Py.pos_digits p []) = true.
Proof.
  induction p as [p IH|p IH|]; cbn [Py.pos_digits].
  - rewrite pos_digits_acc, forallb_app, IH. reflexivity.
  - rewrite pos_digits_acc, forallb_app, IH. reflexivity.
  - reflexivity.
Qed.

Lemma pos_digits_len (p : positive) : Py.len (Py.pos_digits p []) = Z.log2 (Zpos p) + 1.
Proof.
  assert (H : forall q, Py.len (Py.pos_digits q []) = Zpos (Pos.size q)).
  { induction q as [q IH|q IH|]; cbn [Py.pos_digits Pos.size].
    - rewrite pos_digits_acc, len_app, IH. unfold Py.len. cbn [List.length]. lia.
    - rewrite pos_digits_acc, len_app, IH. unfold Py.len. cbn [List.length]. lia.
    - reflexivity. }
  rewrite H. destruct p; cbn [Z.log2 Pos.size]; lia.
Qed.

Lemma bits_value_repeat_zero (k : nat) : Py.bits_value (repeat "0"%char k) = 0.
Proof.
  unfold Py.bits_value. induction k as [|k IH]; [reflexivity|].
  cbn [repeat fold_left]. exact IH.
Qed.

Lemma bits_value_zeros (k : nat) (s : Py.str) :
  Py.bits_value (repeat "0"%char k ++ s) = Py.bits_value s.
Proof. rewrite bits_value_app, bits_value_repeat_zero. lia. Qed.

Lemma forallb_repeat_zero (k : nat) : forallb Py.is_bit (repeat "0"%char k) = true.
Proof. induction k as [|k IH]; [reflexivity|]. cbn [repeat forallb]. now rewrite IH. Qed.

Lemma is_bit_not_newline (c : ascii) : Py.is_bit c = true -> Ascii.eqb c newline = false.
Proof.
  unfold Py.is_bit. intros H. apply orb_true_iff in H.
  destruct H as [H|H]; apply Ascii.eqb_eq in H; subst; reflexivity.
Qed.

(** A non-empty string of binary digits does not end on a newline. *)
Lemma strip_final_newline_bits (s : Py.str) :
  forallb Py.is_bit s = true -> strip_final_newline s = s.
Proof.
  intros H. unfold strip_final_newline.
  destruct (rev s) as [|c r] eqn:E; [reflexivity|].
  assert (Hin : In c s) by (apply in_rev; rewrite E; left; reflexivity).
  rewrite forallb_forall in H. now rewrite (is_bit_not_newline c (H c Hin)).
Qed.

Lemma search_bits (s : Py.str) :
  s <> [] -> forallb Py.is_bit s = true ->
  search_class_plus Py.is_bit s = true /\ Py.is_binary s = true.
Proof.
  intros Hne H. unfold search_class_plus, Py.is_binary.
  rewrite strip_final_newline_bits by assumption.
  destruct s; [contradiction|]. split; assumption.
Qed.

(** X2.  [hex_to_bitstring] spells a non-negative number in binary, in at
    least 42 characters: reading the string back in base 2 gives the number,
    and the string is 42 characters long exactly when the number is below
    2^42 (a longer number takes as many characters as it has bits). *)
Theorem hex_to_bitstring_round_trip (n : Z) :
  0 <= n ->
  exists s,
    hex_to_bitstring n = Return s /\
    Py.int2 s = Return n /\
    Py.len s = Z.max 42 (Z.log2 n + 1).
Proof.
  intros Hn. unfold hex_to_bitstring, BinaryString, format_0_42b.
  destruct n as [|p|p]; [| |lia].
  - eexists. split; [reflexivity|]. split; reflexivity.
  - set (body := Py.pos_digits p []).
    set (fill := repeat "0"%char (Z.to_nat (42 - Py.len body))).
    assert (Hbits : forallb Py.is_bit (fill ++ body) = true).
    { rewrite forallb_app. unfold fill, body.
      now rewrite forallb_repeat_zero, pos_digits_bits. }
    assert (Hne : fill ++ body <> []).
    { intros E. apply (f_equal Py.len) in E. rewrite len_app in E.
      unfold body in E. rewrite pos_digits_len in E.
      pose proof (Z.log2_nonneg (Zpos p)). pose proof (len_nonneg fill).
      change (Py.len (@nil ascii)) with 0 in E. lia. }
    destruct (search_bits _ Hne Hbits) as [Hsearch Hbin].
    rewrite Hsearch. cbn [negb]. eexists. split; [reflexivity|]. split.
    + rewrite (int2_binary _ Hbin). f_equal. unfold fill.
      rewrite bits_value_zeros. apply pos_digits_value.
    + rewrite len_app. unfold fill at 1. unfold Py.len at 1.
      rewrite repeat_length. fold (Py.len body).
      assert (Hb : Py.len body = Z.log2 (Zpos p) + 1) by apply pos_digits_len.
      pose proof (Z.log2_nonneg (Zpos p)). lia.
Qed.

Lemma hex_to_bitstring_round_trip_witness :
  exists s,
    hex_to_bitstring 0xbc6348b035e7 = Return s /\
    Py.int2 s = Return 0xbc6348b035e7 /\
    Py.len s = Z.max 42 (Z.log2 0xbc6348b035e7 + 1).
Proof. apply hex_to_bitstring_round_trip. lia. Defined.

(** For a negative number the minus sign ends up among the digits and the
    BinaryString constructor refuses the string. *)
Example hex_to_bitstring_negative : hex_to_bitstring (-5) = Raise ValueError.
Proof. reflexivity. Qed.

(** ** wrap_add_16: failures, frame, repetition *)

Lemma checksum_loop_odd (data : list Z) :
  Z.even (Py.len data) = false ->
  forall acc, checksum_loop data acc = Raise IndexError.
Proof.
  induction data as [|a|a b l IH] using pairs_ind; intros Hodd acc.
  - discriminate Hodd.
  - reflexivity.
  - rewrite even_len_cons2 in Hodd. cbn [checksum_loop]. now apply IH.
Qed.

Lemma setitem_past_end (b : list Z) (i v : Z) :
  Py.len b <= i -> Py.setitem b i v = Raise IndexError.
Proof.
  intros Hi. unfold Py.setitem. pose proof (len_nonneg b).
  replace (i <? 0) with false by (symmetry; apply Z.ltb_ge; lia).
  replace (i <? Py.len b) with false by (symmetry; apply Z.ltb_ge; lia).
  now rewrite andb_false_r.
Qed.

(** X3.  At a non-negative offset [wrap_add_16] raises IndexError whenever
    the buffer has an odd number of bytes or does not hold both bytes of the
    checksum, whatever the buffer contains. *)
Theorem wrap_add_16_index_error (data : list Z) (k : Z) :
  0 <= k ->
  Z.even (Py.len data) = false \/ Py.len data <= k + 1 ->
  wrap_add_16 data k = Raise IndexError.
Proof.
  intros Hk Hbad. unfold wrap_add_16. rewrite Z.add_0_r.
  destruct (Z_lt_le_dec (k + 1) (Py.len data)) as [Hin|Hout].
  - destruct Hbad as [Hodd|Hlen]; [|lia].
    rewrite setitem_ok by (auto using is_byte_0; lia). cbn [bind].
    rewrite setitem_ok by (auto using is_byte_0; rewrite len_list_set; lia).
    cbn [bind]. rewrite checksum_loop_odd; [reflexivity|].
    now rewrite !len_list_set.
  - destruct (Z_lt_le_dec k (Py.len data)) as [Hk0|Hk0].
    + rewrite setitem_ok by (auto using is_byte_0; lia). cbn [bind].
      rewrite setitem_past_end by (rewrite len_list_set; lia). reflexivity.
    + now rewrite setitem_past_end by lia.
Qed.

Lemma wrap_add_16_index_error_witness :
  wrap_add_16 [69; 0; 0] 1 = Raise IndexError /\
  wrap_add_16 [69; 0; 0; 115] 3 = Raise IndexError.
Proof.
  split.
  - apply wrap_add_16_index_error; [lia|left; reflexivity].
  - apply wrap_add_16_index_error; [lia|right; unfold Py.len; cbn; lia].
Defined.

Lemma nth_list_set_other {A : Type} (i j : nat) (v d : A) (l : list A) :
  i <> j -> nth j (Py.list_set i v l) d = nth j l d.
Proof.
  revert i j; induction l as [|h t IH]; intros [|i] [|j] Hij; cbn; auto.
  congruence.
Qed.

(** A pair of stores at two different places overwrites an earlier pair. *)
Lemma list_set_pair_twice {A : Type} (i j : nat) (a b a' b' : A) (l : list A) :
  i <> j ->
  Py.list_set j b' (Py.list_set i a' (Py.list_set j b (Py.list_set i a l)))
  = Py.list_set j b' (Py.list_set i a' l).
Proof.
  intros Hij. rewrite (list_set_comm i j a' b) by assumption.
  now rewrite !list_set_twice.
Qed.

Lemma zeroed_at_stored_at (k c : Z) (data : list Z) :
  0 <= k -> zeroed_at k (stored_at k c data) = zeroed_at k data.
Proof.
  intros Hk. unfold zeroed_at, stored_at. apply list_set_pair_twice. lia.
Qed.

Lemma stored_at_bytes (k c : Z) (data : list Z) :
  Forall is_byte data -> 0 <= c <= 65535 -> Forall is_byte (stored_at k c data).
Proof.
  intros Hb Hc. unfold stored_at. apply Forall_list_set; [apply Forall_list_set|]; auto.
  - unfold is_byte. split; [apply Z.div_pos; lia|apply Z.div_lt_upper_bound; lia].
  - apply Z.mod_pos_bound. lia.
Qed.

Lemma internet_checksum_range (data : list Z) :
  Forall is_byte data -> 0 <= internet_checksum data <= 65535.
Proof.
  intros Hb. rewrite internet_checksum_canon by assumption.
  pose proof (canon_range _ (words_be_nonneg data Hb)). lia.
Qed.

(** X4.  On a buffer of bytes of even length that holds the two bytes at a
    non-negative offset, [wrap_add_16] returns a buffer of the same length
    that differs from the input at the two checksum bytes only, and whose
    value does not depend on what those two bytes were: running it again on
    its own output returns that output. *)
Theorem wrap_add_16_frame_and_repeat (data : list Z) (k : Z) :
  Forall is_byte data -> Z.even (Py.len data) = true ->
  0 <= k -> k + 1 < Py.len data ->
  exists buf,
    wrap_add_16 data k = Return buf /\
    Py.len buf = Py.len data /\
    Forall is_byte buf /\
    (forall i, i <> Z.to_nat k -> i <> Z.to_nat (k + 1) -> nth i buf 0 = nth i data 0) /\
    wrap_add_16 buf k = Return buf /\
    (forall a b, is_byte a -> is_byte b ->
                 wrap_add_16 (Py.list_set (Z.to_nat (k + 1)) b
                                (Py.list_set (Z.to_nat k) a data)) k
                 = Return buf).
Proof.
  intros Hb Hev Hk Hin.
  pose proof (wrap_add_16_spec data k Hb Hev Hk Hin) as Hspec. cbv zeta in Hspec.
  fold (zeroed_at k data) in Hspec.
  fold (stored_at k (internet_checksum (zeroed_at k data)) data) in Hspec.
  set (c := internet_checksum (zeroed_at k data)) in *.
  assert (Hzb : Forall is_byte (zeroed_at k data))
    by (unfold zeroed_at; auto with bytes).
  assert (Hc : 0 <= c <= 65535) by (apply internet_checksum_range; assumption).
  assert (Hsb : Forall is_byte (stored_at k c data)) by now apply stored_at_bytes.
  assert (Hlen : Py.len (stored_at k c data) = Py.len data)
    by (unfold stored_at; now rewrite !len_list_set).
  exists (stored_at k c data). repeat split; auto.
  - intros i Hi Hi1. unfold stored_at. now rewrite !nth_list_set_other by auto.
  - pose proof (wrap_add_16_spec (stored_at k c data) k Hsb
                  ltac:(now rewrite Hlen) Hk ltac:(now rewrite Hlen)) as H2.
    cbv zeta in H2. fold (zeroed_at k (stored_at k c data)) in H2.
    rewrite zeroed_at_stored_at in H2 by assumption. fold c in H2.
    fold (stored_at k c (stored_at k c data)) in H2. rewrite H2. f_equal.
    unfold stored_at. apply list_set_pair_twice. lia.
  - intros a b Ha Hbb.
    set (data' := Py.list_set (Z.to_nat (k + 1)) b (Py.list_set (Z.to_nat k) a data)).
    assert (Hb' : Forall is_byte data')
      by (unfold data'; apply Forall_list_set; [apply Forall_list_set|]; auto).
    assert (Hlen' : Py.len data' = Py.len data)
      by (unfold data'; now rewrite !len_list_set).
    pose proof (wrap_add_16_spec data' k Hb' ltac:(now rewrite Hlen') Hk
                  ltac:(now rewrite Hlen')) as H2.
    cbv zeta in H2.
    assert (Hne : Z.to_nat k <> Z.to_nat (k + 1)) by lia.
    assert (Hz : Py.list_set (Z.to_nat (k + 1)) 0 (Py.list_set (Z.to_nat k) 0 data')
                 = zeroed_at k data).
    { unfold data', zeroed_at. now apply list_set_pair_twice. }
    rewrite Hz in H2. fold c in H2. rewrite H2. f_equal.
    unfold data', stored_at. now apply list_set_pair_twice.
Qed.

Lemma wrap_add_16_frame_and_repeat_witness :
  exists buf,
    wrap_add_16 ipv4_raw 10 = Return buf /\
    Py.len buf = Py.len ipv4_raw /\
    Forall is_byte buf /\
    (forall i, i <> Z.to_nat 10 -> i <> Z.to_nat (10 + 1) ->
               nth i buf 0 = nth i ipv4_raw 0) /\
    wrap_add_16 buf 10 = Return buf /\
    (forall a b, is_byte a -> is_byte b ->
                 wrap_add_16 (Py.list_set (Z.to_nat (10 + 1)) b
                                (Py.list_set (Z.to_nat 10) a ipv4_raw)) 10
                 = Return buf).
Proof.
  apply wrap_add_16_frame_and_repeat.
  - unfold ipv4_raw, is_byte. repeat constructor; lia.
  - reflexivity.
  - lia.
  - vm_compute. reflexivity.
Defined.

(** ** ValueRange: bounds and counter *)

(** X5.  Whatever its action, a generator with a non-negative counter and a
    non-negative step returns a value between the smaller and the larger of
    [start_value] and [stop_value]; the call leaves the counter at 1 (after
    a wrap) or one above what it was, and changes nothing else. *)
Theorem get_current_value_between_bounds (vr : ValueRange.t) (rnd : Random) :
  0 <= ValueRange.current_count vr -> 0 <= ValueRange.step_value vr ->
  Z.min (ValueRange.start_value vr) (ValueRange.stop_value vr)
    <= fst (fst (ValueRange.get_current_value vr rnd))
    <= Z.max (ValueRange.start_value vr) (ValueRange.stop_value vr) /\
  (ValueRange.current_count (snd (fst (ValueRange.get_current_value vr rnd))) = 1 \/
   ValueRange.current_count (snd (fst (ValueRange.get_current_value vr rnd)))
   = ValueRange.current_count vr + 1) /\
  ValueRange.set_current_count (snd (fst (ValueRange.get_current_value vr rnd)))
                               (ValueRange.current_count vr) = vr.
Proof.
  intros Hc Hs. destruct vr as [start step stop act restart count].
  cbn [ValueRange.current_count ValueRange.step_value ValueRange.start_value
       ValueRange.stop_value] in *.
  assert (Hprod : 0 <= count * step) by nia.
  unfold ValueRange.get_current_value.
  cbn [ValueRange.action ValueRange.current_count ValueRange.step_value
       ValueRange.start_value ValueRange.stop_value].
  destruct (member_eqb act (OfModifierActionOption INC)).
  - destruct (Z.gtb_spec (start + count * step) stop);
      cbn; repeat split; try lia; auto.
  - destruct (member_eqb act (OfModifierActionOption DEC)).
    + destruct (Z.ltb_spec (start - count * step) stop);
        cbn; repeat split; try lia; auto.
    + pose proof (randint_in_range rnd (Z.min start stop) (Z.max start stop)
                    ltac:(lia)) as Hr.
      unfold randint in *. cbn in *. repeat split; try lia; auto.
Qed.

Lemma get_current_value_between_bounds_witness :
  Z.min 10 1 <= fst (fst (ValueRange.get_current_value
                            (ValueRange.mk 10 3 1 (OfModifierActionOption DEC) false 4)
                            rnd0)) <= Z.max 10 1.
Proof.
  apply (get_current_value_between_bounds
           (ValueRange.mk 10 3 1 (OfModifierActionOption DEC) false 4) rnd0);
    cbn; lia.
Defined.

(** ** Segment: lookup and assignment by field name *)

Lemma find_field_some (fields : list SegmentField.t) (n : string) (f : SegmentField.t) :
  find_field fields n = Some f <->
  exists pre post,
    fields = pre ++ f :: post /\ SegmentField.name f = n /\
    Forall (fun g => SegmentField.name g <> n) pre.
Proof.
  induction fields as [|g fields IH]; cbn [find_field].
  - split; [discriminate|]. intros (pre & post & E & _). destruct pre; discriminate.
  - destruct (String.eqb_spec (SegmentField.name g) n) as [E|E].
    + split.
      * intros H. injection H as <-. exists [], fields. repeat split; auto.
      * intros (pre & post & Hf & Hn & Hpre). destruct pre as [|g' pre].
        -- cbn in Hf. congruence.
        -- cbn in Hf. injection Hf as <- _. inversion Hpre; subst. contradiction.
    + rewrite IH. split.
      * intros (pre & post & -> & Hn & Hpre). exists (g :: pre), post.
        repeat split; auto.
      * intros (pre & post & Hf & Hn & Hpre). destruct pre as [|g' pre].
        -- cbn in Hf. injection Hf as <- _. contradiction.
        -- cbn in Hf. injection Hf as <- ->. inversion Hpre; subst.
           exists pre, post. repeat split; auto.
Qed.

Lemma find_field_none (fields : list SegmentField.t) (n : string) :
  find_field fields n = None <-> Forall (fun g => SegmentField.name g <> n) fields.
Proof.
  induction fields as [|g fields IH]; cbn [find_field].
  - split; auto.
  - destruct (String.eqb_spec (SegmentField.name g) n) as [E|E].
    + split; [discriminate|]. intros H. inversion H; subst. contradiction.
    + rewrite IH. split; [intros H; constructor; auto|intros H; now inversion H].
Qed.

(** X6.  [segment[name]] returns the first field, in declared order, that
    carries the name, and raises KeyError exactly when no field does. *)
Theorem Segment_getitem_first (self : Segment.t) (field_name : string) :
  (forall f, Segment_getitem self field_name = Return f <->
     exists pre post,
       Segment.fields self = pre ++ f :: post /\
       SegmentField.name f = field_name /\
       Forall (fun g => SegmentField.name g <> field_name) pre) /\
  (Segment_getitem self field_name = Raise KeyError <->
     Forall (fun g => SegmentField.name g <> field_name) (Segment.fields self)) /\
  (forall e, Segment_getitem self field_name = Raise e -> e = KeyError).
Proof.
  unfold Segment_getitem. split; [|split].
  - intros f. rewrite <- find_field_some.
    destruct (find_field (Segment.fields self) field_name);
      split; intros H; congruence.
  - rewrite <- find_field_none.
    destruct (find_field (Segment.fields self) field_name);
      split; intros H; congruence.
  - intros e. destruct (find_field (Segment.fields self) field_name); congruence.
Qed.

Lemma replace_field_same (fields : list SegmentField.t) (n : string) (f : SegmentField.t) :
  find_field fields n = Some f -> replace_field fields n f = fields.
Proof.
  induction fields as [|g fields IH]; cbn [find_field replace_field]; [discriminate|].
  destruct (String.eqb (SegmentField.name g) n).
  - intros H. injection H as ->. reflexivity.
  - intros H. now rewrite IH.
Qed.

Lemma find_replace_same (fields : list SegmentField.t) (n : string)
  (f f' : SegmentField.t) :
  find_field fields n = Some f -> SegmentField.name f' = n ->
  find_field (replace_field fields n f') n = Some f'.
Proof.
  intros Hf Hn.
  induction fields as [|g fields IH]; cbn [find_field replace_field] in *;
    [discriminate|].
  destruct (String.eqb (SegmentField.name g) n) eqn:E.
  - cbn [find_field]. rewrite Hn, String.eqb_refl. reflexivity.
  - cbn [find_field]. rewrite E. auto.
Qed.

Lemma find_replace_other (fields : list SegmentField.t) (n m : string)
  (f' : SegmentField.t) :
  SegmentField.name f' = n -> m <> n ->
  find_field (replace_field fields n f') m = find_field fields m.
Proof.
  intros Hn Hm.
  induction fields as [|g fields IH]; cbn [find_field replace_field]; [reflexivity|].
  destruct (String.eqb_spec (SegmentField.name g) n) as [E|E].
  - cbn [find_field]. rewrite Hn.
    destruct (String.eqb_spec n m); [congruence|].
    destruct (String.eqb_spec (SegmentField.name g) m); [congruence|reflexivity].
  - cbn [find_field]. now rewrite IH.
Qed.

Lemma fold_bit_length_shift (fields : list SegmentField.t) (a : Z) :
  fold_left (fun acc f => acc + SegmentField.bit_length f) fields a
  = a + fold_left (fun acc f => acc + SegmentField.bit_length f) fields 0.
Proof.
  revert a. induction fields as [|g fields IH]; intros a; cbn [fold_left]; [lia|].
  rewrite (IH (a + SegmentField.bit_length g)), (IH (0 + SegmentField.bit_length g)).
  lia.
Qed.

Lemma replace_field_bit_length (fields : list SegmentField.t) (n : string)
  (f f' : SegmentField.t) :
  find_field fields n = Some f ->
  SegmentField.bit_length f' = SegmentField.bit_length f ->
  fold_left (fun acc g => acc + SegmentField.bit_length g) (replace_field fields n f') 0
  = fold_left (fun acc g => acc + SegmentField.bit_length g) fields 0.
Proof.
  intros Hf Hb.
  induction fields as [|g fields IH]; cbn [find_field replace_field] in *;
    [discriminate|].
  destruct (String.eqb (SegmentField.name g) n).
  - injection Hf as ->. cbn [fold_left]. now rewrite Hb.
  - cbn [fold_left].
    rewrite (fold_bit_length_shift (replace_field fields n f')),
            (fold_bit_length_shift fields).
    now rewrite IH.
Qed.

(** X7.  [segment[name] = v]: with no field of that name it raises KeyError,
    with a field whose [bit_length] is not [len(v)] it raises ValueError,
    and in both cases the segment is unchanged.  Otherwise the named field
    holds [v] afterwards, every lookup by another name gives what it gave
    before, and the segment length in bits is the same. *)
Theorem Segment_setitem_getitem (self : Segment.t) (field_name : string)
  (v : Py.str) :
  (Segment_getitem self field_name = Raise KeyError ->
   Segment_setitem self field_name v = (Raise KeyError, self)) /\
  (forall f, Segment_getitem self field_name = Return f ->
     Py.len v <> SegmentField.bit_length f ->
     Segment_setitem self field_name v = (Raise ValueError, self)) /\
  (forall f, Segment_getitem self field_name = Return f ->
     Py.len v = SegmentField.bit_length f ->
     fst (Segment_setitem self field_name v) = Return tt /\
     Segment_getitem (snd (Segment_setitem self field_name v)) field_name
     = Return (SegmentField.set_value f v) /\
     (forall other, other <> field_name ->
        Segment_getitem (snd (Segment_setitem self field_name v)) other
        = Segment_getitem self other) /\
     Segment_len (snd (Segment_setitem self field_name v)) = Segment_len self).
Proof.
  unfold Segment_setitem, Segment_getitem, Segment_len. split; [|split].
  - destruct (find_field (Segment.fields self) field_name); [discriminate|].
    reflexivity.
  - intros f Hf Hlen.
    destruct (find_field (Segment.fields self) field_name) as [g|] eqn:Hg;
      [|discriminate].
    injection Hf as ->. unfold SegmentField.set_field_value.
    destruct (Z.eqb_spec (Py.len v) (SegmentField.bit_length f)); [contradiction|].
    rewrite replace_field_same by assumption. destruct self; reflexivity.
  - intros f Hf Hlen.
    destruct (find_field (Segment.fields self) field_name) as [g|] eqn:Hg;
      [|discriminate].
    injection Hf as ->. unfold SegmentField.set_field_value.
    rewrite Hlen, Z.eqb_refl. cbn [fst snd Segment.set_fields Segment.fields].
    assert (Hname : SegmentField.name (SegmentField.set_value f v) = field_name).
    { apply find_field_some in Hg. destruct Hg as (_ & _ & _ & Hn & _). exact Hn. }
    split; [reflexivity|]. split; [|split].
    + now rewrite (find_replace_same _ _ f).
    + intros other Ho. now rewrite find_replace_other.
    + now apply (replace_field_bit_length _ _ f).
Qed.

(** ** Segment.prepare on fields without generators *)

Lemma join_prepare_plain (fs : list SegmentField.t) (rnd : Random) :
  Forall (fun f => SegmentField.value_range f = None) fs ->
  Segment.join_prepare fs rnd
  = (Return (List.concat (map SegmentField.value fs)), fs, rnd).
Proof.
  induction 1 as [|f fs Hf Hfs IH]; [reflexivity|].
  cbn [Segment.join_prepare]. rewrite prepare_without_value_range by assumption.
  rewrite IH. reflexivity.
Qed.

Lemma setitem_len (b b' : list Z) (i v : Z) :
  Py.setitem b i v = Return b' -> Py.len b' = Py.len b.
Proof.
  unfold Py.setitem.
  destruct (_ && _); [|discriminate]. destruct (_ && _); [|discriminate].
  intros H. injection H as <-. apply len_list_set.
Qed.

Lemma wrap_add_16_len (data buf : list Z) (k : Z) :
  wrap_add_16 data k = Return buf -> Py.len buf = Py.len data.
Proof.
  unfold wrap_add_16.
  destruct (Py.setitem data (k + 0) 0) as [d1|] eqn:E1; [|discriminate].
  cbn [bind].
  destruct (Py.setitem d1 (k + 1) 0) as [d2|] eqn:E2; [|discriminate].
  cbn [bind].
  destruct (checksum_loop d2 0) as [c|]; [|discriminate]. cbn [bind].
  destruct (Py.setitem d2 (k + 0) _) as [d3|] eqn:E3; [|discriminate].
  cbn [bind].
  destruct (Py.setitem d3 (k + 1) _) as [d4|] eqn:E4; [|discriminate].
  cbn [bind]. intros H. injection H as <-.
  apply setitem_len in E1, E2, E3, E4. lia.
Qed.

Lemma concat_values_len (fs : list SegmentField.t) :
  Forall (fun f => Py.len (SegmentField.value f) = SegmentField.bit_length f) fs ->
  Py.len (List.concat (map SegmentField.value fs))
  = fold_left (fun acc f => acc + SegmentField.bit_length f) fs 0.
Proof.
  induction 1 as [|f fs Hf Hfs IH]; [reflexivity|].
  cbn [map List.concat fold_left]. rewrite len_app, IH, Hf.
  rewrite (fold_bit_length_shift fs (0 + SegmentField.bit_length f)). lia.
Qed.

Lemma concat_values_bits (fs : list SegmentField.t) :
  Forall (fun f => forallb Py.is_bit (SegmentField.value f) = true) fs ->
  forallb Py.is_bit (List.concat (map SegmentField.value fs)) = true.
Proof.
  induction 1 as [|f fs Hf Hfs IH]; [reflexivity|].
  cbn [map List.concat]. now rewrite forallb_app, Hf, IH.
Qed.

Lemma prepare_plain_state (s : Segment.t) (rnd : Random) :
  Forall (fun f => SegmentField.value_range f = None) (Segment.fields s) ->
  snd (fst (Segment.prepare s rnd)) = s /\
  snd (Segment.prepare s rnd) = rnd /\
  Segment.prepare (snd (fst (Segment.prepare s rnd))) (snd (Segment.prepare s rnd))
  = Segment.prepare s rnd.
Proof.
  intros H.
  assert (Hs : snd (fst (Segment.prepare s rnd)) = s /\
               snd (Segment.prepare s rnd) = rnd).
  { unfold Segment.prepare. rewrite join_prepare_plain by assumption.
    cbn [fst snd]. split; [destruct s; reflexivity|reflexivity]. }
  destruct Hs as [Hs Hr]. rewrite Hs, Hr. auto.
Qed.

(** X8.  On a segment none of whose fields has a generator, [prepare()] is
    repeatable: it leaves the segment and the random source as they were,
    so a second call returns what the first returned. *)
Theorem Segment_prepare_plain_repeatable (s : Segment.t) (rnd : Random) :
  Forall (fun f => SegmentField.value_range f = None) (Segment.fields s) ->
  snd (fst (Segment.prepare s rnd)) = s /\
  snd (Segment.prepare s rnd) = rnd /\
  Segment.prepare (snd (fst (Segment.prepare s rnd))) (snd (Segment.prepare s rnd))
  = Segment.prepare s rnd.
Proof. exact (prepare_plain_state s rnd). Qed.

Lemma Segment_prepare_plain_repeatable_witness :
  snd (fst (Segment.prepare ipv4_header rnd0)) = ipv4_header /\
  snd (Segment.prepare ipv4_header rnd0) = rnd0 /\
  Segment.prepare (snd (fst (Segment.prepare ipv4_header rnd0)))
                  (snd (Segment.prepare ipv4_header rnd0))
  = Segment.prepare ipv4_header rnd0.
Proof.
  apply Segment_prepare_plain_repeatable. repeat constructor.
Defined.

Lemma prepare_plain_bytes (s : Segment.t) (rnd : Random) :
  Forall (fun f => SegmentField.value_range f = None) (Segment.fields s) ->
  Forall (fun f => forallb Py.is_bit (SegmentField.value f) = true) (Segment.fields s) ->
  Forall (fun f => Py.len (SegmentField.value f) = SegmentField.bit_length f)
         (Segment.fields s) ->
  (forall buf, fst (fst (Segment.prepare s rnd)) = Return buf ->
     Py.len buf = (Segment_len s + 7) / 8) /\
  (Segment.truthy (Segment.checksum_offset s) = false -> 0 < Segment_len s ->
   exists buf,
     fst (fst (Segment.prepare s rnd)) = Return buf /\
     be_value buf
     = Py.bits_value (List.concat (map SegmentField.value (Segment.fields s)))).
Proof.
  intros Hplain Hbits Hlen.
  set (bits := List.concat (map SegmentField.value (Segment.fields s))).
  assert (Hl : Py.len bits = Segment_len s) by (apply concat_values_len; assumption).
  assert (Hb : forallb Py.is_bit bits = true) by (apply concat_values_bits; assumption).
  assert (Hcase : bits = [] \/ Py.is_binary bits = true).
  { destruct bits as [|c r] eqn:E; [now left|right].
    apply search_bits; [discriminate|assumption]. }
  pose proof (len_nonneg bits) as Hnn.
  unfold Segment.prepare. rewrite join_prepare_plain by assumption.
  fold bits. cbn [fst bind].
  destruct Hcase as [Hnil|Hbin].
  - rewrite Hnil in *. split.
    + intros buf H. discriminate H.
    + intros _ Hpos. change (Py.len (@nil ascii)) with 0 in Hl. lia.
  - destruct (bitstring_to_bytes_binary bits Hbin) as (raw & Hraw & Hrl & _ & Hval).
    rewrite Hraw. cbn [bind]. rewrite Hl in Hrl. split.
    + intros buf.
      destruct (Segment.truthy (Segment.checksum_offset s)).
      * destruct (Segment.checksum_offset s) as [k|].
        -- intros H. apply wrap_add_16_len in H. congruence.
        -- intros H. injection H as <-. assumption.
      * intros H. injection H as <-. assumption.
    + intros Hno _. rewrite Hno. exists raw. split; [reflexivity|assumption].
Qed.

(** X9.  On a segment whose fields have no generator and hold binary digits,
    as many as their [bit_length] says, a buffer returned by [prepare()] has
    ceil(len(segment) / 8) bytes, checksum fix-up or not; and without a
    checksum offset a segment of at least one bit always gets its buffer,
    which spells the binary value of the concatenated fields. *)
Theorem Segment_prepare_plain_length (s : Segment.t) (rnd : Random) :
  Forall (fun f => SegmentField.value_range f = None) (Segment.fields s) ->
  Forall (fun f => forallb Py.is_bit (SegmentField.value f) = true) (Segment.fields s) ->
  Forall (fun f => Py.len (SegmentField.value f) = SegmentField.bit_length f)
         (Segment.fields s) ->
  (forall buf, fst (fst (Segment.prepare s rnd)) = Return buf ->
     Py.len buf = (Segment_len s + 7) / 8) /\
  (Segment.truthy (Segment.checksum_offset s) = false -> 0 < Segment_len s ->
   exists buf,
     fst (fst (Segment.prepare s rnd)) = Return buf /\
     be_value buf
     = Py.bits_value (List.concat (map SegmentField.value (Segment.fields s)))).
Proof. exact (prepare_plain_bytes s rnd). Qed.

Lemma Segment_prepare_plain_length_witness :
  (forall buf, fst (fst (Segment.prepare ipv4_header rnd0)) = Return buf ->
     Py.len buf = (Segment_len ipv4_header + 7) / 8) /\
  Segment_len ipv4_header = 160.
Proof.
  split; [|reflexivity].
  apply (Segment_prepare_plain_length ipv4_header rnd0);
    repeat constructor.
Defined.

(** ** Construction of a segment and address auto-fill *)

Lemma save_flags_outcome (self : Segment.t) (sn dn : string) :
  match find_field (Segment.fields self) sn, find_field (Segment.fields self) dn with
  | Some a, Some b =>
      save_flags self sn dn
      = (Return tt,
         set_zero_flags self (Some (is_all_zero (SegmentField.value a)))
                        (Some (is_all_zero (SegmentField.value b))))
  | Some a, None =>
      save_flags self sn dn
      = (Raise KeyError,
         set_zero_flags self (Some (is_all_zero (SegmentField.value a)))
                        (Segment.is_field_dst_value_all_zero self))
  | None, _ => save_flags self sn dn = (Raise KeyError, self)
  end.
Proof.
  unfold save_flags, Segment_getitem.
  destruct (find_field (Segment.fields self) sn) as [a|]; [|reflexivity].
  cbn [set_zero_flags Segment.fields].
  destruct (find_field (Segment.fields self) dn) as [b|]; reflexivity.
Qed.

Lemma Segment_init_outcome (data : Segment.t) :
  (Segment.segment_type data = ETHERNET ->
   (forall src dst,
      Segment_getitem data "Src MAC addr" = Return src ->
      Segment_getitem data "Dst MAC addr" = Return dst ->
      Segment_init data
      = Return (set_zero_flags data
                  (Some (is_all_zero (SegmentField.value src)))
                  (Some (is_all_zero (SegmentField.value dst))))) /\
   (Segment_getitem data "Src MAC addr" = Raise KeyError \/
    Segment_getitem data "Dst MAC addr" = Raise KeyError ->
    Segment_init data = Raise KeyError)) /\
  (Segment.segment_type data <> ETHERNET ->
   Segment.segment_type data <> IP ->
   Segment.segment_type data <> IPV6 ->
   Segment_init data = Return data).
Proof.
  unfold Segment_init, saving_is_original_value_zero, is_ethernet, is_ipv4, is_ipv6,
    SegmentType_eqb.
  split.
  - intros ->. cbn [Segment.segment_type].
    destruct (SegmentType_eq_dec ETHERNET ETHERNET) as [_|N]; [|contradiction].
    pose proof (save_flags_outcome data "Src MAC addr" "Dst MAC addr") as H.
    unfold Segment_getitem.
    destruct (find_field (Segment.fields data) "Src MAC addr") as [a|];
      destruct (find_field (Segment.fields data) "Dst MAC addr") as [b|];
      rewrite H; split; intros; try congruence; try reflexivity;
      try (destruct H0; discriminate).
    + injection H0 as <-. injection H1 as <-. reflexivity.
  - intros H1 H2 H3.
    destruct (SegmentType_eq_dec (Segment.segment_type data) ETHERNET); [contradiction|].
    destruct (SegmentType_eq_dec (Segment.segment_type data) IP); [contradiction|].
    destruct (SegmentType_eq_dec (Segment.segment_type data) IPV6); [contradiction|].
    reflexivity.
Qed.

(** X10.  Constructing an Ethernet segment needs a field named
    'Src MAC addr' and one named 'Dst MAC addr': without either the
    constructor raises KeyError; with both, the segment is the data given,
    its two flags telling whether the value of each address field is all
    zeros.  A segment that is none of Ethernet, IPv4 and IPv6 is constructed
    from any data, flags untouched. *)
Theorem Segment_init_flags (data : Segment.t) :
  (Segment.segment_type data = ETHERNET ->
   (forall src dst,
      Segment_getitem data "Src MAC addr" = Return src ->
      Segment_getitem data "Dst MAC addr" = Return dst ->
      Segment_init data
      = Return (set_zero_flags data
                  (Some (is_all_zero (SegmentField.value src)))
                  (Some (is_all_zero (SegmentField.value dst))))) /\
   (Segment_getitem data "Src MAC addr" = Raise KeyError \/
    Segment_getitem data "Dst MAC addr" = Raise KeyError ->
    Segment_init data = Raise KeyError)) /\
  (Segment.segment_type data <> ETHERNET ->
   Segment.segment_type data <> IP ->
   Segment.segment_type data <> IPV6 ->
   Segment_init data = Return data).
Proof. exact (Segment_init_outcome data). Qed.

(** Projections of a segment rebuilt by one of its setters. *)
Ltac segment_simpl :=
  cbn [Segment.fields Segment.set_fields set_zero_flags Segment.segment_type
       Segment.checksum_offset Segment.is_field_src_value_all_zero
       Segment.is_field_dst_value_all_zero flag_set negb andb fst snd] in *.

Lemma find_field_name (fields : list SegmentField.t) (n : string) (f : SegmentField.t) :
  find_field fields n = Some f -> SegmentField.name f = n.
Proof. intros H. apply find_field_some in H. now destruct H as (_ & _ & _ & Hn & _). Qed.

Lemma assign_field_value_found (s : Segment.t) (n : string) (f : SegmentField.t)
  (v : Py.str) :
  find_field (Segment.fields s) n = Some f ->
  assign_field_value s n v
  = (Return tt,
     Segment.set_fields s (replace_field (Segment.fields s) n (SegmentField.set_value f v))).
Proof. intros H. unfold assign_field_value, Segment_getitem. now rewrite H. Qed.

(** The destination address [setup_segment_ethernet] works with: the ARP
    address when there is one that is not all zeros, else the plain one. *)
Lemma chosen_dst_mac (dst_mac : Py.str) (arp_mac : option Py.str) :
  (match arp_mac with
   | Some arp =>
       if negb (str_truthy arp_mac) || is_all_zero arp then dst_mac else arp
   | None => dst_mac
   end)
  = match arp_mac with
    | Some arp => if is_all_zero arp then dst_mac
                  else match arp with [] => dst_mac | _ => arp end
    | None => dst_mac
    end.
Proof.
  destruct arp_mac as [[|c r]|]; cbn [str_truthy negb orb]; reflexivity.
Qed.

(** X11.  Auto-fill keeps what the operator wrote: on an Ethernet segment
    constructed with address fields that are not all zeros,
    [setup_segment_ethernet] changes nothing, whatever addresses it is
    given; and on any constructed Ethernet segment it changes nothing when
    the addresses it is given are all zeros and there is no ARP address. *)
Theorem setup_segment_ethernet_keeps_literals (data s : Segment.t)
  (src dst : SegmentField.t) :
  Segment.segment_type data = ETHERNET ->
  Segment_init data = Return s ->
  Segment_getitem data "Src MAC addr" = Return src ->
  Segment_getitem data "Dst MAC addr" = Return dst ->
  (is_all_zero (SegmentField.value src) = false ->
   is_all_zero (SegmentField.value dst) = false ->
   forall src_mac dst_mac arp_mac,
     setup_segment_ethernet s src_mac dst_mac arp_mac = (Return tt, s)) /\
  (forall src_mac dst_mac,
     is_all_zero src_mac = true -> is_all_zero dst_mac = true ->
     setup_segment_ethernet s src_mac dst_mac None = (Return tt, s)).
Proof.
  intros Hty Hinit Hsrc Hdst.
  destruct (Segment_init_outcome data) as [Heth _].
  destruct (Heth Hty) as [Hok _]. rewrite (Hok src dst Hsrc Hdst) in Hinit.
  injection Hinit as <-. split.
  - intros Hzs Hzd src_mac dst_mac arp_mac. unfold setup_segment_ethernet.
    cbn [set_zero_flags Segment.is_field_dst_value_all_zero
         Segment.is_field_src_value_all_zero].
    rewrite Hzs, Hzd. cbn [flag_set]. rewrite !andb_false_r. reflexivity.
  - intros src_mac dst_mac Hs Hd. unfold setup_segment_ethernet.
    rewrite Hs, Hd. reflexivity.
Qed.

(** X12.  Auto-fill of blank addresses: on an Ethernet segment constructed
    with both address fields all zeros, [setup_segment_ethernet] with a
    source address that is not all zeros stores it in 'Src MAC addr', and
    stores in 'Dst MAC addr' the ARP address when that is given and not all
    zeros, else the destination address when that is not all zeros.  The
    addresses are stored whatever their length; the flags and the bit
    length of the segment stay as they were. *)
Theorem setup_segment_ethernet_fills_blanks (data s : Segment.t)
  (src dst : SegmentField.t) (src_mac dst_mac chosen : Py.str)
  (arp_mac : option Py.str) :
  Segment.segment_type data = ETHERNET ->
  Segment_init data = Return s ->
  Segment_getitem data "Src MAC addr" = Return src ->
  Segment_getitem data "Dst MAC addr" = Return dst ->
  is_all_zero (SegmentField.value src) = true ->
  is_all_zero (SegmentField.value dst) = true ->
  is_all_zero src_mac = false ->
  is_all_zero chosen = false ->
  (arp_mac = Some chosen /\ chosen <> []) \/
  (chosen = dst_mac /\
   (arp_mac = None \/ arp_mac = Some [] \/
    exists arp, arp_mac = Some arp /\ is_all_zero arp = true)) ->
  fst (setup_segment_ethernet s src_mac dst_mac arp_mac) = Return tt /\
  Segment_getitem (snd (setup_segment_ethernet s src_mac dst_mac arp_mac)) "Src MAC addr"
  = Return (SegmentField.set_value src src_mac) /\
  Segment_getitem (snd (setup_segment_ethernet s src_mac dst_mac arp_mac)) "Dst MAC addr"
  = Return (SegmentField.set_value dst chosen) /\
  Segment.is_field_src_value_all_zero
    (snd (setup_segment_ethernet s src_mac dst_mac arp_mac)) = Some true /\
  Segment.is_field_dst_value_all_zero
    (snd (setup_segment_ethernet s src_mac dst_mac arp_mac)) = Some true /\
  Segment_len (snd (setup_segment_ethernet s src_mac dst_mac arp_mac)) = Segment_len s.
Proof.
  intros Hty Hinit Hsrc Hdst Hzs Hzd Hsm Hch Harp.
  destruct (Segment_init_outcome data) as [Heth _].
  destruct (Heth Hty) as [Hok _]. rewrite (Hok src dst Hsrc Hdst) in Hinit.
  injection Hinit as <-. rewrite Hzs, Hzd.
  unfold Segment_getitem in Hsrc, Hdst.
  destruct (find_field (Segment.fields data) "Src MAC addr") as [a|] eqn:Fa;
    [|discriminate].
  destruct (find_field (Segment.fields data) "Dst MAC addr") as [b|] eqn:Fb;
    [|discriminate].
  injection Hsrc as ->. injection Hdst as ->.
  unfold setup_segment_ethernet. rewrite chosen_dst_mac.
  assert (Hc : match arp_mac with
               | Some arp => if is_all_zero arp then dst_mac
                             else match arp with [] => dst_mac | _ => arp end
               | None => dst_mac
               end = chosen).
  { destruct Harp as [[-> Hne]|[-> [->|[->|(arp & -> & Hz)]]]].
    - rewrite Hch. destruct chosen; [contradiction|reflexivity].
    - reflexivity.
    - reflexivity.
    - now rewrite Hz. }
  rewrite Hc, Hch. segment_simpl.
  rewrite (assign_field_value_found _ _ dst) by exact Fb.
  rewrite Hsm. segment_simpl.
  assert (Nd : SegmentField.name (SegmentField.set_value dst chosen) = "Dst MAC addr"%string)
    by (cbn; now apply (find_field_name (Segment.fields data))).
  assert (Ns : SegmentField.name (SegmentField.set_value src src_mac) = "Src MAC addr"%string)
    by (cbn; now apply (find_field_name (Segment.fields data))).
  assert (Fa' : find_field (replace_field (Segment.fields data) "Dst MAC addr"
                              (SegmentField.set_value dst chosen)) "Src MAC addr"
                = Some src).
  { rewrite find_replace_other; [assumption|assumption|discriminate]. }
  unfold assign_field_value, Segment_getitem.
  segment_simpl. rewrite Fa'. segment_simpl.
  split; [reflexivity|]. split; [|split; [|split; [reflexivity|split; [reflexivity|]]]].
  - now rewrite (find_replace_same _ _ src).
  - rewrite find_replace_other; [|assumption|discriminate].
    now rewrite (find_replace_same _ _ dst).
  - unfold Segment_len. segment_simpl.
    rewrite (replace_field_bit_length _ _ src) by (assumption || reflexivity).
    now rewrite (replace_field_bit_length _ _ dst) by (assumption || reflexivity).
Qed.

Lemma setup_segment_ethernet_keeps_literals_witness :
  setup_segment_ethernet
    (set_zero_flags (ethernet_data mac_a mac_b) (Some false) (Some false))
    mac_b mac_a (Some mac_b)
  = (Return tt, set_zero_flags (ethernet_data mac_a mac_b) (Some false) (Some false)).
Proof.
  destruct (setup_segment_ethernet_keeps_literals
              (ethernet_data mac_a mac_b)
              (set_zero_flags (ethernet_data mac_a mac_b) (Some false) (Some false))
              (src_field mac_b) (dst_field mac_a)
              eq_refl eq_refl eq_refl eq_refl) as [H _].
  apply H; reflexivity.
Defined.

Lemma setup_segment_ethernet_fills_blanks_witness :
  Segment_getitem
    (snd (setup_segment_ethernet
            (set_zero_flags (ethernet_data mac_zero mac_zero) (Some true) (Some true))
            mac_a mac_zero (Some mac_b)))
    "Dst MAC addr"
  = Return (SegmentField.set_value (dst_field mac_zero) mac_b).
Proof.
  apply (setup_segment_ethernet_fills_blanks
           (ethernet_data mac_zero mac_zero)
           (set_zero_flags (ethernet_data mac_zero mac_zero) (Some true) (Some true))
           (src_field mac_zero) (dst_field mac_zero) mac_a mac_zero mac_b (Some mac_b)
           eq_refl eq_refl eq_refl eq_refl eq_refl eq_refl eq_refl eq_refl).
  left. split; [reflexivity|discriminate].
Defined.

(** ** setup_segment_ipv4 and setup_segment_ipv6 *)

Lemma Segment_setitem_missing (s : Segment.t) (n : string) (v : Py.str) :
  find_field (Segment.fields s) n = None ->
  Segment_setitem s n v = (Raise KeyError, s).
Proof. intros H. unfold Segment_setitem, Segment_getitem. now rewrite H. Qed.

Lemma setup_segment_ip_missing (sn dn : string) (s : Segment.t) (a b : Py.str) :
  find_field (Segment.fields s) sn = None ->
  find_field (Segment.fields s) dn = None ->
  setup_segment_ip sn dn s a b
  = (if flag_set (Segment.is_field_src_value_all_zero s)
        || flag_set (Segment.is_field_dst_value_all_zero s)
     then Raise KeyError else Return tt, s).
Proof.
  intros Hs Hd. unfold setup_segment_ip.
  destruct (flag_set (Segment.is_field_src_value_all_zero s)).
  - now rewrite Segment_setitem_missing.
  - destruct (flag_set (Segment.is_field_dst_value_all_zero s)); [|reflexivity].
    now rewrite Segment_setitem_missing.
Qed.

Lemma Segment_init_ip (data s : Segment.t) (sn dn : string) :
  saving_is_original_value_zero data = save_flags data sn dn ->
  Segment_init data = Return s ->
  exists src dst,
    find_field (Segment.fields data) sn = Some src /\
    find_field (Segment.fields data) dn = Some dst /\
    s = set_zero_flags data (Some (is_all_zero (SegmentField.value src)))
                       (Some (is_all_zero (SegmentField.value dst))).
Proof.
  intros Hsave Hinit. unfold Segment_init in Hinit. rewrite Hsave in Hinit.
  pose proof (save_flags_outcome data sn dn) as H.
  destruct (find_field (Segment.fields data) sn) as [a|];
    [destruct (find_field (Segment.fields data) dn) as [b|]|];
    rewrite H in Hinit; cbn [bind] in Hinit; try discriminate.
  injection Hinit as <-. eauto.
Qed.

(** X13.  The IPv4 and IPv6 auto-fill look their fields up under other names
    ('Src IP addr', 'Dst IP addr', 'Src IPv6 addr', 'Dst IPv6 addr') than
    the constructor does ('Src IP Addr', 'Dest IP Addr', ...).  On a
    constructed IPv4 or IPv6 segment with no field of those other names they
    never change the segment: they return when neither address field was
    blank at construction and raise KeyError when one was. *)
Theorem setup_segment_ip_never_fills (data s : Segment.t) (a b : Py.str) :
  Segment_init data = Return s ->
  (Segment.segment_type data = IP ->
   Segment_getitem data "Src IP addr" = Raise KeyError ->
   Segment_getitem data "Dst IP addr" = Raise KeyError ->
   exists src dst,
     Segment_getitem data "Src IP Addr" = Return src /\
     Segment_getitem data "Dest IP Addr" = Return dst /\
     setup_segment_ipv4 s a b
     = (if is_all_zero (SegmentField.value src) || is_all_zero (SegmentField.value dst)
        then Raise KeyError else Return tt, s)) /\
  (Segment.segment_type data = IPV6 ->
   Segment_getitem data "Src IPv6 addr" = Raise KeyError ->
   Segment_getitem data "Dst IPv6 addr" = Raise KeyError ->
   exists src dst,
     Segment_getitem data "Src IPv6 Addr" = Return src /\
     Segment_getitem data "Dest IPv6 Addr" = Return dst /\
     setup_segment_ipv6 s a b
     = (if is_all_zero (SegmentField.value src) || is_all_zero (SegmentField.value dst)
        then Raise KeyError else Return tt, s)).
Proof.
  intros Hinit. unfold Segment_getitem. split.
  - intros Hty Hs Hd.
    assert (Hsave : saving_is_original_value_zero data
                    = save_flags data "Src IP Addr" "Dest IP Addr")
      by (unfold saving_is_original_value_zero; rewrite Hty; reflexivity).
    destruct (Segment_init_ip data s _ _ Hsave Hinit) as (src & dst & Fs & Fd & ->).
    exists src, dst. rewrite Fs, Fd. split; [reflexivity|]. split; [reflexivity|].
    destruct (find_field (Segment.fields data) "Src IP addr") eqn:E1; [discriminate|].
    destruct (find_field (Segment.fields data) "Dst IP addr") eqn:E2; [discriminate|].
    unfold setup_segment_ipv4. rewrite setup_segment_ip_missing by assumption.
    segment_simpl.
    destruct (is_all_zero (SegmentField.value src)),
             (is_all_zero (SegmentField.value dst)); reflexivity.
  - intros Hty Hs Hd.
    assert (Hsave : saving_is_original_value_zero data
                    = save_flags data "Src IPv6 Addr" "Dest IPv6 Addr")
      by (unfold saving_is_original_value_zero; rewrite Hty; reflexivity).
    destruct (Segment_init_ip data s _ _ Hsave Hinit) as (src & dst & Fs & Fd & ->).
    exists src, dst. rewrite Fs, Fd. split; [reflexivity|]. split; [reflexivity|].
    destruct (find_field (Segment.fields data) "Src IPv6 addr") eqn:E1; [discriminate|].
    destruct (find_field (Segment.fields data) "Dst IPv6 addr") eqn:E2; [discriminate|].
    unfold setup_segment_ipv6. rewrite setup_segment_ip_missing by assumption.
    segment_simpl.
    destruct (is_all_zero (SegmentField.value src)),
             (is_all_zero (SegmentField.value dst)); reflexivity.
Qed.

Lemma setup_segment_ip_never_fills_witness :
  exists src dst,
    Segment_getitem ipv4_blank_src_data "Src IP Addr" = Return src /\
    Segment_getitem ipv4_blank_src_data "Dest IP Addr" = Return dst /\
    setup_segment_ipv4 (set_zero_flags ipv4_blank_src_data (Some true) (Some false))
                       (Py.lit "11000000101010000000000000000001")
                       (Py.lit "11000000101010000000000011000111")
    = (if is_all_zero (SegmentField.value src) || is_all_zero (SegmentField.value dst)
       then Raise KeyError else Return tt,
       set_zero_flags ipv4_blank_src_data (Some true) (Some false)).
Proof.
  destruct (setup_segment_ip_never_fills ipv4_blank_src_data
              (set_zero_flags ipv4_blank_src_data (Some true) (Some false))
              (Py.lit "11000000101010000000000000000001")
              (Py.lit "11000000101010000000000011000111") eq_refl) as [H _].
  exact (H eq_refl eq_refl eq_refl).
Defined.

(** ** ProtocolSegmentProfileConfig *)

Lemma SegmentType_eqb_eq (a b : SegmentType) : SegmentType_eqb a b = true <-> a = b.
Proof.
  unfold SegmentType_eqb. destruct (SegmentType_eq_dec a b); split; congruence.
Qed.

Lemma SegmentType_eqb_neq (a b : SegmentType) : SegmentType_eqb a b = false <-> a <> b.
Proof.
  unfold SegmentType_eqb. destruct (SegmentType_eq_dec a b); split; congruence.
Qed.

(** X14.  The protocol version of a profile is decided by its first segment
    of type IPv6 or IPv4, in declared order: it is Ethernet exactly when the
    profile has no such segment, and IPv6 or IPv4 after that first segment
    whatever follows it. *)
Theorem protocol_version_first_match (self : ProtocolSegmentProfileConfig.t) :
  (ProtocolSegmentProfileConfig.protocol_version self = PortProtocolVersion.ETHERNET
   <-> Forall (fun s => Segment.segment_type s <> IP /\ Segment.segment_type s <> IPV6)
              (ProtocolSegmentProfileConfig.header_segments self)) /\
  (forall pre s post,
     ProtocolSegmentProfileConfig.header_segments self = pre ++ s :: post ->
     Forall (fun s => Segment.segment_type s <> IP /\ Segment.segment_type s <> IPV6) pre ->
     (Segment.segment_type s = IPV6 ->
      ProtocolSegmentProfileConfig.protocol_version self = PortProtocolVersion.IPV6) /\
     (Segment.segment_type s = IP ->
      ProtocolSegmentProfileConfig.protocol_version self = PortProtocolVersion.IPV4)).
Proof.
  unfold ProtocolSegmentProfileConfig.protocol_version.
  generalize (ProtocolSegmentProfileConfig.header_segments self) as segs.
  intros segs. split.
  - induction segs as [|i segs IH]; cbn [ProtocolSegmentProfileConfig.version_of].
    + split; auto.
    + destruct (SegmentType_eqb (Segment.segment_type i) IPV6) eqn:E6.
      * apply SegmentType_eqb_eq in E6. split; [discriminate|].
        intros H. inversion H as [|? ? [_ N] _]. contradiction.
      * destruct (SegmentType_eqb (Segment.segment_type i) IP) eqn:E4.
        -- apply SegmentType_eqb_eq in E4. split; [discriminate|].
           intros H. inversion H as [|? ? [N _] _]. contradiction.
        -- apply SegmentType_eqb_neq in E6, E4. rewrite IH. split.
           ++ intros H. constructor; auto.
           ++ intros H. now inversion H.
  - intros pre s post -> Hpre.
    induction Hpre as [|i pre [N4 N6] Hpre IH];
      cbn [app ProtocolSegmentProfileConfig.version_of].
    + split; intros E; rewrite E; reflexivity.
    + apply SegmentType_eqb_neq in N4, N6. rewrite N6, N4. exact IH.
Qed.

(** X15.  [get_segment] answers with a segment of the profile that has the
    type asked for, and with it only: when the profile has no segment of
    that type every index raises IndexError, and no other exception is ever
    raised. *)
Theorem get_segment_of_type (self : ProtocolSegmentProfileConfig.t)
  (segment_type : SegmentType) :
  (forall index s,
     ProtocolSegmentProfileConfig.get_segment self segment_type index = Return s ->
     In s (ProtocolSegmentProfileConfig.header_segments self) /\
     Segment.segment_type s = segment_type) /\
  (Forall (fun s => Segment.segment_type s <> segment_type)
          (ProtocolSegmentProfileConfig.header_segments self) <->
   forall index,
     ProtocolSegmentProfileConfig.get_segment self segment_type index = Raise IndexError) /\
  (forall index e,
     ProtocolSegmentProfileConfig.get_segment self segment_type index = Raise e ->
     e = IndexError).
Proof.
  unfold ProtocolSegmentProfileConfig.get_segment, ProtocolSegmentProfileConfig.getitem.
  set (segs := ProtocolSegmentProfileConfig.header_segments self).
  set (found := filter (fun s => SegmentType_eqb (Segment.segment_type s) segment_type) segs).
  split; [|split].
  - intros index s. unfold Py.getitem.
    destruct (_ && _); [|discriminate].
    destruct (nth_error found _) as [s'|] eqn:E; [|discriminate].
    intros H. injection H as <-. apply nth_error_In in E.
    unfold found in E. apply filter_In in E. destruct E as [Hin Ht].
    split; [assumption|now apply SegmentType_eqb_eq].
  - split.
    + intros Hnone index.
      assert (Hf : found = []).
      { unfold found. induction Hnone as [|s l Hs Hl IH]; [reflexivity|].
        cbn [filter]. apply SegmentType_eqb_neq in Hs. now rewrite Hs. }
      rewrite Hf. unfold Py.getitem. change (Py.len (@nil Segment.t)) with 0.
      destruct (index <? 0) eqn:Hneg.
      * replace (0 <=? 0 + index) with false; [reflexivity|].
        symmetry. apply Z.leb_gt. apply Z.ltb_lt in Hneg. lia.
      * replace (index <? 0) with false. now rewrite andb_false_r.
    + intros Hall. apply Forall_forall. intros s Hin Ht.
      assert (Hin' : In s found).
      { unfold found. apply filter_In. split; [assumption|now apply SegmentType_eqb_eq]. }
      specialize (Hall 0). unfold Py.getitem in Hall. cbn [Z.ltb Z.compare] in Hall.
      destruct found as [|s0 rest]; [contradiction|].
      unfold Py.len in Hall. cbn in Hall. discriminate.
  - intros index e. unfold Py.getitem.
    destruct (_ && _); [|congruence].
    destruct (nth_error found _); congruence.
Qed.

Lemma fold_add_map {A : Type} (f : A -> Z) (l : list A) (a : Z) :
  fold_left (fun acc x => acc + f x) l a = a + fold_right Z.add 0 (map f l).
Proof.
  revert a. induction l as [|x l IH]; intros a; cbn [fold_left map fold_right]; [lia|].
  rewrite IH. lia.
Qed.

Lemma plain_segment_parts (s : Segment.t) :
  plain_segment s ->
  Forall (fun f => SegmentField.value_range f = None) (Segment.fields s) /\
  Forall (fun f => forallb Py.is_bit (SegmentField.value f) = true) (Segment.fields s) /\
  Forall (fun f => Py.len (SegmentField.value f) = SegmentField.bit_length f)
         (Segment.fields s).
Proof.
  unfold plain_segment, plain_field. intros H.
  repeat split; eapply Forall_impl; try eassumption; cbn; tauto.
Qed.

Lemma plain_segment_len_nonneg (s : Segment.t) : plain_segment s -> 0 <= Segment_len s.
Proof.
  intros H. destruct (plain_segment_parts s H) as (_ & _ & Hl).
  unfold Segment_len. rewrite <- concat_values_len by assumption. apply len_nonneg.
Qed.

Lemma prepare_segments_plain (segs : list Segment.t) (rnd : Random) :
  Forall plain_segment segs ->
  snd (fst (ProtocolSegmentProfileConfig.prepare_segments segs rnd)) = segs /\
  snd (ProtocolSegmentProfileConfig.prepare_segments segs rnd) = rnd /\
  forall buf,
    fst (fst (ProtocolSegmentProfileConfig.prepare_segments segs rnd)) = Return buf ->
    Py.len buf = fold_right Z.add 0 (map (fun s => (Segment_len s + 7) / 8) segs).
Proof.
  induction 1 as [|s segs Hs Hsegs IH].
  - cbn. repeat split. intros buf H. injection H as <-. reflexivity.
  - cbn [ProtocolSegmentProfileConfig.prepare_segments].
    destruct (plain_segment_parts s Hs) as (P1 & P2 & P3).
    destruct (prepare_plain_state s rnd P1) as (E1 & E2 & _).
    destruct (prepare_plain_bytes s rnd P1 P2 P3) as (Hlen & _).
    destruct (Segment.prepare s rnd) as [[r s'] rnd1]. cbn [fst snd] in *. subst s' rnd1.
    destruct r as [bytes|e].
    + destruct IH as (I1 & I2 & I3).
      destruct (ProtocolSegmentProfileConfig.prepare_segments segs rnd)
        as [[r2 segs'] rnd2].
      cbn [fst snd] in *. subst segs' rnd2. repeat split.
      intros buf. destruct r2 as [bytes2|e2]; cbn [bind]; [|discriminate].
      intros H. injection H as <-. rewrite len_app, (Hlen bytes eq_refl).
      rewrite (I3 bytes2 eq_refl). reflexivity.
    + cbn [fst snd]. repeat split. intros buf H. discriminate H.
Qed.

Lemma ceil_sum (segs : list Segment.t) :
  Forall (fun s => 0 <= Segment_len s) segs ->
  fold_right Z.add 0 (map Segment_len segs)
  <= 8 * fold_right Z.add 0 (map (fun s => (Segment_len s + 7) / 8) segs) /\
  (Forall (fun s => Segment_len s mod 8 = 0) segs ->
   fold_right Z.add 0 (map Segment_len segs)
   = 8 * fold_right Z.add 0 (map (fun s => (Segment_len s + 7) / 8) segs)).
Proof.
  induction 1 as [|s segs Hs Hsegs [IH1 IH2]]; cbn [map fold_right].
  - split; [lia|reflexivity].
  - destruct (ceil8_covers (Segment_len s) Hs) as [Hc _]. split; [lia|].
    intros Hal. inversion Hal as [|? ? Hm Hal']; subst. specialize (IH2 Hal').
    pose proof (Z.div_mod (Segment_len s + 7) 8 ltac:(lia)) as Hdm.
    pose proof (Z.div_mod (Segment_len s) 8 ltac:(lia)) as Hdm2.
    assert (Hq : (Segment_len s + 7) / 8 = Segment_len s / 8).
    { symmetry. apply (Z.div_unique _ _ _ 7); lia. }
    lia.
Qed.

(** X16.  On a profile whose fields have no generator and hold binary
    digits, as many as their [bit_length] says, [prepare()] changes neither
    the profile nor the random source, and a buffer it returns is never
    shorter than [packet_header_length]; it has exactly that many bytes
    when the bit length of every segment is a multiple of 8. *)
Theorem profile_prepare_length (self : ProtocolSegmentProfileConfig.t) (rnd : Random) :
  Forall plain_segment (ProtocolSegmentProfileConfig.header_segments self) ->
  snd (fst (ProtocolSegmentProfileConfig.prepare self rnd)) = self /\
  snd (ProtocolSegmentProfileConfig.prepare self rnd) = rnd /\
  forall buf,
    fst (fst (ProtocolSegmentProfileConfig.prepare self rnd)) = Return buf ->
    ProtocolSegmentProfileConfig.packet_header_length self <= Py.len buf /\
    (Forall (fun s => Segment_len s mod 8 = 0)
            (ProtocolSegmentProfileConfig.header_segments self) ->
     Py.len buf = ProtocolSegmentProfileConfig.packet_header_length self).
Proof.
  intros Hplain. destruct self as [segs].
  cbn [ProtocolSegmentProfileConfig.header_segments] in *.
  destruct (prepare_segments_plain segs rnd Hplain) as (E1 & E2 & Hlen).
  unfold ProtocolSegmentProfileConfig.prepare,
    ProtocolSegmentProfileConfig.packet_header_length,
    ProtocolSegmentProfileConfig.len.
  cbn [ProtocolSegmentProfileConfig.header_segments].
  destruct (ProtocolSegmentProfileConfig.prepare_segments segs rnd) as [[r segs'] rnd'].
  cbn [fst snd] in *. subst segs' rnd'.
  assert (Hnn : Forall (fun s => 0 <= Segment_len s) segs)
    by (eapply Forall_impl; [|eassumption]; apply plain_segment_len_nonneg).
  destruct (ceil_sum segs Hnn) as [Hle Heq].
  split; [reflexivity|]. split; [reflexivity|].
  intros buf H. specialize (Hlen buf H). rewrite fold_add_map, Z.add_0_l. split.
  - rewrite Hlen. apply Z.div_le_upper_bound; lia.
  - intros Hal. rewrite (Heq Hal), Hlen.
    rewrite Z.mul_comm, Z.div_mul by lia. reflexivity.
Qed.

Lemma profile_prepare_length_witness :
  snd (fst (ProtocolSegmentProfileConfig.prepare
              (ProtocolSegmentProfileConfig.mk
                 [ethernet_data mac_a mac_b; ipv4_header]) rnd0))
  = ProtocolSegmentProfileConfig.mk [ethernet_data mac_a mac_b; ipv4_header] /\
  ProtocolSegmentProfileConfig.packet_header_length
    (ProtocolSegmentProfileConfig.mk [ethernet_data mac_a mac_b; ipv4_header]) = 34.
Proof.
  split; [|reflexivity].
  apply (profile_prepare_length
           (ProtocolSegmentProfileConfig.mk [ethernet_data mac_a mac_b; ipv4_header])
           rnd0).
  repeat constructor.
Defined.

(** * Further properties of the validation pipeline *)

(** ** Groups and peers by topology *)

(** X19.  Under the mesh topology, or without a test configuration,
    [check_port_groups_and_peers] raises nothing, whatever the ports. *)
Theorem check_port_groups_and_peers_mesh (v : PortConfType)
  (values : option TestConfiguration) :
  values = None \/
  (exists test_configuration,
     values = Some test_configuration /\
     is_mesh_topology (topology test_configuration) = true) ->
  PluginModel2544.check_port_groups_and_peers v values = Return v.
Proof.
  intros [->|(tc & -> & Hmesh)]; [reflexivity|].
  unfold PluginModel2544.check_port_groups_and_peers.
  destruct (topology tc); try discriminate.
  rewrite loop_mesh. reflexivity.
Qed.

Lemma check_port_groups_and_peers_mesh_witness :
  PluginModel2544.check_port_groups_and_peers mispaired_ports (Some mesh_east_to_west)
  = Return mispaired_ports.
Proof.
  apply check_port_groups_and_peers_mesh. right.
  exists mesh_east_to_west. split; reflexivity.
Defined.

(** X20.  Under a topology that is not mesh the validator never passes on
    the PortConfiguration of [m_port_config.py]: without ports it raises
    PortGroupError for East, and with ports AttributeError at the first of
    them, whatever their groups and peer slots. *)
Theorem check_port_groups_not_mesh (test_configuration : TestConfiguration)
  (v : PortConfType) :
  is_mesh_topology (topology test_configuration) = false ->
  PluginModel2544.check_port_groups_and_peers v (Some test_configuration)
  = match v with
    | [] => Raise (PortGroupError "East")
    | _ :: _ => Raise AttributeError
    end.
Proof.
  intros Hmesh. unfold PluginModel2544.check_port_groups_and_peers.
  destruct v as [|[k p] rest].
  - cbn [PluginModel2544.groups_and_peers_loop bind]. rewrite Hmesh. reflexivity.
  - now rewrite loop_not_mesh.
Qed.

Lemma check_port_groups_not_mesh_witness :
  is_mesh_topology (topology blocks_west_to_east) = false /\
  PluginModel2544.check_port_groups_and_peers paired_ports (Some blocks_west_to_east)
  = Raise AttributeError /\
  PluginModel2544.check_port_groups_and_peers [] (Some blocks_west_to_east)
  = Raise (PortGroupError "East").
Proof.
  split; [reflexivity|]. split.
  - exact (check_port_groups_not_mesh blocks_west_to_east paired_ports eq_refl).
  - exact (check_port_groups_not_mesh blocks_west_to_east [] eq_refl).
Defined.

(** * Further properties of the peer resolver *)

Lemma contains_In (l : list Properties.PortStruct) (q : Properties.PortStruct) :
  Properties.contains l q = true <-> In (Properties.ident q) (map Properties.ident l).
Proof.
  unfold Properties.contains. rewrite existsb_exists, in_map_iff. split.
  - intros (x & Hin & E). apply Nat.eqb_eq in E. eauto.
  - intros (x & E & Hin). exists x. split; [assumption|now apply Nat.eqb_eq].
Qed.

(** X22.  However often and in whatever order peers are registered on a
    fresh port, its peer list holds each registered port exactly once, and
    no other port. *)
Theorem registered_peers_once (i : Z) (l : list Properties.PortStruct) :
  NoDup (map Properties.ident
           (Properties.peers (Properties.register_all (Properties.fresh i) l))) /\
  (forall q,
     Properties.contains
       (Properties.peers (Properties.register_all (Properties.fresh i) l)) q = true
     <-> In (Properties.ident q) (map Properties.ident l)).
Proof.
  induction l as [|q l [IHn IHc]] using rev_ind.
  - split; [constructor|]. intros q. cbn. split; [discriminate|contradiction].
  - rewrite register_all_snoc, register_peer_peers.
    set (p := Properties.register_all (Properties.fresh i) l) in *.
    destruct (Properties.contains (Properties.peers p) q) eqn:Hc.
    + split; [assumption|]. intros q'. rewrite IHc, map_app, in_app_iff. split; [tauto|].
      intros [H|[H|[]]]; [assumption|]. cbn in H. rewrite <- H. now apply IHc.
    + split.
      * rewrite map_app. cbn [map].
        apply (Permutation_NoDup (Permutation_cons_append _ _)). constructor; [|assumption].
        intros Hin. apply contains_In in Hin. congruence.
      * intros q'. rewrite contains_In, !map_app, !in_app_iff.
        rewrite <- contains_In, IHc. tauto.
Qed.

Lemma how_many_pos {A : Type} (f : A -> bool) (l : list A) :
  0 < how_many f l <-> exists x, In x l /\ f x = true.
Proof.
  unfold how_many. split.
  - intros H. destruct (filter f l) as [|x r] eqn:E; [cbn in H; lia|].
    exists x. apply filter_In. rewrite E. now left.
  - intros (x & Hin & Hf).
    assert (Hx : In x (filter f l)) by (apply filter_In; auto).
    destruct (filter f l); [contradiction|cbn [List.length]; lia].
Qed.

Lemma registered_counts (i : Z) (l : list Properties.PortStruct) :
  let p := Properties.register_all (Properties.fresh i) l in
  Properties.dest_port_count p
  = how_many (fun q => negb (Properties.peer_index q =? i)) l /\
  Properties.low_dest_port_count p = how_many (fun q => Properties.peer_index q <? i) l /\
  Properties.high_dest_port_count p = how_many (fun q => Properties.peer_index q >? i) l /\
  Properties.num_modifiersL2 p
  = (if (0 <? how_many (fun q => Properties.peer_index q <? i) l)
        && (0 <? how_many (fun q => Properties.peer_index q >? i) l)
     then 2 else 1).
Proof.
  cbv zeta. induction l as [|q l (IHd & IHl & IHh & IHn)] using rev_ind.
  - repeat split.
  - rewrite register_all_snoc, !how_many_snoc.
    set (p := Properties.register_all (Properties.fresh i) l) in *.
    assert (Hi : Properties.test_port_index p = i)
      by (unfold p; now rewrite register_all_test_port_index).
    destruct (aggregates_fields (Properties.register_peer p q)) as (-> & -> & -> & _).
    assert (Hnum : Properties.num_modifiersL2 (Properties.register_peer p q)
                   = Properties.agg_num_modifiersL2
                       (Properties.aggregates_of (Properties.register_peer p q)))
      by reflexivity.
    rewrite Hnum.
    own_or_other p q.
    + rewrite register_peer_self by assumption. rewrite Hi in E.
      cbn [Properties.aggregates_of Properties.agg_dest_port_count
           Properties.agg_low_dest_port_count Properties.agg_high_dest_port_count
           Properties.agg_num_modifiersL2].
      rewrite E, Z.eqb_refl, Z.gtb_ltb, Z.ltb_irrefl.
      cbn [negb Z.b2z]. rewrite !Z.add_0_r. auto.
    + rewrite register_peer_other by assumption. cbv zeta. rewrite Hi in *.
      cbn [Properties.agg_dest_port_count
           Properties.agg_low_dest_port_count Properties.agg_high_dest_port_count
           Properties.agg_num_modifiersL2].
      rewrite IHd, IHl, IHh.
      replace (Properties.peer_index q =? i) with false
        by (symmetry; now apply Z.eqb_neq).
      cbn [negb Z.b2z]. repeat split.
      rewrite !Z.gtb_ltb. reflexivity.
Qed.

Lemma registered_counts_facts (i : Z) (l : list Properties.PortStruct) :
  Properties.dest_port_count (Properties.register_all (Properties.fresh i) l)
  = how_many (fun q => negb (Properties.peer_index q =? i)) l /\
  Properties.low_dest_port_count (Properties.register_all (Properties.fresh i) l)
  = how_many (fun q => Properties.peer_index q <? i) l /\
  Properties.high_dest_port_count (Properties.register_all (Properties.fresh i) l)
  = how_many (fun q => Properties.peer_index q >? i) l /\
  (Properties.num_modifiersL2 (Properties.register_all (Properties.fresh i) l) = 2
   <-> (exists q, In q l /\ Properties.peer_index q < i) /\
       (exists q, In q l /\ Properties.peer_index q > i)) /\
  (Properties.num_modifiersL2 (Properties.register_all (Properties.fresh i) l) = 2 \/
   Properties.num_modifiersL2 (Properties.register_all (Properties.fresh i) l) = 1).
Proof.
  destruct (registered_counts i l) as (Hd & Hl & Hh & Hn).
  split; [assumption|]. split; [assumption|]. split; [assumption|].
  rewrite Hn.
  pose proof (how_many_pos (fun q => Properties.peer_index q <? i) l) as Pl.
  pose proof (how_many_pos (fun q => Properties.peer_index q >? i) l) as Ph.
  destruct (Z.ltb_spec 0 (how_many (fun q => Properties.peer_index q <? i) l)) as [L|L];
    destruct (Z.ltb_spec 0 (how_many (fun q => Properties.peer_index q >? i) l)) as [H|H];
    cbn [andb]; (split; [|lia]); split; try discriminate; try reflexivity.
  - intros _. apply Pl in L. apply Ph in H.
    destruct L as (q1 & I1 & L1), H as (q2 & I2 & H2).
    split; [exists q1|exists q2]; split; auto.
    + now apply Z.ltb_lt.
    + rewrite Z.gtb_ltb in H2. apply Z.ltb_lt in H2. lia.
  - intros [_ (q2 & I2 & H2)].
    assert (0 < how_many (fun q => Properties.peer_index q >? i) l).
    { apply Ph. exists q2. split; [assumption|]. rewrite Z.gtb_ltb. apply Z.ltb_lt. lia. }
    lia.
  - intros [(q1 & I1 & L1) _].
    assert (0 < how_many (fun q => Properties.peer_index q <? i) l).
    { apply Pl. exists q1. split; [assumption|]. now apply Z.ltb_lt. }
    lia.
  - intros [(q1 & I1 & L1) _].
    assert (0 < how_many (fun q => Properties.peer_index q <? i) l).
    { apply Pl. exists q1. split; [assumption|]. now apply Z.ltb_lt. }
    lia.
Qed.

(** X23.  After any registrations on a fresh port of index [i], the counts
    are those of the registrations themselves, repeated ones included:
    [dest_port_count] is the number of registrations of a peer of another
    index, the low and high counts those of a lower and of a higher index,
    and [num_modifiersL2] is 2 exactly when there is one of each. *)
Theorem registered_counts_closed_form (i : Z) (l : list Properties.PortStruct) :
  Properties.dest_port_count (Properties.register_all (Properties.fresh i) l)
  = how_many (fun q => negb (Properties.peer_index q =? i)) l /\
  Properties.low_dest_port_count (Properties.register_all (Properties.fresh i) l)
  = how_many (fun q => Properties.peer_index q <? i) l /\
  Properties.high_dest_port_count (Properties.register_all (Properties.fresh i) l)
  = how_many (fun q => Properties.peer_index q >? i) l /\
  (Properties.num_modifiersL2 (Properties.register_all (Properties.fresh i) l) = 2
   <-> (exists q, In q l /\ Properties.peer_index q < i) /\
       (exists q, In q l /\ Properties.peer_index q > i)) /\
  (Properties.num_modifiersL2 (Properties.register_all (Properties.fresh i) l) = 2 \/
   Properties.num_modifiersL2 (Properties.register_all (Properties.fresh i) l) = 1).
Proof. exact (registered_counts_facts i l). Qed.

Lemma registered_extremes (i : Z) (l : list Properties.PortStruct) :
  Forall (fun q => Properties.peer_index q <> -1) l ->
  let p := Properties.register_all (Properties.fresh i) l in
  (Properties.lowest_dest_port_index p = -1 ->
   forall q, In q l -> Properties.peer_index q = i) /\
  (Properties.highest_dest_port_index p = -1 ->
   forall q, In q l -> Properties.peer_index q = i) /\
  (forall q, In q l -> Properties.peer_index q <> i ->
     Properties.lowest_dest_port_index p <= Properties.peer_index q
     <= Properties.highest_dest_port_index p).
Proof.
  cbv zeta. induction l as [|q l IH] using rev_ind; intros Hok.
  - repeat split; intros; contradiction.
  - apply Forall_app in Hok. destruct Hok as [Hl Hq].
    inversion Hq as [|? ? Hq1 _]; subst.
    destruct (IH Hl) as (Ilo & Ihi & Ibd). clear IH.
    rewrite register_all_snoc.
    set (p := Properties.register_all (Properties.fresh i) l) in *.
    assert (Hi : Properties.test_port_index p = i)
      by (unfold p; now rewrite register_all_test_port_index).
    destruct (aggregates_fields (Properties.register_peer p q)) as (_ & _ & _ & -> & ->).
    assert (Hsplit : forall q', In q' (l ++ [q]) -> In q' l \/ q' = q).
    { intros q' Hin. apply in_app_iff in Hin. destruct Hin as [Hin|[<-|[]]]; auto. }
    own_or_other p q.
    + rewrite register_peer_self by assumption. rewrite Hi in E.
      cbn [Properties.aggregates_of Properties.agg_lowest_dest_port_index
           Properties.agg_highest_dest_port_index].
      split; [|split].
      * intros H q' Hin. destruct (Hsplit q' Hin) as [Hin'| ->]; auto.
      * intros H q' Hin. destruct (Hsplit q' Hin) as [Hin'| ->]; auto.
      * intros q' Hin Hne. destruct (Hsplit q' Hin) as [Hin'| ->]; [auto|contradiction].
    + rewrite register_peer_other by assumption. cbv zeta. rewrite Hi in E.
      cbn [Properties.agg_lowest_dest_port_index Properties.agg_highest_dest_port_index].
      unfold seeded_min, seeded_max.
      split; [|split].
      * destruct (Z.eqb_spec (Properties.lowest_dest_port_index p) (-1)); intros H; lia.
      * destruct (Z.eqb_spec (Properties.highest_dest_port_index p) (-1)); intros H; lia.
      * intros q' Hin Hne. destruct (Hsplit q' Hin) as [Hin'| ->].
        -- pose proof (Ibd q' Hin' Hne) as Hb.
           destruct (Z.eqb_spec (Properties.lowest_dest_port_index p) (-1)) as [Elo|Elo];
             [specialize (Ilo Elo q' Hin'); contradiction|].
           destruct (Z.eqb_spec (Properties.highest_dest_port_index p) (-1)) as [Ehi|Ehi];
             [specialize (Ihi Ehi q' Hin'); contradiction|].
           lia.
        -- destruct (Z.eqb_spec (Properties.lowest_dest_port_index p) (-1));
             destruct (Z.eqb_spec (Properties.highest_dest_port_index p) (-1)); lia.
Qed.

Lemma get_modifier_range_0_cases (p : Properties.t) :
  (Properties.num_modifiersL2 p = 2 /\
   Properties.get_modifier_range p 0
   = (Properties.lowest_dest_port_index p, Properties.test_port_index p - 1)) \/
  (Properties.num_modifiersL2 p <> 2 /\ Properties.dest_port_count p > 0 /\
   Properties.get_modifier_range p 0
   = (Properties.lowest_dest_port_index p, Properties.highest_dest_port_index p)) \/
  (Properties.num_modifiersL2 p <> 2 /\ Properties.dest_port_count p <= 0 /\
   Properties.get_modifier_range p 0
   = (Properties.test_port_index p, Properties.test_port_index p)).
Proof.
  unfold Properties.get_modifier_range. cbn [Z.eqb].
  destruct (Z.eqb_spec (Properties.num_modifiersL2 p) 2); [now left|right].
  destruct (Z.gtb_spec (Properties.dest_port_count p) 0); [left|right]; repeat split; lia.
Qed.

(** X24.  After peers whose index is not -1 have been registered on a fresh
    port, the modifier ranges cover every destination: the index of a
    registered peer below the port lies in [get_modifier_range(0)]; the
    index of one above it lies in [get_modifier_range(1)] when the port has
    peers on both sides, and in [get_modifier_range(0)] otherwise; and
    [get_modifier_range(0)] is never an empty range. *)
Theorem modifier_ranges_cover_peers (i : Z) (l : list Properties.PortStruct) :
  Forall (fun q => Properties.peer_index q <> -1) l ->
  (forall q, In q l -> Properties.peer_index q < i ->
     within (Properties.get_modifier_range
               (Properties.register_all (Properties.fresh i) l) 0)
            (Properties.peer_index q)) /\
  (forall q, In q l -> Properties.peer_index q > i ->
     within (Properties.get_modifier_range
               (Properties.register_all (Properties.fresh i) l)
               (if Properties.num_modifiersL2
                     (Properties.register_all (Properties.fresh i) l) =? 2
                then 1 else 0))
            (Properties.peer_index q)) /\
  fst (Properties.get_modifier_range
         (Properties.register_all (Properties.fresh i) l) 0)
  <= snd (Properties.get_modifier_range
            (Properties.register_all (Properties.fresh i) l) 0).
Proof.
  intros Hok.
  destruct (registered_extremes i l Hok) as (_ & _ & Hbd). cbv zeta in Hbd.
  destruct (registered_counts_facts i l) as (Hd & _ & _ & Hn & _).
  set (p := Properties.register_all (Properties.fresh i) l) in *.
  assert (Hi : Properties.test_port_index p = i)
    by (unfold p; now rewrite register_all_test_port_index).
  pose proof (how_many_pos (fun q => negb (Properties.peer_index q =? i)) l) as Pd.
  assert (Hdest : forall q, In q l -> Properties.peer_index q <> i ->
                            Properties.dest_port_count p > 0).
  { intros q Hin Hne. rewrite Hd. apply Z.lt_gt, Pd. exists q. split; [assumption|].
    apply negb_true_iff. now apply Z.eqb_neq. }
  unfold within. split; [|split].
  - intros q Hin Hlt.
    pose proof (Hbd q Hin ltac:(lia)) as Hb.
    pose proof (Hdest q Hin ltac:(lia)) as Hdp.
    destruct (get_modifier_range_0_cases p) as [[_ ->]|[(_ & _ & ->)|(_ & D & _)]];
      cbn [fst snd]; lia.
  - intros q Hin Hgt.
    pose proof (Hbd q Hin ltac:(lia)) as Hb.
    pose proof (Hdest q Hin ltac:(lia)) as Hdp.
    destruct (Z.eqb_spec (Properties.num_modifiersL2 p) 2) as [E2|E2].
    + unfold Properties.get_modifier_range. cbn [Z.eqb fst snd]. lia.
    + destruct (get_modifier_range_0_cases p) as [[N _]|[(_ & _ & ->)|(_ & D & _)]];
        cbn [fst snd]; lia.
  - destruct (get_modifier_range_0_cases p) as [[N ->]|[(_ & D & ->)|(_ & _ & ->)]];
      cbn [fst snd]; [| |lia].
    + apply Hn in N. destruct N as [(q1 & I1 & L1) _].
      pose proof (Hbd q1 I1 ltac:(lia)). lia.
    + rewrite Hd in D. apply Z.gt_lt, Pd in D. destruct D as (q1 & I1 & N1).
      apply negb_true_iff, Z.eqb_neq in N1.
      pose proof (Hbd q1 I1 N1). lia.
Qed.

Lemma modifier_ranges_cover_peers_witness :
  within (Properties.get_modifier_range
            (Properties.register_all (Properties.fresh 3) [peer_5; peer_1; peer_9]) 0)
         (Properties.peer_index peer_1).
Proof.
  destruct (modifier_ranges_cover_peers 3 [peer_5; peer_1; peer_9]) as (H & _ & _).
  - repeat constructor; cbn; lia.
  - apply H; [right; left; reflexivity|cbn; lia].
Defined.

(** ** wrap_add_16 at a negative offset *)

Lemma setitem_negative (b : list Z) (i v : Z) :
  - Py.len b <= i < 0 -> Py.setitem b i v = Py.setitem b (Py.len b + i) v.
Proof.
  intros Hi. unfold Py.setitem.
  replace (i <? 0) with true by (symmetry; apply Z.ltb_lt; lia).
  replace (Py.len b + i <? 0) with false by (symmetry; apply Z.ltb_ge; lia).
  reflexivity.
Qed.

(** X25.  A negative checksum offset counts from the end of the buffer, as a
    Python index does: for an offset from [-len] to -2, [wrap_add_16] does
    what it does at the offset [len + offset]. *)
Theorem wrap_add_16_negative_offset (data : list Z) (k : Z) :
  - Py.len data <= k <= -2 ->
  wrap_add_16 data k = wrap_add_16 data (Py.len data + k).
Proof.
  intros Hk. unfold wrap_add_16.
  rewrite (setitem_negative data (k + 0)) by lia.
  replace (Py.len data + (k + 0)) with (Py.len data + k + 0) by lia.
  destruct (Py.setitem data (Py.len data + k + 0) 0) as [d1|] eqn:E1;
    cbn [bind]; [|reflexivity].
  pose proof (setitem_len _ _ _ _ E1) as L1.
  rewrite (setitem_negative d1 (k + 1)) by lia.
  replace (Py.len d1 + (k + 1)) with (Py.len data + k + 1) by lia.
  destruct (Py.setitem d1 (Py.len data + k + 1) 0) as [d2|] eqn:E2;
    cbn [bind]; [|reflexivity].
  pose proof (setitem_len _ _ _ _ E2) as L2.
  destruct (checksum_loop d2 0) as [c|]; cbn [bind]; [|reflexivity].
  rewrite (setitem_negative d2 (k + 0)) by lia.
  replace (Py.len d2 + (k + 0)) with (Py.len data + k + 0) by lia.
  destruct (Py.setitem d2 (Py.len data + k + 0) _) as [d3|] eqn:E3;
    cbn [bind]; [|reflexivity].
  pose proof (setitem_len _ _ _ _ E3) as L3.
  rewrite (setitem_negative d3 (k + 1)) by lia.
  replace (Py.len d3 + (k + 1)) with (Py.len data + k + 1) by lia.
  reflexivity.
Qed.

Lemma wrap_add_16_negative_offset_witness :
  wrap_add_16 [69; 0; 0; 115; 7; 7] (-2) = wrap_add_16 [69; 0; 0; 115; 7; 7] 4.
Proof.
  apply (wrap_add_16_negative_offset [69; 0; 0; 115; 7; 7] (-2)).
  unfold Py.len; cbn; lia.
Defined.

(** ** SegmentType.raw_length *)

Lemma last_component_no_sep (sep : ascii) (s : string) :
  (forall acc, (forall c, In c (list_ascii_of_string s) -> Ascii.eqb c sep = false) ->
   last_component sep s acc = (acc ++ s)%string).
Proof.
  induction s as [|c s IH]; intros acc H.
  - cbn. induction acc as [|a acc IHa]; [reflexivity|]. cbn. now rewrite <- IHa.
  - cbn [last_component]. rewrite (H c) by (cbn; auto).
    rewrite IH by (intros c' Hc'; apply H; cbn; auto).
    induction acc as [|a acc IHa]; [reflexivity|]. cbn. now rewrite <- IHa.
Qed.

Lemma string_of_uint_no_underscore (d : Decimal.uint) :
  forall c, In c (list_ascii_of_string (NilEmpty.string_of_uint d)) ->
            Ascii.eqb c "_" = false.
Proof.
  induction d; cbn; intros c Hc; try contradiction;
    destruct Hc as [<-|Hc]; try reflexivity; auto.
Qed.

(** X26.  [is_raw] holds exactly for the generated raw members, and
    [raw_length] never raises: it reads back from the value of the member
    RAW_i the number [i] it was generated with, and is 0 for every other
    member, also for those whose value holds an underscore. *)
Theorem raw_length_round_trip (self : SegmentType) :
  (is_raw self = true <-> exists i, self = RAW i) /\
  (forall i, self = RAW i -> raw_length self = Return (Zpos i)) /\
  (is_raw self = false -> raw_length self = Return 0).
Proof.
  split; [|split].
  - destruct self; try (split; [discriminate|intros [i Hi]; discriminate]).
    split; [eauto|reflexivity].
  - intros i ->. unfold raw_length.
    change (is_raw (RAW i)) with true. cbn [negb].
    change (last_component "_" (SegmentType_value (RAW i)) EmptyString)
      with (last_component "_" (NilEmpty.string_of_uint (Pos.to_uint i)) EmptyString).
    rewrite last_component_no_sep by apply string_of_uint_no_underscore.
    cbn [append]. unfold int10. rewrite NilEmpty.usu.
    pose proof (Unsigned.of_to i) as Hof.
    destruct (Pos.to_uint i) eqn:E; try (rewrite Hof; reflexivity).
    cbn in Hof. discriminate.
  - intros H. unfold raw_length. now rewrite H.
Qed.

Example raw_length_examples :
  raw_length (RAW 64) = Return 64 /\ raw_length GRE_NOCHECK = Return 0 /\
  is_raw TCPCHECK = false.
Proof. repeat split. Qed.
